(** * The editing core of the favicon editor, embedded in Rocq

    The development follows the Go sources: [part_001] (the current
    editor: a sparse map from line index to rune slice, a cursor, word
    wrap), [editor.go] (the earlier editor, with tab expansion) and
    [part_000] (the icon codec).

    Conventions of the embedding.
    - Go's [int], [rune] and [byte] are integers in [Z].  Line indices and
      lengths stay far below 2^63 (they are bounded by the memory holding
      the document), so no wrap-around is written out for them.
    - [map[int][]rune] is a [gmap Z (list Z)].  A nil map reads like the
      empty map, and the code allocates a map before every write, so the
      two are identified.  A nil slice stored under a key is the empty list.
    - A Go [string] is the list of its bytes; text that comes from runes is
      encoded as UTF-8 the way [strings.Builder.WriteRune] does.
    - A run-time panic (index or slice bound out of range) is the result
      [Panic]; loops whose number of iterations is not bounded beforehand
      take a step budget and give [OutOfFuel] when it is used up. *)

From Stdlib Require Import ZArith List Lia Bool String Ascii.
From stdpp Require Import base option list gmap strings fin_maps.

Local Open Scope Z_scope.

(** ** Results of operations that may panic or loop *)

Inductive Res (A : Type) : Type :=
| Done (a : A)
| Panic
| OutOfFuel.
Arguments Done {A} a.
Arguments Panic {A}.
Arguments OutOfFuel {A}.

#[global] Instance Res_ret : MRet Res := fun _ a => Done a.
#[global] Instance Res_bind : MBind Res := fun _ _ k r =>
  match r with
  | Done a => k a
  | Panic => Panic
  | OutOfFuel => OutOfFuel
  end.

(** ** Slices *)

(** [len(s)] *)
Definition len {A : Type} (l : list A) : Z := Z.of_nat (length l).

(** [s[i]], which panics out of range. *)
Definition index {A : Type} (l : list A) (i : Z) : Res A :=
  if i <? 0 then Panic
  else match l !! Z.to_nat i with
       | Some a => Done a
       | None => Panic
       end.

(** [s[:n]] and [s[n:]].  Go accepts [s[:n]] up to the capacity of [s];
    capacities are not tracked, and a bound beyond the length is a
    [Panic] here. *)
Definition sliceTo {A : Type} (l : list A) (n : Z) : Res (list A) :=
  if (n <? 0) || (len l <? n) then Panic else Done (take (Z.to_nat n) l).
Definition sliceFrom {A : Type} (l : list A) (n : Z) : Res (list A) :=
  if (n <? 0) || (len l <? n) then Panic else Done (drop (Z.to_nat n) l).

(** ** Unicode: the parts of Go's [unicode] and [unicode/utf8] the editor uses *)

Module Unicode.

Definition rune := Z.
Definition byte := Z.

Definition RuneError : rune := 0xFFFD.
Definition MaxRune : rune := 0x10FFFF.
Definition RuneSelf : Z := 0x80.
Definition surrogateMin : rune := 0xD800.
Definition surrogateMax : rune := 0xDFFF.
Definition MaxLatin1 : rune := 0xFF.

(** [unicode.IsSpace]: the Latin-1 cases are listed in the function, the
    others are the White_Space property above U+00FF. *)
Definition IsSpace (r : rune) : bool :=
  if (0 <=? r) && (r <=? MaxLatin1) then
    (r =? 0x09) || (r =? 0x0A) || (r =? 0x0B) || (r =? 0x0C) || (r =? 0x0D)
    || (r =? 0x20) || (r =? 0x85) || (r =? 0xA0)
  else
    (r =? 0x1680) || ((0x2000 <=? r) && (r <=? 0x200A))
    || (r =? 0x2028) || (r =? 0x2029) || (r =? 0x202F)
    || (r =? 0x205F) || (r =? 0x3000).

(** A rune that UTF-8 can encode: a Unicode scalar value. *)
Definition valid_rune (r : rune) : bool :=
  (0 <=? r) && (r <=? MaxRune) && negb ((surrogateMin <=? r) && (r <=? surrogateMax)).

(** [utf8.AppendRune]: runes that are not scalar values are written as
    [RuneError]. *)
Definition enc3 (r : rune) : list byte :=
  [Z.lor 0xE0 (Z.shiftr r 12);
   Z.lor 0x80 (Z.land (Z.shiftr r 6) 0x3F);
   Z.lor 0x80 (Z.land r 0x3F)].

Definition EncodeRune (r : rune) : list byte :=
  if (0 <=? r) && (r <=? 0x7F) then [r]
  else if (0 <=? r) && (r <=? 0x7FF) then
    [Z.lor 0xC0 (Z.shiftr r 6); Z.lor 0x80 (Z.land r 0x3F)]
  else if negb (valid_rune r) then enc3 RuneError
  else if r <=? 0xFFFF then enc3 r
  else
    [Z.lor 0xF0 (Z.shiftr r 18);
     Z.lor 0x80 (Z.land (Z.shiftr r 12) 0x3F);
     Z.lor 0x80 (Z.land (Z.shiftr r 6) 0x3F);
     Z.lor 0x80 (Z.land r 0x3F)].

(** [string(runes)] *)
Definition EncodeRunes (rs : list rune) : list byte :=
  flat_map EncodeRune rs.

(** Is [b] a continuation byte within [lo..hi]? *)
Definition inRange (lo hi b : byte) : bool := (lo <=? b) && (b <=? hi).

(** [utf8.DecodeRune]: the first rune of [s] and its width in bytes.  An
    ill-formed sequence decodes to [RuneError] with width 1, the empty
    input to [RuneError] with width 0.  The cases follow the table
    [first] and the accept ranges of the library. *)
Definition DecodeRune (s : list byte) : rune * Z :=
  match s with
  | [] => (RuneError, 0)
  | s0 :: t =>
    if s0 <? RuneSelf then (s0, 1)
    else if (s0 <? 0xC2) || (0xF4 <? s0) then (RuneError, 1)
    else if s0 <? 0xE0 then
      match t with
      | s1 :: _ =>
        if inRange 0x80 0xBF s1
        then (Z.lor (Z.shiftl (Z.land s0 0x1F) 6) (Z.land s1 0x3F), 2)
        else (RuneError, 1)
      | _ => (RuneError, 1)
      end
    else if s0 <? 0xF0 then
      match t with
      | s1 :: s2 :: _ =>
        let lo := if s0 =? 0xE0 then 0xA0 else 0x80 in
        let hi := if s0 =? 0xED then 0x9F else 0xBF in
        if inRange lo hi s1 && inRange 0x80 0xBF s2
        then (Z.lor (Z.lor (Z.shiftl (Z.land s0 0x0F) 12)
                           (Z.shiftl (Z.land s1 0x3F) 6))
                    (Z.land s2 0x3F), 3)
        else (RuneError, 1)
      | _ => (RuneError, 1)
      end
    else
      match t with
      | s1 :: s2 :: s3 :: _ =>
        let lo := if s0 =? 0xF0 then 0x90 else 0x80 in
        let hi := if s0 =? 0xF4 then 0x8F else 0xBF in
        if inRange lo hi s1 && inRange 0x80 0xBF s2 && inRange 0x80 0xBF s3
        then (Z.lor (Z.lor (Z.lor (Z.shiftl (Z.land s0 0x07) 18)
                                  (Z.shiftl (Z.land s1 0x3F) 12))
                           (Z.shiftl (Z.land s2 0x3F) 6))
                    (Z.land s3 0x3F), 4)
        else (RuneError, 1)
      | _ => (RuneError, 1)
      end
  end.

(** [for _, r := range s]: the runes of a string, front to back.  The
    budget is the number of bytes, and every step consumes at least one. *)
Fixpoint decodeLoop (fuel : nat) (s : list byte) : list rune :=
  match fuel with
  | O => []
  | S f =>
    match s with
    | [] => []
    | _ => let '(r, w) := DecodeRune s in
           r :: decodeLoop f (drop (Z.to_nat w) s)
    end
  end.

Definition DecodeRunes (s : list byte) : list rune :=
  decodeLoop (length s) s.

(** [utf8.RuneStart] *)
Definition RuneStart (b : byte) : bool := negb (Z.land b 0xC0 =? 0x80).

End Unicode.
Export Unicode.

(** ** The functions of Go's [bytes] and [strings] packages the editor calls

    They are written after the library's own loops, over lists of bytes. *)

Module GoLib.

(** [utf8.DecodeLastRune]: the scan for the start of the last rune, at most
    [UTFMax] bytes back.  [k] bounds the turns of the loop. *)
Fixpoint lastRuneStart (p : list byte) (k : nat) (start lim : Z) : Z :=
  match k with
  | O => start
  | S k' =>
    if start <? lim then start
    else if RuneStart (nth (Z.to_nat start) p 0) then start
    else lastRuneStart p k' (start - 1) lim
  end.

Definition DecodeLastRune (p : list byte) : rune * Z :=
  let end_ := len p in
  if end_ =? 0 then (RuneError, 0)
  else
    let r := nth (Z.to_nat (end_ - 1)) p 0 in
    if r <? RuneSelf then (r, 1)
    else
      let lim := Z.max 0 (end_ - 4) in
      let start := lastRuneStart p 4 (end_ - 2) lim in
      let start := Z.max 0 start in
      let '(r, size) := DecodeRune (drop (Z.to_nat start) p) in
      if start + size =? end_ then (r, size) else (RuneError, 1).

(** [lastIndexFunc(s, f, false)]: the byte index of the last rune that does
    not satisfy [f], or -1. *)
Fixpoint lastIndexLoop (fuel : nat) (s : list byte) (f : rune -> bool) (i : Z) : Z :=
  match fuel with
  | O => -1
  | S fuel' =>
    if 0 <? i then
      let b := nth (Z.to_nat (i - 1)) s 0 in
      let '(r, size) :=
        if RuneSelf <=? b then DecodeLastRune (take (Z.to_nat i) s) else (b, 1) in
      let i' := i - size in
      if negb (f r) then i' else lastIndexLoop fuel' s f i'
    else -1
  end.

Definition lastIndexFunc (s : list byte) (f : rune -> bool) : Z :=
  lastIndexLoop (S (length s)) s f (len s).

(** [bytes.TrimRightFunc] *)
Definition TrimRightFunc (s : list byte) (f : rune -> bool) : list byte :=
  let i := lastIndexFunc s f in
  let i' :=
    if (0 <=? i) && (RuneSelf <=? nth (Z.to_nat i) s 0)
    then i + snd (DecodeRune (drop (Z.to_nat i) s))
    else i + 1 in
  take (Z.to_nat i') s.

(** [strings.TrimLeftFunc]: drop the leading runes that satisfy [f]. *)
Fixpoint trimLeftLoop (fuel : nat) (s : list byte) (f : rune -> bool) : list byte :=
  match fuel with
  | O => []
  | S fuel' =>
    match s with
    | [] => []
    | _ => let '(r, w) := DecodeRune s in
           if f r then trimLeftLoop fuel' (drop (Z.to_nat w) s) f else s
    end
  end.

Definition TrimLeftFunc (s : list byte) (f : rune -> bool) : list byte :=
  trimLeftLoop (length s) s f.

(** [strings.TrimSpace] *)
Definition TrimSpace (s : list byte) : list byte :=
  TrimRightFunc (TrimLeftFunc s IsSpace) IsSpace.

(** [strings.Fields]: the maximal runs of runes that are not white space.
    [cur] holds the bytes of the field being read. *)
Definition closeField (cur : list byte) (acc : list (list byte)) : list (list byte) :=
  match cur with
  | [] => acc
  | _ => acc ++ [cur]
  end.

Fixpoint fieldsLoop (fuel : nat) (s cur : list byte) (acc : list (list byte))
  : list (list byte) :=
  match fuel with
  | O => closeField cur acc
  | S fuel' =>
    match s with
    | [] => closeField cur acc
    | _ =>
      let '(r, w) := DecodeRune s in
      if IsSpace r
      then fieldsLoop fuel' (drop (Z.to_nat w) s) [] (closeField cur acc)
      else fieldsLoop fuel' (drop (Z.to_nat w) s) (cur ++ take (Z.to_nat w) s) acc
    end
  end.

Definition Fields (s : list byte) : list (list byte) :=
  fieldsLoop (length s) s [] [].

(** [bytes.Split(s, sep)] for a separator of one byte. *)
Fixpoint Split (s : list byte) (sep : byte) : list (list byte) :=
  match s with
  | [] => [[]]
  | b :: t =>
    if b =? sep then [] :: Split t sep
    else match Split t sep with
         | h :: r => (b :: h) :: r
         | [] => [[b]]
         end
  end.

(** [bytes.HasPrefix] *)
Fixpoint HasPrefix (s prefix : list byte) : bool :=
  match prefix, s with
  | [], _ => true
  | p :: ps, b :: t => (b =? p) && HasPrefix t ps
  | _ :: _, [] => false
  end.

(** [bytes.Replace(s, old, new, -1)] for a non-empty [old]: the
    occurrences are replaced from left to right, without overlap. *)
Fixpoint replaceLoop (fuel : nat) (s old new : list byte) : list byte :=
  match fuel with
  | O => s
  | S fuel' =>
    match s with
    | [] => []
    | b :: t =>
      if HasPrefix s old
      then new ++ replaceLoop fuel' (drop (length old) s) old new
      else b :: replaceLoop fuel' t old new
    end
  end.

Definition Replace (s old new : list byte) : list byte :=
  replaceLoop (length s) s old new.

(** [bytes.Contains(s, []byte{b})] *)
Definition Contains (s : list byte) (b : byte) : bool :=
  existsb (Z.eqb b) s.

(** [strings.HasSuffix] on file names. *)
Definition HasSuffixS (s suffix : string) : bool :=
  let n := String.length s in
  let k := String.length suffix in
  (k <=? n)%nat && String.eqb (substring (n - k) k s) suffix.

(** [strings.Replace(s, old, new, 1)] on file names: the first occurrence. *)
Fixpoint ReplaceFirstS (s old new : string) : string :=
  if String.prefix old s
  then new +:+ substring (String.length old) (String.length s - String.length old) s
  else match s with
       | EmptyString => EmptyString
       | String c t => String c (ReplaceFirstS t old new)
       end.

End GoLib.

(** ** The editor state ([part_001])

    [Position] is declared outside the files at hand; its fields are the
    ones the editor reads and writes: the screen column and row, the scroll
    offset and the saved column.  Colours and the search highlight do not
    influence the text and are left out. *)

Abbreviation Lines := (gmap Z (list rune)).

Inductive Mode : Set := modeBlank | modeGray4 | modeRGB | modeRGBA.

#[global] Instance Mode_eq_dec : EqDecision Mode.
Proof. solve_decision. Defined.

Record Position : Type := mkPosition {
  sx : Z;
  sy : Z;
  offset : Z;
  savedX : Z
}.

Record Editor : Type := mkEditor {
  lines : Lines;
  changed : bool;
  drawMode : bool;
  pos : Position;
  redraw : bool;
  redrawCursor : bool;
  wordWrapAt : Z;
  mode : Mode
}.

Definition set_lines (ls : Lines) (e : Editor) : Editor :=
  mkEditor ls (changed e) (drawMode e) (pos e) (redraw e) (redrawCursor e)
           (wordWrapAt e) (mode e).
Definition set_changed (b : bool) (e : Editor) : Editor :=
  mkEditor (lines e) b (drawMode e) (pos e) (redraw e) (redrawCursor e)
           (wordWrapAt e) (mode e).
Definition set_pos (p : Position) (e : Editor) : Editor :=
  mkEditor (lines e) (changed e) (drawMode e) p (redraw e) (redrawCursor e)
           (wordWrapAt e) (mode e).
Definition set_sx (x : Z) (e : Editor) : Editor :=
  set_pos (mkPosition x (sy (pos e)) (offset (pos e)) (savedX (pos e))) e.
Definition set_sy (y : Z) (e : Editor) : Editor :=
  set_pos (mkPosition (sx (pos e)) y (offset (pos e)) (savedX (pos e))) e.
Definition set_offset (o : Z) (e : Editor) : Editor :=
  set_pos (mkPosition (sx (pos e)) (sy (pos e)) o (savedX (pos e))) e.
Definition set_redraw (b : bool) (e : Editor) : Editor :=
  mkEditor (lines e) (changed e) (drawMode e) (pos e) b (redrawCursor e)
           (wordWrapAt e) (mode e).
Definition set_redrawCursor (b : bool) (e : Editor) : Editor :=
  mkEditor (lines e) (changed e) (drawMode e) (pos e) (redraw e) b
           (wordWrapAt e) (mode e).
Definition set_drawMode (b : bool) (e : Editor) : Editor :=
  mkEditor (lines e) (changed e) b (pos e) (redraw e) (redrawCursor e)
           (wordWrapAt e) (mode e).
Definition set_mode (m : Mode) (e : Editor) : Editor :=
  mkEditor (lines e) (changed e) (drawMode e) (pos e) (redraw e)
           (redrawCursor e) (wordWrapAt e) m.

(** [NewEditor], with the cursor of [NewPosition] at the origin. *)
Definition NewEditor (textEditMode : bool) (m : Mode) : Editor :=
  mkEditor ∅ false (negb textEditMode) (mkPosition 0 0 0 0) false false 99 m.

(** [e.lines[y]]: a missing key reads as the nil slice. *)
Definition lineAt (ls : Lines) (y : Z) : list rune := default [] (ls !! y).

(** [Get] retrieves a rune from the editor data, at the given coordinates. *)
Definition Get (x y : Z) (e : Editor) : Res rune :=
  match lines e !! y with
  | None => Done 0x20
  | Some runes =>
    if len runes <=? x then Done 0x20
    else index runes x
  end.

(** [Set]: store a rune at the given data coordinates, filling a line that
    is too short with spaces. *)
Definition padTo (x : Z) (l : list rune) : list rune :=
  l ++ replicate (Z.to_nat (x + 1 - len l)) 0x20.

Definition Set_ (x y : Z) (r : rune) (e : Editor) : Res Editor :=
  if x <? 0 then Panic
  else
    let l := lineAt (lines e) y in
    if x <? len l
    then Done (set_changed true (set_lines (<[y := <[Z.to_nat x := r]> l]> (lines e)) e))
    else Done (set_changed true
                 (set_lines (<[y := <[Z.to_nat x := r]> (padTo x l)]> (lines e)) e)).

(** [Line] returns the contents of line number n as a string. *)
Definition Line (n : Z) (e : Editor) : list byte :=
  match lines e !! n with
  | Some line => EncodeRunes line
  | None => []
  end.

(** [LastDataPosition]: [len([]rune(e.Line(n))) - 1]. *)
Definition LastDataPosition (n : Z) (e : Editor) : Z :=
  len (DecodeRunes (Line n e)) - 1.

Definition LastScreenPosition (n : Z) (e : Editor) : Z := LastDataPosition n e.

(** The loop of [Len], [for y := range e.lines], keeps the largest key
    above the initial [maxy := 0]. *)
Definition maxKey (ls : Lines) : Z :=
  map_fold (fun y (_ : list rune) maxy => if maxy <? y then y else maxy) 0 ls.

(** [Len] returns the number of lines. *)
Definition Len (e : Editor) : Z := maxKey (lines e) + 1.

(** [DataY]: the row in the data under the cursor. *)
Definition DataY (e : Editor) : Z :=
  if drawMode e then sy (pos e) else offset (pos e) + sy (pos e).

(** The error value of [DataX]. *)
Definition errAfterData : string := "position is after data".

(** The loop of [DataX]: one step per rune of the line, until the screen
    counter meets the cursor column.  The result is the rune counter and
    whether the column was found. *)
Fixpoint dataXLoop (l : list rune) (sx0 screenCounter runeCounter : Z) : Z * bool :=
  match l with
  | [] => (runeCounter, false)
  | _ :: t =>
    if screenCounter =? sx0 then (runeCounter, true)
    else dataXLoop t sx0 (screenCounter + 1) (runeCounter + 1)
  end.

(** [DataX]: the column in the data under the cursor, and the error
    "position is after data" when the scan runs off the line. *)
Definition DataX (e : Editor) : Z * option string :=
  if drawMode e then (sx (pos e), None)
  else
    let dataY := offset (pos e) + sy (pos e) in
    let '(runeCounter, found) := dataXLoop (lineAt (lines e) dataY) (sx (pos e)) 0 0 in
    if found then (runeCounter, None) else (runeCounter, Some errAfterData).

(** The loop of [TrimRight], [for x := lastIndex; x >= 0; x--]: [k] is
    [x + 1]; the result is the value of [lastIndex] after the loop. *)
Fixpoint lastNonSpace (l : list rune) (k : nat) (lastIndex : Z) : Z :=
  match k with
  | O => lastIndex
  | S x => if negb (IsSpace (nth x l 0)) then Z.of_nat x
           else lastNonSpace l x lastIndex
  end.

(** [TrimRight] removes whitespace from the end of the given line. *)
Definition trimRightLine (l : list rune) : list rune :=
  let lastIndex := lastNonSpace l (length l) (len l - 1) in
  take (Z.to_nat (lastIndex + 1)) l.

Definition TrimRight (n : Z) (e : Editor) : Editor :=
  match lines e !! n with
  | None => e
  | Some l => set_changed true (set_lines (<[n := trimRightLine l]> (lines e)) e)
  end.

(** [MakeConsistent]: [for i := 0; i < len(e.lines); i++], where the bound
    is read again at every turn and grows with every line the loop adds. *)
Fixpoint makeConsistentLoop (fuel : nat) (i : Z) (e : Editor) : Res Editor :=
  match fuel with
  | O => OutOfFuel
  | S f =>
    if i <? Z.of_nat (size (lines e)) then
      match lines e !! i with
      | None => makeConsistentLoop f (i + 1)
                  (set_changed true (set_lines (<[i := []]> (lines e)) e))
      | Some _ => makeConsistentLoop f (i + 1) e
      end
    else Done e
  end.

Definition MakeConsistent (fuel : nat) (e : Editor) : Res Editor :=
  makeConsistentLoop fuel 0 e.

(** The search for the largest key in [DeleteLine], with its flag. *)
Definition maxIndexOf (ls : Lines) : Z * bool :=
  map_fold (fun k _ (acc : Z * bool) => if fst acc <? k then (k, true) else acc)
           (0, false) ls.

(** [for i := n; i <= maxIndex-1; i++ { e.lines[i] = e.lines[i+1] }],
    with [k] turns left. *)
Fixpoint shiftUp (k : nat) (i : Z) (ls : Lines) : Lines :=
  match k with
  | O => ls
  | S k' => shiftUp k' (i + 1) (<[i := lineAt ls (i + 1)]> ls)
  end.

(** [DeleteLine] deletes the given line index. *)
Definition DeleteLine (fuel : nat) (n : Z) (e : Editor) : Res Editor :=
  if Len e - 1 <=? n then Done (set_lines (delete n (lines e)) e)
  else
    let '(maxIndex, found) := maxIndexOf (lines e) in
    if negb found then Done e
    else match lines e !! maxIndex with
         | None => Done e
         | Some _ =>
           let ls := shiftUp (Z.to_nat (maxIndex - n)) n (lines e) in
           MakeConsistent fuel (set_changed true (set_lines (delete maxIndex ls) e))
         end.

(** [Delete] deletes the character at the cursor, joining the next line
    when the cursor is at or past the last character. *)
Definition Delete (fuel : nat) (e : Editor) : Res Editor :=
  let y := DataY e in
  let l := lineAt (lines e) y in
  let llen := len l in
  if bool_decide (lines e !! y = None) || (llen =? 0)
     || ((llen =? 1) && IsSpace (nth 0 l 0))
  then e1 ← DeleteLine fuel y e; Done (set_changed true e1)
  else
    let '(x, err) := DataX e in
    if bool_decide (err ≠ None) || (len l - 1 <=? x) then
      cut ← sliceTo l x;
      let e1 := set_lines (<[y := cut]> (lines e)) e in
      match lines e1 !! (y + 1) with
      | Some nextLine =>
        if 0 <? len nextLine then
          let e2 := set_lines (<[y := cut ++ nextLine]> (lines e1)) e1 in
          e3 ← DeleteLine fuel (y + 1) e2;
          Done (set_changed true e3)
        else Done (set_changed true e1)
      | None => Done (set_changed true e1)
      end
    else
      left ← sliceTo l x;
      right ← sliceFrom l (x + 1);
      MakeConsistent fuel
        (set_changed true (set_lines (<[y := left ++ right]> (lines e)) e)).

(** [WithinLimit]: is the line within the word wrap limit? *)
Definition WithinLimit (y : Z) (e : Editor) : bool :=
  len (lineAt (lines e) y) <? wordWrapAt e.

(** [LastWord]: the last word of a line, or the empty string. *)
Definition LastWord (y : Z) (e : Editor) : list byte :=
  let words := GoLib.Fields (GoLib.TrimSpace (EncodeRunes (lineAt (lines e) y))) in
  default [] (last words).

(** The search of [SplitOvershoot] for a space,
    [for i := splitPosition; i >= 0; i--], with [k = i + 1]. *)
Fixpoint findSpaceLeft (l : list rune) (k : nat) : Z :=
  match k with
  | O => -1
  | S i => if (Z.of_nat i <? len l) && IsSpace (nth i l 0) then Z.of_nat i
           else findSpaceLeft l i
  end.

(** [SplitOvershoot] splits line [y] into a part within the word wrap
    length and the part that overshoots. *)
Definition SplitOvershoot (y : Z) (isSpace : bool) (e : Editor)
  : Res (list rune * list rune) :=
  let maxDistance := Z.quot (wordWrapAt e) 2 in
  let l := lineAt (lines e) y in
  if WithinLimit y e then Done (l, [])
  else
    let splitPosition := wordWrapAt e in
    let splitPosition :=
      if isSpace then fst (DataX e)
      else
        let spacePosition := findSpaceLeft l (Z.to_nat (splitPosition + 1)) in
        if negb (spacePosition =? -1) then
          let distance := splitPosition - spacePosition in
          if maxDistance <? distance then splitPosition else spacePosition
        else splitPosition in
    let n := splitPosition in
    first ← sliceTo l n;
    second ← sliceFrom l n;
    let second :=
      if (0 <? len second) && IsSpace (nth 0 second 0) then drop 1 second else second in
    Done (first, second).

(** The loop [for k, v := range e.lines] of [InsertLineBelowAt] (and, with
    [y - 1], of [InsertLineAbove]): the keys below [y] stay, the keys above
    move up by one and a blank line follows key [y].  The keys written are
    distinct, so the order of the iteration does not matter. *)
Definition insertBlankAfter (y : Z) (ls : Lines) : Lines :=
  map_fold (fun k v (lines2 : Lines) =>
              if k <? y then <[k := v]> lines2
              else if k =? y then <[k + 1 := []]> (<[k := v]> lines2)
              else <[k + 1 := v]> lines2)
           ∅ ls.

(** [for i := len(e.lines); i > y; i--], deleting empty lines until a
    line with contents is met; [k] is [i - y]. *)
Fixpoint skipTrailing (k : nat) (y : Z) (ls : Lines) : Lines :=
  match k with
  | O => ls
  | S k' =>
    let i := y + Z.of_nat k in
    if len (lineAt ls i) =? 0 then skipTrailing k' y (delete i ls) else ls
  end.

(** [InsertLineAbove] inserts a new line above the current position. *)
Definition InsertLineAbove (fuel : nat) (e : Editor) : Res Editor :=
  let y := DataY e in
  let e1 := set_lines (insertBlankAfter (y - 1) (lines e)) e in
  e2 ← MakeConsistent fuel e1;
  let n := Z.of_nat (size (lines e2)) in
  let e3 := set_lines (skipTrailing (Z.to_nat (n - y)) y (lines e2)) e2 in
  MakeConsistent fuel (set_changed true e3).

(** [InsertLineBelowAt] inserts a new line below the given y position. *)
Definition InsertLineBelowAt (fuel : nat) (y : Z) (e : Editor) : Res Editor :=
  e0 ← MakeConsistent fuel e;
  if y =? Z.of_nat (size (lines e0)) - 1 then
    Done (set_changed true (set_lines (<[y + 1 := []]> (lines e0)) e0))
  else
    let e1 := set_lines (insertBlankAfter y (lines e0)) e0 in
    e2 ← MakeConsistent fuel e1;
    let n := Z.of_nat (size (lines e2)) in
    let e3 := set_lines (skipTrailing (Z.to_nat (n - y)) y (lines e2)) e2 in
    MakeConsistent fuel (set_changed true e3).

Definition InsertLineBelow (fuel : nat) (e : Editor) : Res Editor :=
  InsertLineBelowAt fuel (DataY e) e.

(** [Insert] inserts a rune at the cursor, with no word wrap. *)
Definition Insert (fuel : nat) (r : rune) (e : Editor) : Res Editor :=
  let x := fst (DataX e) in
  let y := DataY e in
  match lines e !! y with
  | None => Done (set_lines (<[y := [r]]> (lines e)) e)
  | Some l =>
    if len l <? x then Done e
    else if x <? 0 then Panic
    else
      let newline := take (Z.to_nat x) l ++ r :: drop (Z.to_nat x) l in
      MakeConsistent fuel (set_changed true (set_lines (<[y := newline]> (lines e)) e))
  end.

(** [CreateLineIfMissing] *)
Definition CreateLineIfMissing (fuel : nat) (n : Z) (e : Editor) : Res Editor :=
  match lines e !! n with
  | None => MakeConsistent fuel (set_changed true (set_lines (<[n := []]> (lines e)) e))
  | Some _ => MakeConsistent fuel e
  end.

(** [AtOrAfterEndOfLine]: is the cursor at or after the contents of the line? *)
Definition AtOrAfterEndOfLine (e : Editor) : bool :=
  let '(x, err) := DataX e in
  match err with
  | Some _ => true
  | None => LastDataPosition (DataY e) e <=? x
  end.

(** [FirstScreenPosition]: the number of leading white space runes. *)
Fixpoint countLeadingSpace (rs : list rune) : Z :=
  match rs with
  | r :: t => if IsSpace r then 1 + countLeadingSpace t else 0
  | [] => 0
  end.

Definition FirstScreenPosition (n : Z) (e : Editor) : Z :=
  countLeadingSpace (DecodeRunes (Line n e)).

(** The terminal canvas, as far as the editor asks it: its size. *)
Record Canvas : Type := mkCanvas { canvasWidth : Z; canvasHeight : Z }.

(** Modelled from the spec: [Position.SetX] is declared outside the files
    at hand; after a vertical move the horizontal position is reset to the
    column it is given. *)
Definition SetX (x : Z) (e : Editor) : Editor := set_sx x e.

(** [GoTo] goes to a given line index, counting from 0. *)
Definition GoTo (dataY : Z) (c : option Canvas) (e : Editor) : Editor :=
  if dataY =? DataY e then e
  else
    let '(dataY, reachedEnd) :=
      if dataY <? 0 then (0, false)
      else if Len e <=? dataY then (Len e - 1, true)
      else (dataY, false) in
    let h := match c with Some cv => canvasHeight cv | None => 25 end in
    let topY := offset (pos e) in
    let botY := offset (pos e) + h in
    let e1 :=
      if (topY <=? dataY) && (dataY <? botY) then set_sy (dataY - offset (pos e)) e
      else if dataY <? h then set_sy (dataY - 1) (set_offset 0 e)
      else if reachedEnd then set_sy (h - 1) (set_offset (Len e - h) e)
      else
        let prevY := sy (pos e) in
        let e' := set_offset dataY (set_sy 0 e) in
        let lessJumpY := prevY in
        let lessJumpOffset := dataY - prevY in
        if lessJumpY + lessJumpOffset <? Len e'
        then set_offset lessJumpOffset (set_sy lessJumpY e')
        else e' in
    set_redrawCursor true (SetX (FirstScreenPosition (DataY e1) e1) e1).

(** [nextLine] goes to the start of the next line. *)
Definition nextLine (y : Z) (c : option Canvas) (e : Editor) : Editor :=
  GoTo (y + 1) c (set_sx 0 e).

(** [insertBelow] inserts the rune at the start of the line below,
    starting a new line if required. *)
Definition insertBelow (y : Z) (r : rune) (e : Editor) : Editor :=
  match lines e !! (y + 1) with
  | None => set_lines (<[y + 1 := [r]]> (lines e)) e
  | Some l =>
    if 0 <? len l then set_lines (<[y + 1 := r :: l]> (lines e)) e
    else set_lines (<[y + 1 := [r]]> (lines e)) e
  end.

(** The body shared by the two "short word" cases of [InsertRune]:
    [lastWord] already ends with the new rune. *)
Definition moveWordDown (y : Z) (c : option Canvas) (r : rune)
    (prevAtSpace : bool) (lastWord : list rune) (e : Editor) : Editor :=
  let l := lineAt (lines e) y in
  let pos_ := len l - len lastWord in
  if 0 <? pos_ then
    let e1 := TrimRight y (set_lines (<[y := take (Z.to_nat pos_) l]> (lines e)) e) in
    match lines e1 !! (y + 1) with
    | None =>
      let lastWord :=
        if prevAtSpace
        then take (Z.to_nat (len lastWord - 1)) lastWord ++ [0x20] ++ [r]
        else lastWord in
      let e2 := set_lines (<[y + 1 := lastWord]> (lines e1)) e1 in
      set_sx (len lastWord - 1) (GoTo (y + 1) c e2)
    | Some next =>
      let e2 :=
        if 0 <? len next
        then set_lines (<[y + 1 := lastWord ++ next]> (lines e1)) e1
        else e1 in
      set_sx (len lastWord - 1) (GoTo (y + 1) c e2)
    end
  else
    let e1 :=
      match lines e !! (y + 1) with
      | None => set_lines (<[y + 1 := [r]]> (lines e)) e
      | Some next =>
        if 0 <? len next then set_lines (<[y + 1 := r :: next]> (lines e)) e else e
      end in
    nextLine y c e1.

(** [InsertRune] inserts a rune at the cursor, with word wrap.  The cases
    of the [switch] are tried in the order of the source. *)
Definition InsertRune (fuel : nat) (c : option Canvas) (r : rune) (e : Editor)
  : Res Editor :=
  let y := DataY e in
  if (wordWrapAt e =? 0) || WithinLimit y e then Insert fuel r e
  else
    let e := set_redraw true (set_redrawCursor true (set_changed true e)) in
    let isSpace := IsSpace r in
    let '(x, err) := DataX e in
    let x := match err with Some _ => sx (pos e) | None => x end in
    let l := lineAt (lines e) y in
    let prevAtSpace :=
      if (0 <? x) && (x <=? len l) then IsSpace (nth (Z.to_nat (x - 1)) l 0) else false in
    let atSpace :=
      if (0 <=? x) && (x <? len l) then IsSpace (nth (Z.to_nat x) l 0) else false in
    let EOL := AtOrAfterEndOfLine e in
    let lastWord := DecodeRunes (GoLib.TrimSpace (LastWord y e)) in
    let wlen := len (EncodeRunes lastWord) in
    let shortWord := (wlen <? 10) && (wlen <? wordWrapAt e) in
    e' ←
      (if negb EOL then
         right ← sliceFrom l x;
         left ← sliceTo l x;
         let e1 := TrimRight y (set_lines (<[y := left]> (lines e)) e) in
         let e2 := insertBelow y r e1 in
         let e3 := set_lines (<[y + 1 := r :: right]> (lines e2)) e2 in
         Done (set_sx 0 (GoTo (y + 1) c e3))
       else if negb isSpace && negb atSpace && EOL then
         Done (moveWordDown y c r prevAtSpace (lastWord ++ [r]) e)
       else if isSpace && EOL then
         InsertLineBelowAt fuel y e
       else if (negb isSpace && EOL && negb shortWord)
               || (negb isSpace && prevAtSpace && EOL)
               || (negb isSpace && atSpace && negb prevAtSpace && EOL && shortWord)
               || (negb isSpace && negb atSpace && negb prevAtSpace && EOL
                   && negb shortWord) then
         Done (nextLine y c (insertBelow y r e))
       else if negb isSpace && negb atSpace && negb prevAtSpace && EOL && shortWord then
         Done (moveWordDown y c r prevAtSpace
                 (if negb isSpace then lastWord ++ [r] else lastWord) e)
       else Insert fuel r e);
    MakeConsistent fuel (TrimRight y e').

(** [WrapAllLinesAt] wraps all lines that are too long.  Its arguments [n]
    and [maxOvershoot] are not read: the limit is [wordWrapAt].  [i] is the
    loop variable, [wrapped] the result so far. *)
Fixpoint wrapLoop (fuel0 fuel : nat) (i : Z) (wrapped : bool) (e : Editor)
  : Res (bool * Editor) :=
  match fuel with
  | O => OutOfFuel
  | S f =>
    if i <? Len e then
      if WithinLimit i e then wrapLoop fuel0 f (i + 1) wrapped e
      else
        parts ← SplitOvershoot i false e;
        let '(first, second) := parts in
        if (0 <? len first) && (0 <? len second) then
          e1 ← InsertLineBelowAt fuel0 i e;
          let e2 := set_lines (<[i + 1 := second]> (<[i := first]> (lines e1))) e1 in
          let e3 := set_changed true e2 in
          let e4 := if i <? DataY e3 then set_sy (sy (pos e3) + 1) e3 else e3 in
          wrapLoop fuel0 f (i + 1) true e4
        else wrapLoop fuel0 f (i + 1) true e
    else Done (wrapped, e)
  end.

Definition WrapAllLinesAt (fuel : nat) (n maxOvershoot : Z) (e : Editor)
  : Res (bool * Editor) :=
  wrapLoop fuel fuel 0 false e.

(** [End] moves the cursor right after the contents of the current line,
    trimming the line. *)
Definition End (e : Editor) : Editor :=
  let y := DataY e in
  let e1 := TrimRight y e in
  set_sx (LastScreenPosition y e1 + 1) e1.

(** ** Files

    The file system the editor saves to: the contents of the files, the
    paths that cannot be opened for writing, and the log of what was done. *)

Inductive FsEvent : Type :=
| EvCreate (name : string)
| EvWrite (name : string) (data : list byte).

Record World : Type := mkWorld {
  files : gmap string (list byte);
  readonly : gset string;
  fslog : list FsEvent
}.

Inductive GoError : Type :=
| ErrNew (msg : string)       (* errors.New(msg) *)
| ErrOpen (path : string)     (* the file could not be opened *)
| ErrEncode.                  (* the image encoder failed *)

(** [os.Create]: the file is created or truncated. *)
Definition osCreate (name : string) (w : World) : GoError + World :=
  if bool_decide (name ∈ readonly w) then inl (ErrOpen name)
  else inr (mkWorld (<[name := []]> (files w)) (readonly w)
                    (fslog w ++ [EvCreate name])).

(** [f.Write(data)] on a file open for writing. *)
Definition fileWrite (name : string) (data : list byte) (w : World) : World :=
  mkWorld (<[name := default [] (files w !! name) ++ data]> (files w)) (readonly w)
          (fslog w ++ [EvWrite name data]).

(** [ioutil.WriteFile] and [ioutil.ReadFile] *)
Definition WriteFile (name : string) (data : list byte) (w : World)
  : option GoError * World :=
  match osCreate name w with
  | inl err => (Some err, w)
  | inr w1 => (None, fileWrite name data w1)
  end.

Definition ReadFile (name : string) (w : World) : GoError + list byte :=
  match files w !! name with
  | Some data => inr data
  | None => inl (ErrOpen name)
  end.

(** ** The icon codec ([part_000]) *)

Definition Color : Type := Z * Z * Z * Z.
Abbreviation Image := (gmap (Z * Z) Color).

(** The image encoders and decoders come from Go's [image] packages.  They
    are an interface here: [pngEncode] gives the bytes [png.Encode] writes
    or fails, [toGray] is [draw.Draw] into a gray image, and [readFavicon]
    stands for [ReadFavicon], which decodes an image and computes luma with
    floating point numbers. *)
Class ImageCodec : Type := {
  pngEncode : Image -> option (list byte);
  toGray : Image -> Image;
  readFavicon : string -> bool -> bool -> World -> GoError + (Mode * list byte * string)
}.

(** [lookupRunes]: 16 shades of gray by rune; a rune that is not in the map
    reads as 0. *)
Definition lookupRunes (r : rune) : byte :=
  if r =? 95 then 0          (* _ *)
  else if r =? 44 then 1     (* , *)
  else if r =? 46 then 2     (* . *)
  else if r =? 39 then 3     (* ' *)
  else if r =? 45 then 4     (* - *)
  else if r =? 126 then 5    (* ~ *)
  else if r =? 43 then 6     (* + *)
  else if r =? 58 then 7     (* : *)
  else if r =? 42 then 8     (* * *)
  else if r =? 60 then 9     (* < *)
  else if r =? 61 then 10    (* = *)
  else if r =? 33 then 11    (* ! *)
  else if r =? 37 then 12    (* % *)
  else if r =? 123 then 15   (* { *)
  else if r =? 36 then 13    (* $ *)
  else if r =? 64 then 14    (* @ *)
  else 0.

(** One pixel of [WriteFavicon]. *)
Definition drawPixel (runes : list rune) (y x : Z) (m : Image) : Image :=
  if x * 2 <? len runes then
    let r := nth (Z.to_nat (x * 2)) runes 0 in
    if r =? 84 (* T *) then <[(x, y) := (0, 0, 0, 0)]> m
    else
      let intensity := (lookupRunes r * 16 + 15) mod 256 in
      <[(x, y) := (intensity, intensity, intensity, 0xff)]> m
  else <[(x, y) := (0xff, 0xff, 0xff, 0)]> m.

(** The rows of [WriteFavicon]: at most 16 lines of the text are drawn. *)
Fixpoint drawRows (ls : list (list byte)) (y : Z) (m : Image) : Image :=
  match ls with
  | [] => m
  | line :: rest =>
    if 16 <=? y then m
    else
      let runes := DecodeRunes line in
      drawRows rest (y + 1) (foldl (fun m x => drawPixel runes y x m) m (seqZ 0 16))
  end.

(** Little endian integers, as [binary.Write] lays them out. *)
Definition le16 (v : Z) : list byte := [v mod 256; (v / 256) mod 256].
Definition le32 (v : Z) : list byte :=
  [v mod 256; (v / 256) mod 256; (v / 65536) mod 256; (v / 16777216) mod 256].

Section Codec.
Context `{ImageCodec}.

(** [png.Encode(f, m)] into the file [name]. *)
Definition pngEncodeTo (name : string) (m : Image) (w : World) : option GoError * World :=
  match pngEncode m with
  | Some data => (None, fileWrite name data w)
  | None => (Some ErrEncode, w)
  end.

(** [EncodeGrayscale4bit]: the header and directory entry of an .ico file
    with one 16x16 image of 4 bits, followed by the image as PNG. *)
Definition EncodeGrayscale4bit (name : string) (im : Image) (w : World)
  : option GoError * World :=
  let m := toGray im in
  match pngEncode m with
  | None => (Some ErrEncode, w)
  | Some png =>
    let header := le16 0 ++ le16 1 ++ le16 1 in
    let entry := [16; 16; 0; 0] ++ le16 1 ++ le16 4 ++ le32 (len png) ++ le32 22 in
    (None, fileWrite name png (fileWrite name (header ++ entry) w))
  end.

(** [WriteFavicon] converts the textual representation to an image file. *)
Definition errOnlyGray4 : string :=
  "saving .ico files is only implemented for 4-bit grayscale images".

Definition WriteFavicon (mode_ : Mode) (text : list byte) (filename : string)
    (asOther : bool) (w : World) : option GoError * World :=
  if bool_decide (mode_ ≠ modeGray4) then (Some (ErrNew errOnlyGray4), w)
  else
    let m := drawRows (GoLib.Split text 10) 0 ∅ in
    if asOther && GoLib.HasSuffixS filename ".ico" then
      let filename := GoLib.ReplaceFirstS filename ".ico" ".png" in
      match osCreate filename w with
      | inl err => (Some err, w)
      | inr w1 => pngEncodeTo filename m w1
      end
    else if negb asOther && GoLib.HasSuffixS filename ".png" then
      match osCreate filename w with
      | inl err => (Some err, w)
      | inr w1 => pngEncodeTo filename m w1
      end
    else
      let filename :=
        if asOther && GoLib.HasSuffixS filename ".png"
        then GoLib.ReplaceFirstS filename ".png" ".ico"
        else filename in
      match osCreate filename w with
      | inl err => (Some err, w)
      | inr w1 => EncodeGrayscale4bit filename m w1
      end.

(** ** Saving and loading ([part_001]) *)

(** [String] returns the contents of the editor: every line below [Len],
    each followed by a newline. *)
Definition EditorString (e : Editor) : list byte :=
  flat_map (fun i => Line i e ++ [10]) (seqZ 0 (Len e)).

(** [Clear] removes all data from the editor. *)
Definition Clear (e : Editor) : Editor := set_changed true (set_lines ∅ e).

(** The inner loop of [Load]: the runes of one line are stored one by one. *)
Fixpoint setRunes (rs : list rune) (counter y : Z) (e : Editor) : Res Editor :=
  match rs with
  | [] => Done e
  | letter :: rest => e1 ← Set_ counter y letter e; setRunes rest (counter + 1) y e1
  end.

Fixpoint loadLines (datalines : list (list byte)) (y : Z) (e : Editor) : Res Editor :=
  match datalines with
  | [] => Done e
  | dataline :: rest => e1 ← setRunes (DecodeRunes dataline) 0 y e; loadLines rest (y + 1) e1
  end.

(** [Load] reads a file into the editor.  The result is the warning
    message, the error and the editor. *)
Definition Load (filename : string) (e : Editor) (w : World)
  : Res (string * option GoError * Editor) :=
  let fromImage (isPNG : bool) :=
    match readFavicon filename false isPNG w with
    | inl err => inl err
    | inr (mode_, data, message) => inr (message, data, set_drawMode true (set_mode mode_ e))
    end in
  let read :=
    if GoLib.HasSuffixS filename ".ico" then fromImage false
    else if GoLib.HasSuffixS filename ".png" then fromImage true
    else
      match ReadFile filename w with
      | inl err => inl err
      | inr data =>
        let data :=
          if GoLib.Contains data 13
          then GoLib.Replace (GoLib.Replace data [13; 10] [10]) [13] [10]
          else data in
        inr (EmptyString, data, e)
      end in
  match read with
  | inl err => Done (EmptyString, Some err, e)
  | inr (message, data, e1) =>
    let datalines := GoLib.Split data 10 in
    e2 ← loadLines datalines 0 (Clear e1);
    Done (message, None, set_changed false e2)
  end.

(** [Save] writes the editor to a file.  With an image file name the text
    goes through [WriteFavicon]; otherwise trailing white space is
    stripped, non-breaking spaces become spaces and one newline ends the
    file.  [Len] does not change while the lines are trimmed. *)
Definition trimAll (e : Editor) : Editor :=
  foldl (fun e i => TrimRight i e) e (seqZ 0 (Len e)).

Definition saveData (e : Editor) : list byte :=
  let data := GoLib.TrimRightFunc (EditorString e) IsSpace in
  let data := GoLib.Replace data [0xc2; 0xa0] [0x20] in
  data ++ [10].

Definition Save (filename : string) (asOther : bool) (e : Editor) (w : World)
  : option GoError * Editor * World :=
  if GoLib.HasSuffixS filename ".ico" || GoLib.HasSuffixS filename ".png" then
    let '(err, w1) := WriteFavicon (mode e) (EditorString e) filename asOther w in
    (err, e, w1)
  else
    let e1 := trimAll e in
    let data := saveData e1 in
    let e2 := set_changed false e1 in
    let '(err, w1) := WriteFile filename data w in
    (err, e2, w1).

End Codec.

(** ** The earlier editor ([editor.go])

    The same document model, with tab expansion in the coordinate mapping.
    Only what differs from [part_001] or is needed for the properties below
    is embedded. *)

Module EditorGo.

Record Position : Type := mkPosition {
  sx : Z;
  sy : Z;
  scroll : Z;
  savedX : Z
}.

Record Editor : Type := mkEditor {
  lines : Lines;
  drawMode : bool;
  changed : bool;
  spacesPerTab : Z;
  highlight : bool;
  insertMode : bool;
  pos : Position
}.

Definition set_lines (ls : Lines) (e : Editor) : Editor :=
  mkEditor ls (drawMode e) (changed e) (spacesPerTab e) (highlight e)
           (insertMode e) (pos e).
Definition set_changed (b : bool) (e : Editor) : Editor :=
  mkEditor (lines e) (drawMode e) b (spacesPerTab e) (highlight e)
           (insertMode e) (pos e).

(** [Get], as in [part_001]. *)
Definition Get (x y : Z) (e : Editor) : Res rune :=
  match lines e !! y with
  | None => Done 0x20
  | Some runes =>
    if len runes <=? x then Done 0x20
    else index runes x
  end.

(** [Len], as in [part_001]. *)
Definition Len (e : Editor) : Z := maxKey (lines e) + 1.

(** The loop of [TrimSpaceRight], [for x := lastIndex; x > 0; x--]:
    index 0 is not looked at. *)
Fixpoint lastNonSpaceAbove0 (l : list rune) (x : nat) (lastIndex : Z) : Z :=
  match x with
  | O => lastIndex
  | S x' => if negb (IsSpace (nth x l 0)) then Z.of_nat x
            else lastNonSpaceAbove0 l x' lastIndex
  end.

Definition trimSpaceRightLine (l : list rune) : list rune :=
  let lastIndex := lastNonSpaceAbove0 l (Z.to_nat (len l - 1)) (len l - 1) in
  take (Z.to_nat (lastIndex + 1)) l.

(** [TrimSpaceRight] removes spaces from the end of the given line. *)
Definition TrimSpaceRight (n : Z) (e : Editor) : Editor :=
  match lines e !! n with
  | None => e
  | Some l => set_changed true (set_lines (<[n := trimSpaceRightLine l]> (lines e)) e)
  end.

Definition DataY (e : Editor) : Z := scroll (pos e) + sy (pos e).

(** The loop of [DataX]: a tab takes [spacesPerTab] screen columns. *)
Fixpoint dataXLoop (spt : Z) (l : list rune) (sx0 screenCounter runeCounter : Z)
  : Z * bool :=
  match l with
  | [] => (runeCounter, false)
  | r :: t =>
    if screenCounter =? sx0 then (runeCounter, true)
    else dataXLoop spt t sx0
           (if r =? 9 then screenCounter + spt else screenCounter + 1)
           (runeCounter + 1)
  end.

Definition DataX (e : Editor) : Z * option string :=
  let dataY := scroll (pos e) + sy (pos e) in
  let '(runeCounter, found) :=
    dataXLoop (spacesPerTab e) (lineAt (lines e) dataY) (sx (pos e)) 0 0 in
  if found then (runeCounter, None) else (runeCounter, Some errAfterData).

(** [MakeConsistent] fills the missing lines; it is an error when the key
    [len(e.lines)] is present afterwards. *)
Fixpoint makeConsistentLoop (fuel : nat) (i : Z) (e : Editor) : Res Editor :=
  match fuel with
  | O => OutOfFuel
  | S f =>
    if i <? Z.of_nat (size (lines e)) then
      match lines e !! i with
      | None => makeConsistentLoop f (i + 1)
                  (set_changed true (set_lines (<[i := []]> (lines e)) e))
      | Some _ => makeConsistentLoop f (i + 1) e
      end
    else Done e
  end.

Definition MakeConsistent (fuel : nat) (e : Editor) : Res (option string * Editor) :=
  e1 ← makeConsistentLoop fuel 0 e;
  match lines e1 !! Z.of_nat (size (lines e1)) with
  | Some _ => Done (Some "line number should not be there"%string, e1)
  | None => Done (None, e1)
  end.

(** The callers of [MakeConsistent] panic on its error. *)
Definition consistentOrPanic (fuel : nat) (e : Editor) : Res Editor :=
  r ← MakeConsistent fuel e;
  match fst r with
  | Some _ => Panic
  | None => Done (snd r)
  end.

(** [DeleteLine] *)
Definition DeleteLine (fuel : nat) (n : Z) (e : Editor) : Res Editor :=
  if Len e - 1 <=? n then Done (set_lines (delete n (lines e)) e)
  else
    let '(maxIndex, found) := maxIndexOf (lines e) in
    if negb found then Done e
    else match lines e !! maxIndex with
         | None => Done e
         | Some _ =>
           let ls := shiftUp (Z.to_nat (maxIndex - n)) n (lines e) in
           e1 ← consistentOrPanic fuel (set_lines (delete maxIndex ls) e);
           Done (set_changed true e1)
         end.

(** [Delete] *)
Definition Delete (fuel : nat) (e : Editor) : Res Editor :=
  let y := DataY e in
  let l := lineAt (lines e) y in
  if bool_decide (lines e !! y = None) || (len l =? 0)
     || ((len l =? 1) && IsSpace (nth 0 l 0))
  then e1 ← DeleteLine fuel y e; Done (set_changed true e1)
  else
    let '(x, err) := DataX e in
    if bool_decide (err ≠ None) || (len l - 1 <=? x) then
      cut ← sliceTo l x;
      let e1 := set_lines (<[y := cut]> (lines e)) e in
      match lines e1 !! (y + 1) with
      | Some nextLine =>
        if 0 <? len nextLine then
          let e2 := set_lines (<[y := cut ++ nextLine]> (lines e1)) e1 in
          e3 ← DeleteLine fuel (y + 1) e2;
          Done (set_changed true e3)
        else Done (set_changed true e1)
      | None => Done (set_changed true e1)
      end
    else
      left ← sliceTo l x;
      right ← sliceFrom l (x + 1);
      e1 ← consistentOrPanic fuel (set_lines (<[y := left ++ right]> (lines e)) e);
      Done (set_changed true e1).

End EditorGo.

(** * The vocabulary of the properties

    Predicates and functions the statements below use, and the documents of
    the examples. *)

(** ** Density

    [keysAre ls n]: the keys of the map are exactly 0..n-1.  [dense]: they
    are exactly 0..n-1 for the n lines stored.  [denseBelowLen] is the
    invariant in terms of [Len]: every index below [Len] has an entry. *)

Definition keysAre (ls : Lines) (n : Z) : Prop := ∀ k, is_Some (ls !! k) ↔ 0 ≤ k < n.
Definition dense (ls : Lines) : Prop := keysAre ls (Z.of_nat (size ls)).
Definition denseBelowLen (e : Editor) : Prop :=
  ∀ y, 0 ≤ y < Len e → is_Some (lines e !! y).

(** No line is stored under a negative index. *)
Definition nonNegative (ls : Lines) : Prop := ∀ k, is_Some (ls !! k) → 0 ≤ k.

(** What [insertBlankAfter y m] holds at key [j]. *)
Definition blankAfterSpec (y : Z) (m : Lines) (j : Z) : option (list rune) :=
  if j <? y then m !! j
  else if j =? y then m !! y
  else if j =? y + 1 then (match m !! y with Some _ => Some [] | None => None end)
  else m !! (j - 1).

(** ** Text *)







(** Does the line hold a rune that is not white space? *)
Definition hasContent (l : list rune) : bool := existsb (fun r => negb (IsSpace r)) l.




(** A text with its line endings made those of UNIX: "\r\n" and a lone
    "\r" both become "\n".  [crlfToLf] and [crToLf] are the two passes in
    which [Load] does it. *)
Fixpoint unixEndings (s : list byte) : list byte :=
  match s with
  | [] => []
  | b :: t =>
    if b =? 13 then
      match t with
      | b2 :: t2 => if b2 =? 10 then 10 :: unixEndings t2 else 10 :: unixEndings t
      | [] => [10]
      end
    else b :: unixEndings t
  end.

Fixpoint crlfToLf (s : list byte) : list byte :=
  match s with
  | [] => []
  | b :: t =>
    match t with
    | b2 :: t2 => if (b =? 13) && (b2 =? 10) then 10 :: crlfToLf t2 else b :: crlfToLf t
    | [] => [b]
    end
  end.

Definition crToLf (b : byte) : byte := if b =? 13 then 10 else b.

(** ** Images *)

(** The colour [WriteFavicon] gives the pixel in column [x] of a row of
    text: the rune at index [2 * x] decides. *)
Definition pixelOf (runes : list rune) (x : Z) : Color :=
  match runes !! Z.to_nat (2 * x) with
  | None => (255, 255, 255, 0)
  | Some r =>
    if r =? 84 then (0, 0, 0, 0)
    else (16 * lookupRunes r + 15, 16 * lookupRunes r + 15, 16 * lookupRunes r + 15, 255)
  end.

(** The image [WriteFavicon] draws from a text: at most 16 rows of 16
    pixels, one row per line of the text. *)
Definition drawn (text : list byte) (m : Image) : Prop :=
  ∀ x y, m !! (x, y)
         = if decide (0 ≤ y < 16 ∧ 0 ≤ x < 16)
           then match GoLib.Split text 10 !! Z.to_nat y with
                | Some line => Some (pixelOf (DecodeRunes line) x)
                | None => None
                end
           else None.

(** The value of a little endian byte string. *)
Definition fromLE (bs : list byte) : Z := foldr (fun b acc => b + 256 * acc) 0 bs.

(** ** Editors and documents of the examples *)

(** A text mode editor of [part_001] with the cursor at screen column [x]
    and row [y], not scrolled, with the default limit 99 or the limit
    [wrap]; and an editor of [editor.go]. *)
Definition editorWith (ls : Lines) (wrap x y : Z) : Editor :=
  mkEditor ls false false (mkPosition x y 0 0) false false wrap modeBlank.
Definition editorOf (ls : Lines) (x y : Z) : Editor := editorWith ls 99 x y.
Definition editorGoOf (ls : Lines) (x y : Z) : EditorGo.Editor :=
  EditorGo.mkEditor ls false false 4 false true (EditorGo.mkPosition x y 0 0).

(** A codec that fails on every image. *)
Definition nullCodec : ImageCodec :=
  Build_ImageCodec (fun _ => None) (fun m => m) (fun _ _ _ _ => inl ErrEncode).

(** "a" and "b" at the indices 0 and 2; "abc"; "ab", "cd"; " "; "a  ". *)
Definition twoLineDoc : Lines := <[0 := [97]]> (<[2 := [98]]> ∅).
Definition abcDoc : Lines := <[0 := [97; 98; 99]]> ∅.
Definition abcdDoc : Lines := <[0 := [97; 98]]> (<[1 := [99; 100]]> ∅).
Definition spaceDoc : Lines := <[0 := [32]]> ∅.
Definition aSpacesDoc : Lines := <[0 := [97; 32; 32]]> ∅.

(** "abcdef", ""; "a", nothing, "abcdef " (the indices 0 and 2, as [Load]
    stores "a\n\nabcdef "); "ab c de"; "a<U+00A0>b ". *)
Definition longWordDoc : Lines := <[0 := [97; 98; 99; 100; 101; 102]]> (<[1 := []]> ∅).
Definition gapDoc : Lines :=
  <[0 := [97]]> (<[2 := [97; 98; 99; 100; 101; 102; 32]]> ∅).
Definition spacedDoc : Lines := <[0 := [97; 98; 32; 99; 32; 100; 101]]> ∅.
Definition nbspDoc : Lines := <[0 := [97; 160; 98; 32]]> ∅.

(** "a", "  ", "b": a line of white space only between lines with contents. *)
Definition whiteLineDoc : Lines := <[0 := [97]]> (<[1 := [32; 32]]> (<[2 := [98]]> ∅)).

(** A codec whose PNG encoder writes the four bytes of the PNG signature's
    start for every image. *)
Definition stubCodec : ImageCodec :=
  Build_ImageCodec (fun _ => Some [137; 80; 78; 71]) (fun m => m)
                   (fun _ _ _ _ => inl ErrEncode).

(** "a" stored under the index -1. *)
Definition negDoc : Lines := <[-1 := [97]]> ∅.

(** * Properties *)

(** ** The number of lines *)

Lemma maxKey_spec (ls : Lines) :
  0 ≤ maxKey ls ∧ (∀ k, is_Some (ls !! k) → k ≤ maxKey ls)
  ∧ (maxKey ls = 0 ∨ is_Some (ls !! maxKey ls)).
Proof.
  unfold maxKey.
  apply (map_fold_weak_ind
           (fun r (m : Lines) => 0 ≤ r ∧ (∀ k, is_Some (m !! k) → k ≤ r)
                                 ∧ (r = 0 ∨ is_Some (m !! r)))).
  - split; [lia|]. split; [|by left].
    intros k [x Hx]. by rewrite lookup_empty in Hx.
  - intros i x m r Hi (H0 & Hub & Hin).
    destruct (Z.ltb_spec r i).
    + split; [lia|]. split.
      * intros k Hk. destruct (decide (k = i)) as [->|Hne]; [lia|].
        rewrite lookup_insert_ne in Hk by done. specialize (Hub k Hk). lia.
      * right. rewrite lookup_insert_eq. eauto.
    + split; [lia|]. split.
      * intros k Hk. destruct (decide (k = i)) as [->|Hne]; [lia|].
        rewrite lookup_insert_ne in Hk by done. auto.
      * destruct Hin as [->|Hin]; [by left|right].
        destruct (decide (r = i)) as [->|Hne].
        -- rewrite lookup_insert_eq. eauto.
        -- by rewrite lookup_insert_ne.
Qed.

Lemma maxKey_unique (ls : Lines) (m : Z) :
  0 ≤ m → (∀ k, is_Some (ls !! k) → k ≤ m) → (m = 0 ∨ is_Some (ls !! m)) →
  maxKey ls = m.
Proof.
  intros H0 Hub Hin. destruct (maxKey_spec ls) as (H0' & Hub' & Hin').
  destruct Hin as [->|Hin], Hin' as [Heq|Hin']; try lia.
  - specialize (Hub _ Hin'). lia.
  - specialize (Hub' _ Hin). lia.
  - specialize (Hub _ Hin'). specialize (Hub' _ Hin). lia.
Qed.

Lemma maxKey_empty : maxKey ∅ = 0.
Proof. apply maxKey_unique; [lia| |by left]. intros k [x Hx]. by rewrite lookup_empty in Hx. Qed.

Lemma maxKey_highest (ls : Lines) (m : Z) :
  0 ≤ m → is_Some (ls !! m) → (∀ k, is_Some (ls !! k) → k ≤ m) → maxKey ls = m.
Proof. intros. apply maxKey_unique; auto. Qed.

Lemma maxIndexOf_spec (ls : Lines) :
  fst (maxIndexOf ls) = maxKey ls ∧ (snd (maxIndexOf ls) = true ↔ 0 < maxKey ls).
Proof.
  assert (0 ≤ fst (maxIndexOf ls)
          ∧ (∀ k, is_Some (ls !! k) → k ≤ fst (maxIndexOf ls))
          ∧ (fst (maxIndexOf ls) = 0 ∨ is_Some (ls !! fst (maxIndexOf ls)))
          ∧ (snd (maxIndexOf ls) = true ↔ 0 < fst (maxIndexOf ls))) as (H0 & Hub & Hin & Hfd).
  { unfold maxIndexOf.
    apply (map_fold_weak_ind
             (fun (r : Z * bool) (m : Lines) =>
                0 ≤ fst r ∧ (∀ k, is_Some (m !! k) → k ≤ fst r)
                ∧ (fst r = 0 ∨ is_Some (m !! fst r))
                ∧ (snd r = true ↔ 0 < fst r))).
    - simpl. split; [lia|]. split; [|split; [by left|]].
      + intros k [x Hx]. by rewrite lookup_empty in Hx.
      + split; [discriminate|lia].
    - intros i x m [r fd] Hi (H0 & Hub & Hin & Hfd). simpl in *.
      destruct (Z.ltb_spec r i); simpl.
      + split; [lia|]. split; [|split].
        * intros k Hk. destruct (decide (k = i)) as [->|Hne]; [lia|].
          rewrite lookup_insert_ne in Hk by done. specialize (Hub k Hk). lia.
        * right. rewrite lookup_insert_eq. eauto.
        * split; [lia|done].
      + split; [lia|]. split; [|split; [|done]].
        * intros k Hk. destruct (decide (k = i)) as [->|Hne]; [lia|].
          rewrite lookup_insert_ne in Hk by done. auto.
        * destruct Hin as [->|Hin]; [by left|right].
          destruct (decide (r = i)) as [->|Hne].
          -- rewrite lookup_insert_eq. eauto.
          -- by rewrite lookup_insert_ne. }
  assert (maxKey ls = fst (maxIndexOf ls)) as Heq by (by apply maxKey_unique).
  rewrite Heq. split; [done|exact Hfd].
Qed.

(** C7, as stated, fails: a document with no lines has length 1, not 0, in
    both versions of the editor. *)
Lemma Len_no_lines_counterexample :
  lines (NewEditor true modeBlank) = ∅
  ∧ Len (NewEditor true modeBlank) ≠ 0
  ∧ EditorGo.Len (EditorGo.mkEditor ∅ false false 4 false true
                                    (EditorGo.mkPosition 0 0 0 0)) ≠ 0.
Proof.
  split; [reflexivity|]. unfold Len, EditorGo.Len. simpl.
  rewrite maxKey_empty. split; discriminate.
Qed.

(** C7, amended: [Len] returns the highest present line index plus one when
    a line with a non-negative index is present, and 1 for a document with
    no lines ([part_001] and [editor.go] alike). *)
Theorem Len_highest_index (ls : Lines) (e : Editor) (g : EditorGo.Editor) :
  lines e = ls → EditorGo.lines g = ls →
  (ls = ∅ → Len e = 1 ∧ EditorGo.Len g = 1)
  ∧ (∀ m, 0 ≤ m → is_Some (ls !! m) → (∀ k, is_Some (ls !! k) → k ≤ m) →
          Len e = m + 1 ∧ EditorGo.Len g = m + 1).
Proof.
  intros He Hg. unfold Len, EditorGo.Len. rewrite He, Hg. split.
  - intros ->. rewrite maxKey_empty. done.
  - intros m H0 Hm Hub. rewrite (maxKey_highest ls m) by done. done.
Qed.

Lemma Len_highest_index_witness :
  Len (editorOf twoLineDoc 0 0) = 3 ∧ EditorGo.Len (editorGoOf twoLineDoc 0 0) = 3.
Proof.
  apply (proj2 (Len_highest_index twoLineDoc (editorOf twoLineDoc 0 0)
                  (editorGoOf twoLineDoc 0 0) eq_refl eq_refl) 2).
  - lia.
  - unfold twoLineDoc. rewrite lookup_insert_ne by lia. rewrite lookup_insert_eq. eauto.
  - intros k [x Hx]. unfold twoLineDoc in Hx.
    destruct (decide (k = 0)) as [->|?]; [lia|].
    destruct (decide (k = 2)) as [->|?]; [lia|].
    rewrite !lookup_insert_ne, lookup_empty in Hx by done. discriminate.
Defined.

(** ** Reading a rune *)

Lemma index_in_range {A : Type} (l : list A) (x : Z) :
  0 ≤ x → x < len l → ∃ a, l !! Z.to_nat x = Some a ∧ index l x = Done a.
Proof.
  intros H0 Hlt. unfold index, len in *.
  destruct (Z.ltb_spec x 0); [lia|].
  destruct (l !! Z.to_nat x) as [a|] eqn:Hl; [eauto|].
  apply lookup_ge_None in Hl. lia.
Qed.

(** C8: [Get] is total for a non-negative column: it returns a space when
    line [y] is absent or [x] is at or past its length, and the rune stored
    at column [x] of line [y] otherwise; it never panics ([part_001] and
    [editor.go] alike). *)
Theorem Get_total (x y : Z) (ls : Lines) (e : Editor) (g : EditorGo.Editor) :
  0 ≤ x → lines e = ls → EditorGo.lines g = ls →
  ((ls !! y = None ∨ (∃ l, ls !! y = Some l ∧ len l ≤ x)) →
     Get x y e = Done 32 ∧ EditorGo.Get x y g = Done 32)
  ∧ (∀ l, ls !! y = Some l → x < len l →
       ∃ r, l !! Z.to_nat x = Some r ∧ Get x y e = Done r ∧ EditorGo.Get x y g = Done r).
Proof.
  intros H0 He Hg. unfold Get, EditorGo.Get. rewrite He, Hg. split.
  - intros [->|(l & -> & Hl)]; [done|].
    destruct (Z.leb_spec (len l) x); [done|lia].
  - intros l -> Hlt. destruct (Z.leb_spec (len l) x); [lia|].
    destruct (index_in_range l x H0 Hlt) as (r & Hr & ->). eauto.
Qed.

Lemma Get_total_witness :
  Get 0 0 (editorOf twoLineDoc 0 0) = Done 97
  ∧ Get 5 1 (editorOf twoLineDoc 0 0) = Done 32.
Proof.
  split.
  - destruct (proj2 (Get_total 0 0 twoLineDoc (editorOf twoLineDoc 0 0)
                       (editorGoOf twoLineDoc 0 0) ltac:(lia) eq_refl eq_refl)
                    [97] eq_refl ltac:(reflexivity))
      as (r & Hr & Hget & _).
    simpl in Hr. injection Hr as <-. exact Hget.
  - apply (proj1 (Get_total 5 1 twoLineDoc (editorOf twoLineDoc 0 0)
                    (editorGoOf twoLineDoc 0 0) ltac:(lia) eq_refl eq_refl)).
    left. reflexivity.
Defined.

(** ** Screen column to data column *)

Lemma dataXLoop_found (l : list rune) (sx0 sc rc : Z) :
  sc ≤ sx0 → sx0 - sc < len l → dataXLoop l sx0 sc rc = (rc + (sx0 - sc), true).
Proof.
  revert sc rc. induction l as [|r t IH]; intros sc rc Hle Hlt; unfold len in *; simpl in *.
  - lia.
  - destruct (Z.eqb_spec sc sx0) as [->|Hne].
    + f_equal. lia.
    + rewrite IH by lia. f_equal. lia.
Qed.

Lemma dataXLoop_past (l : list rune) (sx0 sc rc : Z) :
  sc ≤ sx0 → len l ≤ sx0 - sc → dataXLoop l sx0 sc rc = (rc + len l, false).
Proof.
  revert sc rc. induction l as [|r t IH]; intros sc rc Hle Hlt; unfold len in *; simpl in *.
  - f_equal. lia.
  - destruct (Z.eqb_spec sc sx0) as [->|Hne]; [lia|].
    rewrite IH by lia. f_equal. lia.
Qed.

Lemma dataXLoop_no_tabs (spt : Z) (l : list rune) (sx0 sc rc : Z) :
  Forall (fun r => r ≠ 9) l →
  EditorGo.dataXLoop spt l sx0 sc rc = dataXLoop l sx0 sc rc.
Proof.
  intros Hl. revert sc rc. induction Hl as [|r t Hr Ht IH]; intros sc rc; simpl; [done|].
  destruct (Z.eqb_spec sc sx0); [done|].
  destruct (Z.eqb_spec r 9); [done|]. apply IH.
Qed.

(** C6: in text mode, on a row without tabs, [DataX] maps a screen column
    below the length of the line to itself, with no error, and a screen
    column at or past the length to the error "position is after data"
    together with the length of the line ([part_001] and [editor.go]). *)
Theorem DataX_text_mode (e : Editor) (g : EditorGo.Editor) (l : list rune) (col : Z) :
  drawMode e = false →
  lineAt (lines e) (DataY e) = l →
  lineAt (EditorGo.lines g) (EditorGo.DataY g) = l →
  Forall (fun r => r ≠ 9) l →
  sx (pos e) = col → EditorGo.sx (EditorGo.pos g) = col → 0 ≤ col →
  (col < len l → DataX e = (col, None) ∧ EditorGo.DataX g = (col, None))
  ∧ (len l ≤ col →
       DataX e = (len l, Some errAfterData)
       ∧ EditorGo.DataX g = (len l, Some errAfterData)).
Proof.
  intros Hmode He Hg Htabs Hsx Hgx H0.
  unfold DataX, EditorGo.DataX, DataY, EditorGo.DataY in *.
  rewrite Hmode in *. rewrite He, Hg, Hsx, Hgx.
  rewrite dataXLoop_no_tabs by done. split; intros Hcol.
  - rewrite dataXLoop_found by lia.
    replace (0 + (col - 0)) with col by lia. done.
  - rewrite dataXLoop_past by lia. done.
Qed.

Lemma DataX_text_mode_witness :
  DataX (editorOf abcDoc 1 0) = (1, None)
  ∧ EditorGo.DataX (editorGoOf abcDoc 1 0) = (1, None).
Proof.
  apply (proj1 (DataX_text_mode (editorOf abcDoc 1 0) (editorGoOf abcDoc 1 0)
                  [97; 98; 99] 1 eq_refl eq_refl eq_refl
                  ltac:(repeat constructor; discriminate) eq_refl eq_refl ltac:(lia))).
  reflexivity.
Defined.

(** ** Deleting at the end of a line *)

(** C3: in the document ["ab"; "cd"], with the cursor at the end of line 0
    (where [End] puts it, column 2), [Delete] joins the lines into the
    document ["abcd"] of length 1; in the document ["abc"], with the cursor
    at column 3 and no following line, [Delete] leaves the line as it is and
    removes no line ([part_001] and [editor.go]). *)
Theorem Delete_at_end_of_line (fuel : nat) :
  sx (pos (End (editorOf abcdDoc 0 0))) = 2
  ∧ (∃ e', Delete fuel (End (editorOf abcdDoc 0 0)) = Done e'
           ∧ lines e' = <[0 := [97; 98; 99; 100]]> ∅ ∧ Len e' = 1)
  ∧ (∃ e', Delete fuel (editorOf abcDoc 3 0) = Done e'
           ∧ lines e' = abcDoc ∧ Len e' = 1)
  ∧ (∃ g', EditorGo.Delete fuel (editorGoOf abcdDoc 2 0) = Done g'
           ∧ EditorGo.lines g' = <[0 := [97; 98; 99; 100]]> ∅ ∧ EditorGo.Len g' = 1)
  ∧ (∃ g', EditorGo.Delete fuel (editorGoOf abcDoc 3 0) = Done g'
           ∧ EditorGo.lines g' = abcDoc ∧ EditorGo.Len g' = 1).
Proof.
  split; [vm_compute; reflexivity|].
  repeat split; eexists; (split; [vm_compute; reflexivity|]);
    split; vm_compute; reflexivity.
Qed.

(** ** Trimming trailing white space *)

Lemma lastNonSpace_all_space (l : list rune) (k : nat) (lastIndex : Z) :
  (∀ i, (i < k)%nat → IsSpace (nth i l 0) = true) →
  lastNonSpace l k lastIndex = lastIndex.
Proof.
  induction k as [|k IH]; intros Hsp; simpl; [done|].
  rewrite (Hsp k) by lia. simpl. apply IH. intros i Hi. apply Hsp. lia.
Qed.

Lemma lastNonSpace_found (p ws : list rune) (c : rune) (lastIndex : Z) :
  IsSpace c = false → Forall (fun r => IsSpace r = true) ws →
  lastNonSpace (p ++ c :: ws) (length (p ++ c :: ws)) lastIndex = Z.of_nat (length p).
Proof.
  intros Hc Hws.
  assert (∀ n, (n ≤ length ws)%nat →
               lastNonSpace (p ++ c :: ws) (S (length p + n)) lastIndex
               = Z.of_nat (length p)) as Hn.
  { induction n as [|n IH]; intros Hle; simpl.
    - rewrite Nat.add_0_r. rewrite app_nth2 by lia.
      rewrite Nat.sub_diag. simpl. by rewrite Hc.
    - rewrite app_nth2 by lia.
      replace (length p + S n - length p)%nat with (S n) by lia. simpl.
      destruct (ws !! n) as [r|] eqn:Hr.
      + rewrite (nth_lookup_Some _ _ _ _ Hr).
        rewrite (proj1 (Forall_lookup _ _) Hws n r Hr). simpl.
        replace (length p + S n)%nat with (S (length p + n)) by lia.
        apply IH. lia.
      + apply lookup_ge_None in Hr. lia. }
  rewrite length_app. simpl.
  replace (length p + S (length ws))%nat with (S (length p + length ws)) by lia.
  by apply Hn.
Qed.

(** A line with a rune that is not white space loses exactly its trailing
    white space. *)
Lemma trimRightLine_trims (p ws : list rune) (c : rune) :
  IsSpace c = false → Forall (fun r => IsSpace r = true) ws →
  trimRightLine (p ++ c :: ws) = p ++ [c].
Proof.
  intros Hc Hws. unfold trimRightLine. rewrite lastNonSpace_found by done.
  replace (Z.to_nat (Z.of_nat (length p) + 1)) with (length (p ++ [c]))
    by (rewrite length_app; simpl; lia).
  replace (p ++ c :: ws) with ((p ++ [c]) ++ ws) by (by rewrite <- app_assoc).
  by rewrite take_app_length.
Qed.

(** A line of white space only is left as it is: the loop finds no rune to
    stop at and [lastIndex] keeps its initial value. *)
Lemma trimRightLine_white_line (l : list rune) :
  Forall (fun r => IsSpace r = true) l → trimRightLine l = l.
Proof.
  intros Hl. unfold trimRightLine. rewrite lastNonSpace_all_space.
  - unfold len. replace (Z.to_nat (Z.of_nat (length l) - 1 + 1)) with (length l) by lia.
    apply firstn_all.
  - intros i Hi. destruct (l !! i) as [r|] eqn:Hr.
    + rewrite (nth_lookup_Some _ _ _ _ Hr). exact (proj1 (Forall_lookup _ _) Hl i r Hr).
    + apply lookup_ge_None in Hr. lia.
Qed.

(** The entry of the line stays in the map. *)
Lemma TrimRight_keeps_entry (n k : Z) (e : Editor) :
  is_Some (lines (TrimRight n e) !! k) ↔ is_Some (lines e !! k).
Proof.
  unfold TrimRight. destruct (lines e !! n) as [l|] eqn:Hn; [|done]. simpl.
  destruct (decide (k = n)) as [->|Hne].
  - rewrite lookup_insert_eq, Hn. split; eauto.
  - by rewrite lookup_insert_ne.
Qed.

Lemma TrimRight_lookup (n : Z) (e : Editor) (l : list rune) :
  lines e !! n = Some l → lines (TrimRight n e) !! n = Some (trimRightLine l).
Proof. intros Hn. unfold TrimRight. rewrite Hn. simpl. by rewrite lookup_insert_eq. Qed.

Lemma TrimRight_lookup_ne (n k : Z) (e : Editor) :
  k ≠ n → lines (TrimRight n e) !! k = lines e !! k.
Proof.
  intros Hne. unfold TrimRight. destruct (lines e !! n); [|done].
  simpl. by rewrite lookup_insert_ne.
Qed.

(** C9 at its failing input: a line that is a single space keeps its
    length 1 under [TrimRight] (and under [TrimSpaceRight] of [editor.go],
    which does not trim "a  " either); the entry is kept. *)
Theorem TrimRight_single_space :
  lines (TrimRight 0 (editorOf spaceDoc 0 0)) !! 0 = Some [32]
  ∧ EditorGo.lines (EditorGo.TrimSpaceRight 0 (editorGoOf spaceDoc 0 0)) !! 0 = Some [32]
  ∧ EditorGo.lines (EditorGo.TrimSpaceRight 0 (editorGoOf aSpacesDoc 0 0)) !! 0
    = Some [97; 32; 32].
Proof. repeat split; vm_compute; reflexivity. Qed.

(** ** Writing an icon *)

(** C10: for every mode other than [modeGray4], [WriteFavicon] returns its
    error and leaves the file system as it was: no file is created or
    written, whatever the text, the file name and [asOther]. *)
Theorem WriteFavicon_only_gray4 `{ImageCodec} (mode_ : Mode) (text : list byte)
    (filename : string) (asOther : bool) (w : World) :
  mode_ ≠ modeGray4 →
  WriteFavicon mode_ text filename asOther w = (Some (ErrNew errOnlyGray4), w).
Proof.
  intros Hmode. unfold WriteFavicon. by rewrite bool_decide_eq_true_2.
Qed.

Lemma WriteFavicon_only_gray4_witness :
  @WriteFavicon (Build_ImageCodec (fun _ => None) (fun m => m) (fun _ _ _ _ => inl ErrEncode))
                modeRGB [] "icon.ico" false (mkWorld ∅ ∅ [])
  = (Some (ErrNew errOnlyGray4), mkWorld ∅ ∅ []).
Proof.
  apply (@WriteFavicon_only_gray4
           (Build_ImageCodec (fun _ => None) (fun m => m) (fun _ _ _ _ => inl ErrEncode))
           modeRGB [] "icon.ico" false (mkWorld ∅ ∅ [])).
  discriminate.
Defined.

(** ** Density of the line indices *)

Lemma keysAre_size (ls : Lines) (n : Z) :
  0 ≤ n → keysAre ls n → Z.of_nat (size ls) = n.
Proof.
  intros Hn. rewrite <- (Z2Nat.id n Hn). generalize (Z.to_nat n) as m. clear n Hn.
  intros m. revert ls. induction m as [|m IH]; intros ls Hk.
  - assert (ls = ∅) as ->.
    { apply map_empty. intros i. apply eq_None_not_Some. intros Hi. apply Hk in Hi. lia. }
    by rewrite map_size_empty.
  - assert (is_Some (ls !! Z.of_nat m)) as Hm by (apply Hk; lia).
    assert (keysAre (delete (Z.of_nat m) ls) (Z.of_nat m)) as Hd.
    { intros k. destruct (decide (k = Z.of_nat m)) as [->|Hne].
      - rewrite lookup_delete_eq. split; [intros [? ?]; done|lia].
      - rewrite lookup_delete_ne by done. rewrite (Hk k). lia. }
    apply IH in Hd. rewrite map_size_delete_Some in Hd by done.
    assert (size ls ≠ 0%nat) by (by eapply map_size_ne_0_lookup_2). lia.
Qed.

Lemma keysAre_dense (ls : Lines) (n : Z) : 0 ≤ n → keysAre ls n → dense ls.
Proof. intros Hn Hk. unfold dense. by rewrite (keysAre_size ls n). Qed.

Lemma keysAre_maxKey (ls : Lines) (n : Z) : 1 ≤ n → keysAre ls n → maxKey ls = n - 1.
Proof.
  intros Hn Hk. apply maxKey_highest; [lia|apply Hk; lia|].
  intros k Hs. apply Hk in Hs. lia.
Qed.

Lemma keysAre_denseBelowLen (e : Editor) (n : Z) :
  1 ≤ n → keysAre (lines e) n → denseBelowLen e.
Proof.
  intros Hn Hk y Hy. unfold Len in Hy. rewrite (keysAre_maxKey _ n) in Hy by done.
  apply Hk. lia.
Qed.

(** MakeConsistent on a dense document *)
Lemma makeConsistentLoop_dense (fuel : nat) (i : Z) (e : Editor) :
  dense (lines e) → 0 ≤ i →
  (Z.to_nat (Z.of_nat (size (lines e)) - i) < fuel)%nat →
  makeConsistentLoop fuel i e = Done e.
Proof.
  intros Hd. revert i. induction fuel as [|fuel IH]; intros i Hi Hf; [lia|].
  simpl. destruct (Z.ltb_spec i (Z.of_nat (size (lines e)))) as [Hlt|Hge]; [|done].
  destruct (lines e !! i) eqn:Hl.
  - apply IH; lia.
  - assert (is_Some (lines e !! i)) as [? ?] by (apply Hd; lia). congruence.
Qed.

Lemma MakeConsistent_dense (fuel : nat) (e : Editor) :
  dense (lines e) → (size (lines e) < fuel)%nat → MakeConsistent fuel e = Done e.
Proof. intros. apply makeConsistentLoop_dense; [done|lia|lia]. Qed.

Lemma insertBlankAfter_lookup (y : Z) (ls : Lines) (j : Z) :
  insertBlankAfter y ls !! j = blankAfterSpec y ls j.
Proof.
  unfold insertBlankAfter. revert j.
  apply (map_fold_weak_ind
           (fun (r : Lines) (m : Lines) => ∀ j, r !! j = blankAfterSpec y m j)).
  - intros j. unfold blankAfterSpec. rewrite !lookup_empty.
    repeat case_match; done.
  - intros i x m r Hi IH j. unfold blankAfterSpec in *.
    destruct (Z.ltb_spec i y) as [Hiy|Hiy].
    + (* i < y *)
      destruct (decide (j = i)) as [->|Hne].
      * rewrite lookup_insert_eq. destruct (Z.ltb_spec i y); [|lia].
        by rewrite lookup_insert_eq.
      * rewrite lookup_insert_ne by done. rewrite IH.
        destruct (Z.ltb_spec j y).
        { by rewrite lookup_insert_ne. }
        destruct (Z.eqb_spec j y).
        { by rewrite lookup_insert_ne by lia. }
        destruct (Z.eqb_spec j (y + 1)).
        { by rewrite lookup_insert_ne by lia. }
        rewrite lookup_insert_ne by lia. done.
    + destruct (Z.eqb_spec i y) as [->|Hne'].
      * (* i = y *)
        destruct (Z.ltb_spec j y).
        { rewrite !lookup_insert_ne by lia. specialize (IH j).
          destruct (Z.ltb_spec j y); [|lia]. done. }
        destruct (Z.eqb_spec j y) as [->|?].
        { rewrite lookup_insert_ne by lia. by rewrite !lookup_insert_eq. }
        destruct (Z.eqb_spec j (y + 1)) as [->|?].
        { by rewrite !lookup_insert_eq. }
        rewrite !lookup_insert_ne by lia. specialize (IH j).
        destruct (Z.ltb_spec j y); [lia|].
        destruct (Z.eqb_spec j y); [lia|].
        destruct (Z.eqb_spec j (y + 1)); [lia|]. done.
      * (* i > y *)
        destruct (decide (j = i + 1)) as [->|Hne].
        { rewrite lookup_insert_eq.
          destruct (Z.ltb_spec (i + 1) y); [lia|].
          destruct (Z.eqb_spec (i + 1) y); [lia|].
          destruct (Z.eqb_spec (i + 1) (y + 1)); [lia|].
          replace (i + 1 - 1) with i by lia. by rewrite lookup_insert_eq. }
        rewrite lookup_insert_ne by done. rewrite IH.
        destruct (Z.ltb_spec j y).
        { by rewrite lookup_insert_ne by lia. }
        destruct (Z.eqb_spec j y).
        { by rewrite lookup_insert_ne by lia. }
        destruct (Z.eqb_spec j (y + 1)).
        { by rewrite lookup_insert_ne by lia. }
        rewrite lookup_insert_ne by lia. done.
Qed.

Lemma len_zero_nil {A} (l : list A) : (len l =? 0) = true → l = [].
Proof. unfold len. destruct l; [done|]. intros H%Z.eqb_eq. simpl in H. lia. Qed.

Lemma lineAt_absent (ls : Lines) (j : Z) : ls !! j = None → lineAt ls j = [].
Proof. unfold lineAt. by intros ->. Qed.

Lemma Line_lineAt (i : Z) (e : Editor) : Line i e = EncodeRunes (lineAt (lines e) i).
Proof. unfold Line, lineAt. by destruct (lines e !! i). Qed.

Lemma keysAre_absent (ls : Lines) (n j : Z) :
  keysAre ls n → ¬ (0 ≤ j < n) → ls !! j = None.
Proof. intros Hk Hj. apply eq_None_not_Some. intros Hs. apply Hk in Hs. lia. Qed.

Lemma keysAre_delete_last (ls : Lines) (n : Z) :
  keysAre ls n → keysAre (delete (n - 1) ls) (n - 1).
Proof.
  intros Hk k. destruct (decide (k = n - 1)) as [->|Hne].
  - rewrite lookup_delete_eq. split; [intros [? ?]; done|lia].
  - rewrite lookup_delete_ne by done. rewrite (Hk k). lia.
Qed.

Lemma skipTrailing_empty (k : nat) (y : Z) : skipTrailing k y (∅ : Lines) = ∅.
Proof.
  induction k as [|k IH]; [done|]. cbn [skipTrailing].
  unfold lineAt at 1. rewrite lookup_empty. simpl. by rewrite delete_empty.
Qed.

Lemma skipTrailing_keysAre (k : nat) (y : Z) (ls : Lines) (n : Z) :
  0 ≤ n → keysAre ls n → n - 1 ≤ y + Z.of_nat k →
  ∃ m, keysAre (skipTrailing k y ls) m ∧ 0 ≤ m ≤ n ∧ Z.min n (y + 1) ≤ m
       ∧ (∀ j, j < m → skipTrailing k y ls !! j = ls !! j)
       ∧ (∀ j, m ≤ j → lineAt ls j = []).
Proof.
  revert ls n. induction k as [|k IH]; intros ls n Hn Hk Hy.
  - exists n. simpl. split_and!; [done|lia|lia|lia|done|].
    intros j Hj. apply lineAt_absent. apply (keysAre_absent ls n); [done|lia].
  - cbn [skipTrailing]. set (i := y + Z.of_nat (S k)).
    destruct (len (lineAt ls i) =? 0) eqn:Hlen.
    + destruct (Z.ltb_spec i n) as [Hin|Hin].
      * (* i = n - 1 *)
        assert (i = n - 1) as Hi by lia.
        destruct (decide (n = 0)) as [->|Hn0].
        { (* the empty document *)
          assert (ls = ∅) as ->.
          { apply map_empty. intros j. apply (keysAre_absent _ 0); [done|lia]. }
          rewrite delete_empty, skipTrailing_empty.
          exists 0. split_and!; [done|lia|lia|lia|done|].
          intros j _. apply lineAt_absent, lookup_empty. }
        rewrite Hi.
        destruct (IH (delete (n - 1) ls) (n - 1)) as (m & Hm & Hmn & Hmin & Hlk & Hemp);
          [lia|by apply keysAre_delete_last|lia|].
        exists m. split_and!; [done|lia|lia|lia| |].
        -- intros j Hj. rewrite Hlk by done. apply lookup_delete_ne. lia.
        -- intros j Hj. destruct (decide (j = n - 1)) as [->|Hne].
           ++ apply len_zero_nil. by rewrite <- Hi.
           ++ specialize (Hemp j Hj). unfold lineAt in *.
              by rewrite lookup_delete_ne in Hemp by done.
      * rewrite delete_id by (apply (keysAre_absent ls n); [done|lia]).
        destruct (IH ls n) as (m & Hm & Hmn & Hmin & Hlk & Hemp); [lia|done|lia|].
        exists m. split_and!; [done|lia|lia|lia|done|done].
    + exists n. split_and!; [done|lia|lia|lia|done|].
      intros j Hj. apply lineAt_absent. apply (keysAre_absent ls n); [done|lia].
Qed.

Lemma shiftUp_lookup (k : nat) (i : Z) (ls : Lines) (j : Z) :
  shiftUp k i ls !! j
  = if (i <=? j) && (j <? i + Z.of_nat k) then Some (lineAt ls (j + 1)) else ls !! j.
Proof.
  revert i ls. induction k as [|k IH]; intros i ls.
  - simpl. destruct (Z.leb_spec i j), (Z.ltb_spec j (i + Z.of_nat 0)); simpl; try done; lia.
  - cbn [shiftUp]. rewrite IH. destruct (decide (j = i)) as [->|Hji].
    + replace ((i + 1 <=? i) && (i <? i + 1 + Z.of_nat k)) with false
        by (symmetry; apply andb_false_iff; left; apply Z.leb_gt; lia).
      replace ((i <=? i) && (i <? i + Z.of_nat (S k))) with true
        by (symmetry; apply andb_true_iff; split; [apply Z.leb_le|apply Z.ltb_lt]; lia).
      by rewrite lookup_insert_eq.
    + rewrite lookup_insert_ne by done.
      destruct ((i + 1 <=? j) && (j <? i + 1 + Z.of_nat k)) eqn:Hc.
      * apply andb_true_iff in Hc as [H1%Z.leb_le H2%Z.ltb_lt].
        replace ((i <=? j) && (j <? i + Z.of_nat (S k))) with true
          by (symmetry; apply andb_true_iff; split; [apply Z.leb_le|apply Z.ltb_lt]; lia).
        f_equal. unfold lineAt. by rewrite lookup_insert_ne by lia.
      * replace ((i <=? j) && (j <? i + Z.of_nat (S k))) with false; [done|].
        symmetry. apply andb_false_iff. apply andb_false_iff in Hc as [H1%Z.leb_gt|H2%Z.ltb_ge].
        -- left. apply Z.leb_gt. lia.
        -- right. apply Z.ltb_ge. lia.
Qed.

Lemma insertBlankAfter_keysAre (y : Z) (ls : Lines) (n : Z) :
  keysAre ls n → 0 ≤ y < n → keysAre (insertBlankAfter y ls) (n + 1).
Proof.
  intros Hk Hy j. rewrite insertBlankAfter_lookup. unfold blankAfterSpec.
  destruct (Z.ltb_spec j y); [rewrite (Hk j); lia|].
  destruct (Z.eqb_spec j y) as [->|?]; [rewrite (Hk y); lia|].
  destruct (Z.eqb_spec j (y + 1)) as [->|?].
  - destruct (proj2 (Hk y) ltac:(lia)) as [l ->]. split; [lia|eauto].
  - rewrite (Hk (j - 1)). lia.
Qed.

Lemma insertBlankAfter_beyond (y : Z) (ls : Lines) (n : Z) :
  keysAre ls n → n ≤ y → insertBlankAfter y ls = ls.
Proof.
  intros Hk Hy. apply map_eq. intros j. rewrite insertBlankAfter_lookup.
  unfold blankAfterSpec.
  destruct (Z.ltb_spec j y); [done|].
  destruct (Z.eqb_spec j y) as [->|?]; [done|].
  rewrite (keysAre_absent ls n y) by (done || lia).
  rewrite (keysAre_absent ls n j) by (done || lia).
  destruct (Z.eqb_spec j (y + 1)); [done|].
  apply (keysAre_absent ls n); [done|lia].
Qed.

Lemma insertBlankAfter_before_start (ls : Lines) (n j : Z) :
  keysAre ls n →
  insertBlankAfter (-1) ls !! j = if j <=? 0 then None else ls !! (j - 1).
Proof.
  intros Hk. rewrite insertBlankAfter_lookup. unfold blankAfterSpec.
  destruct (Z.ltb_spec j (-1)).
  { destruct (Z.leb_spec j 0); [|lia]. apply (keysAre_absent ls n); [done|lia]. }
  destruct (Z.eqb_spec j (-1)) as [->|?].
  { simpl. apply (keysAre_absent ls n); [done|lia]. }
  destruct (Z.eqb_spec j (-1 + 1)) as [->|?].
  { simpl. by rewrite (keysAre_absent ls n (-1)) by (done || lia). }
  destruct (Z.leb_spec j 0); [lia|done].
Qed.

Lemma dense_keysAre (ls : Lines) : dense ls → keysAre ls (Z.of_nat (size ls)).
Proof. done. Qed.

(** [MakeConsistent] adds line 0 to a document whose lines are 1..n. *)
Lemma MakeConsistent_fills_first (fuel : nat) (e : Editor) (n : Z) :
  1 ≤ n → (∀ k, is_Some (lines e !! k) ↔ 1 ≤ k < n + 1) →
  (Z.to_nat n + 1 < fuel)%nat →
  MakeConsistent fuel e
  = Done (set_changed true (set_lines (<[0 := []]> (lines e)) e)).
Proof.
  intros Hn Hk Hf.
  assert (lines e !! 0 = None) as H0.
  { apply eq_None_not_Some. intros Hs. apply Hk in Hs. lia. }
  assert (keysAre (<[0 := []]> (lines e)) (n + 1)) as Hk'.
  { intros k. destruct (decide (k = 0)) as [->|Hne].
    - rewrite lookup_insert_eq. split; [lia|eauto].
    - rewrite lookup_insert_ne by done. rewrite (Hk k). lia. }
  pose proof (keysAre_size _ (n + 1) ltac:(lia) Hk') as Hsz.
  rewrite map_size_insert_None in Hsz by done.
  unfold MakeConsistent. destruct fuel as [|fuel]; [lia|]. simpl.
  destruct (Z.ltb_spec 0 (Z.of_nat (size (lines e)))); [|lia].
  rewrite H0. apply makeConsistentLoop_dense; simpl.
  - apply (keysAre_dense _ (n + 1)); [lia|done].
  - lia.
  - rewrite map_size_insert_None by done. lia.
Qed.

(** [MakeConsistent] on a document with gaps: with no negative index, the
    loop stops at the highest index plus one, with every index below it
    filled. *)
Lemma size_lower_bound (ls : Lines) (i : Z) :
  0 ≤ i → (∀ k, 0 ≤ k < i → is_Some (ls !! k)) → i ≤ Z.of_nat (size ls).
Proof.
  intros Hi. rewrite <- (Z2Nat.id i Hi). generalize (Z.to_nat i) as m. clear i Hi.
  intros m. revert ls. induction m as [|m IH]; intros ls Hk; [lia|].
  assert (is_Some (ls !! Z.of_nat m)) as Hm by (apply Hk; lia).
  assert (Z.of_nat m ≤ Z.of_nat (size (delete (Z.of_nat m) ls))) as Hd.
  { apply IH. intros k Hk'. rewrite lookup_delete_ne by lia. apply Hk. lia. }
  rewrite map_size_delete_Some in Hd by done.
  assert (size ls ≠ 0%nat) by (by eapply map_size_ne_0_lookup_2). lia.
Qed.

Lemma size_lower_bound_extra (ls : Lines) (i m : Z) :
  0 ≤ i → (∀ k, 0 ≤ k < i → is_Some (ls !! k)) →
  is_Some (ls !! m) → ¬ (0 ≤ m < i) → i + 1 ≤ Z.of_nat (size ls).
Proof.
  intros Hi Hk Hm Hout.
  assert (i ≤ Z.of_nat (size (delete m ls))) as Hd.
  { apply size_lower_bound; [done|]. intros k Hk'.
    rewrite lookup_delete_ne by lia. by apply Hk. }
  rewrite map_size_delete_Some in Hd by done.
  assert (size ls ≠ 0%nat) by (by eapply map_size_ne_0_lookup_2). lia.
Qed.

Lemma makeConsistentLoop_fills (fuel : nat) (i M : Z) (e : Editor) :
  (∀ k, is_Some (lines e !! k) → 0 ≤ k ≤ M) → is_Some (lines e !! M) →
  (∀ k, 0 ≤ k < i → is_Some (lines e !! k)) → 0 ≤ i ≤ M + 1 →
  (Z.to_nat (M + 1 - i) < fuel)%nat →
  ∃ e', makeConsistentLoop fuel i e = Done e'
        ∧ keysAre (lines e') (M + 1)
        ∧ (∀ k, lineAt (lines e') k = lineAt (lines e) k).
Proof.
  revert i e. induction fuel as [|fuel IH]; intros i e Hr HM Hlow Hi Hf; [lia|].
  simpl. destruct (Z.ltb_spec i (Z.of_nat (size (lines e)))) as [Hlt|Hge].
  - assert (i ≤ M) as HiM.
    { destruct (decide (i ≤ M)); [done|]. exfalso.
      assert (keysAre (lines e) (M + 1)) as Hk.
      { intros k. split; [intros Hs; apply Hr in Hs; lia|intros Hk; apply Hlow; lia]. }
      apply keysAre_size in Hk; lia. }
    destruct (lines e !! i) eqn:Hl.
    + apply IH; [done|done| |lia|lia].
      intros k Hk. destruct (decide (k = i)) as [->|]; [by rewrite Hl|apply Hlow; lia].
    + destruct (IH (i + 1) (set_changed true (set_lines (<[i := []]> (lines e)) e)))
        as (e' & He' & Hk' & Hl'); simpl.
      * intros k. destruct (decide (k = i)) as [->|Hne]; [lia|].
        rewrite lookup_insert_ne by done. apply Hr.
      * destruct (decide (M = i)) as [->|Hne]; [by rewrite lookup_insert_eq|].
        by rewrite lookup_insert_ne.
      * intros k Hk. destruct (decide (k = i)) as [->|Hne]; [by rewrite lookup_insert_eq|].
        rewrite lookup_insert_ne by done. apply Hlow. lia.
      * lia.
      * lia.
      * exists e'. split; [done|]. split; [done|]. intros k. rewrite Hl'. simpl.
        unfold lineAt. destruct (decide (k = i)) as [->|Hne].
        -- by rewrite lookup_insert_eq, Hl.
        -- by rewrite lookup_insert_ne.
  - assert (i = M + 1) as ->.
    { destruct (decide (i = M + 1)); [done|]. exfalso.
      pose proof (size_lower_bound_extra (lines e) i M ltac:(lia) Hlow HM ltac:(lia)). lia. }
    exists e. split; [done|]. split; [|done].
    intros k. split; [intros Hs; apply Hr in Hs; lia|intros Hk; apply Hlow; lia].
Qed.

Lemma maxKey_present (ls : Lines) : ls ≠ ∅ → (∀ k, is_Some (ls !! k) → 0 ≤ k) →
  is_Some (ls !! maxKey ls).
Proof.
  intros Hne Hnn. destruct (maxKey_spec ls) as (H0 & Hmax & [Hz|Hs]); [|done].
  destruct (map_choose ls Hne) as (k & v & Hkv).
  assert (k ≤ maxKey ls) by (apply Hmax; eauto).
  assert (0 ≤ k) by (apply Hnn; eauto).
  assert (k = 0) as -> by lia. rewrite Hz. eauto.
Qed.



(** The common end of [InsertLineAbove] and [InsertLineBelowAt]. *)
Lemma InsertLineBelowAt_last (fuel : nat) (y : Z) (e : Editor) :
  dense (lines e) → (size (lines e) < fuel)%nat →
  y = Z.of_nat (size (lines e)) - 1 →
  InsertLineBelowAt fuel y e
  = Done (set_changed true (set_lines (<[y + 1 := []]> (lines e)) e)).
Proof.
  intros Hd Hf Hy. unfold InsertLineBelowAt.
  rewrite MakeConsistent_dense by done. simpl.
  destruct (Z.eqb_spec y (Z.of_nat (size (lines e)) - 1)); [done|lia].
Qed.

Lemma InsertLineBelowAt_not_last (fuel : nat) (y : Z) (e : Editor) :
  dense (lines e) → (size (lines e) + 1 < fuel)%nat → 0 ≤ y →
  y ≠ Z.of_nat (size (lines e)) - 1 →
  let ls2 := insertBlankAfter y (lines e) in
  InsertLineBelowAt fuel y e
  = Done (set_changed true
            (set_lines (skipTrailing (Z.to_nat (Z.of_nat (size ls2) - y)) y ls2) e))
  ∧ ∃ n2 m, keysAre ls2 n2 ∧ 0 ≤ n2 ≤ Z.of_nat (size (lines e)) + 1
      ∧ Z.of_nat (size ls2) = n2
      ∧ keysAre (skipTrailing (Z.to_nat (Z.of_nat (size ls2) - y)) y ls2) m
      ∧ 0 ≤ m ≤ n2 ∧ Z.min n2 (y + 1) ≤ m
      ∧ (∀ j, j < m → skipTrailing (Z.to_nat (Z.of_nat (size ls2) - y)) y ls2 !! j
                      = ls2 !! j)
      ∧ (∀ j, m ≤ j → lineAt ls2 j = []).
Proof.
  intros Hd Hf H0 Hy ls2.
  set (n := Z.of_nat (size (lines e))) in *.
  assert (∃ n2, keysAre ls2 n2 ∧ 0 ≤ n2 ≤ n + 1) as (n2 & Hk2 & Hn2).
  { destruct (Z.ltb_spec y n).
    - exists (n + 1). split; [|lia]. apply insertBlankAfter_keysAre; [done|lia].
    - exists n. split; [|lia]. unfold ls2.
      rewrite (insertBlankAfter_beyond y _ n) by done. done. }
  pose proof (keysAre_size _ n2 ltac:(lia) Hk2) as Hsz2.
  destruct (skipTrailing_keysAre (Z.to_nat (Z.of_nat (size ls2) - y)) y ls2 n2)
    as (m & Hm & Hmn & Hmin & Hlk & Hemp); [lia|done|lia|].
  split.
  - unfold InsertLineBelowAt. rewrite MakeConsistent_dense by (done || lia). simpl.
    destruct (Z.eqb_spec y (Z.of_nat (size (lines e)) - 1)); [done|].
    fold ls2. rewrite MakeConsistent_dense; simpl.
    + rewrite MakeConsistent_dense; simpl; [done| |].
      * apply (keysAre_dense _ m); [lia|done].
      * pose proof (keysAre_size _ m ltac:(lia) Hm). lia.
    + apply (keysAre_dense _ n2); [lia|done].
    + lia.
  - exists n2, m. split_and!; try done; lia.
Qed.

Lemma InsertLineBelowAt_dense (fuel : nat) (y : Z) (e : Editor) :
  dense (lines e) → (size (lines e) + 1 < fuel)%nat → 0 ≤ y →
  ∃ e' m, InsertLineBelowAt fuel y e = Done e' ∧ keysAre (lines e') m ∧ 0 ≤ m
          ∧ (lines e ≠ ∅ → 1 ≤ m).
Proof.
  intros Hd Hf H0.
  set (n := Z.of_nat (size (lines e))).
  assert (lines e ≠ ∅ → 1 ≤ n) as Hne.
  { intros Hne%map_size_non_empty_iff. lia. }
  destruct (decide (y = n - 1)) as [Hy|Hy].
  - rewrite InsertLineBelowAt_last by (done || lia).
    eexists _, (n + 1). split; [done|]. simpl. split_and!; [|lia|lia].
    intros k. destruct (decide (k = y + 1)) as [->|Hk].
    + rewrite lookup_insert_eq. split; [lia|eauto].
    + rewrite lookup_insert_ne by done. rewrite (Hd k). fold n. lia.
  - destruct (InsertLineBelowAt_not_last fuel y e Hd Hf H0 Hy)
      as (Heq & n2 & m & Hk2 & Hn2 & Hsz & Hm & Hmn & Hmin & _).
    rewrite Heq. eexists _, m. split; [done|]. simpl. split_and!; [done|lia|].
    intros H1%Hne.
    assert (n ≤ n2); [|lia].
    destruct (Z.ltb_spec y n).
    + pose proof (keysAre_size _ (n + 1) ltac:(lia)
                    (insertBlankAfter_keysAre y _ n Hd ltac:(lia))). lia.
    + rewrite (insertBlankAfter_beyond y _ n) in Hsz by done. fold n in Hsz. lia.
Qed.

Lemma insertBlankAfter_empty (y : Z) : insertBlankAfter y ∅ = ∅.
Proof. unfold insertBlankAfter. apply map_fold_empty. Qed.

Lemma InsertLineAbove_dense (fuel : nat) (e : Editor) :
  dense (lines e) → (size (lines e) + 1 < fuel)%nat → 0 ≤ DataY e →
  ∃ e' m, InsertLineAbove fuel e = Done e' ∧ keysAre (lines e') m ∧ 0 ≤ m
          ∧ (lines e ≠ ∅ → 1 ≤ m).
Proof.
  intros Hd Hf H0.
  set (n := Z.of_nat (size (lines e))) in *. set (y := DataY e) in *.
  set (e1 := set_lines (insertBlankAfter (y - 1) (lines e)) e).
  assert (lines e ≠ ∅ → 1 ≤ n) as Hne.
  { intros Hne%map_size_non_empty_iff. lia. }
  assert (∃ e2 n2, MakeConsistent fuel e1 = Done e2 ∧ keysAre (lines e2) n2
                   ∧ n ≤ n2 ≤ n + 1) as (e2 & n2 & He2 & Hk2 & Hn2).
  { destruct (decide (y = 0)) as [Hy0|Hy0].
    - destruct (decide (n = 0)) as [Hn0|Hn0].
      + assert (lines e = ∅) as Hemp by (apply map_size_empty_inv; lia).
        exists e1, 0. unfold e1. rewrite Hemp, insertBlankAfter_empty.
        split_and!; [| |lia|lia].
        * apply MakeConsistent_dense; simpl; [|rewrite map_size_empty; lia].
          intros k. rewrite map_size_empty, lookup_empty. split; [intros [? ?]; done|lia].
        * simpl. intros k. rewrite lookup_empty. split; [intros [? ?]; done|lia].
      + assert (∀ k, is_Some (lines e1 !! k) ↔ 1 ≤ k < n + 1) as Hk1.
        { intros k. unfold e1. simpl. rewrite Hy0.
          rewrite (insertBlankAfter_before_start _ n) by done.
          destruct (Z.leb_spec k 0).
          - split; [intros [? ?]; done|lia].
          - rewrite (Hd (k - 1)). fold n. lia. }
        eexists _, (n + 1). split; [apply (MakeConsistent_fills_first _ _ n); [lia|done|lia]|].
        simpl. split; [|lia]. intros k.
        destruct (decide (k = 0)) as [->|Hk].
        * rewrite lookup_insert_eq. split; [lia|eauto].
        * rewrite lookup_insert_ne by done. specialize (Hk1 k).
          unfold e1 in Hk1. simpl in Hk1. rewrite Hk1. lia.
    - destruct (Z.ltb_spec (y - 1) n).
      + assert (keysAre (lines e1) (n + 1)) as Hk1
            by (apply insertBlankAfter_keysAre; [done|lia]).
        exists e1, (n + 1). split_and!; [|done|lia|lia].
        apply MakeConsistent_dense.
        * apply (keysAre_dense _ (n + 1)); [lia|done].
        * pose proof (keysAre_size _ (n + 1) ltac:(lia) Hk1). lia.
      + exists e1, n. unfold e1. simpl.
        rewrite (insertBlankAfter_beyond (y - 1) _ n) by done.
        split_and!; [|done|lia|lia].
        apply MakeConsistent_dense; simpl; [done|lia]. }
  pose proof (keysAre_size _ n2 ltac:(lia) Hk2) as Hsz2.
  destruct (skipTrailing_keysAre (Z.to_nat (Z.of_nat (size (lines e2)) - y)) y (lines e2) n2)
    as (m & Hm & Hmn & Hmin & _); [lia|done|lia|].
  unfold InsertLineAbove. fold y e1. rewrite He2. simpl.
  rewrite MakeConsistent_dense; simpl.
  - eexists _, m. split; [done|]. simpl. split_and!; [done|lia|].
    intros H1%Hne. lia.
  - apply (keysAre_dense _ m); [lia|done].
  - pose proof (keysAre_size _ m ltac:(lia) Hm). lia.
Qed.

Lemma DeleteLine_dense (fuel : nat) (y : Z) (e : Editor) :
  dense (lines e) → (size (lines e) + 1 < fuel)%nat → 0 ≤ y →
  ∃ e' m, DeleteLine fuel y e = Done e' ∧ keysAre (lines e') m ∧ 0 ≤ m
          ∧ ((2 ≤ size (lines e))%nat → 1 ≤ m).
Proof.
  intros Hd Hf H0. set (n := Z.of_nat (size (lines e))) in *.
  unfold DeleteLine.
  destruct (Z.leb_spec (Len e - 1) y) as [Hend|Hmid].
  - (* the last line, or past it *)
    destruct (decide (0 ≤ y < n)) as [Hy|Hy].
    + assert (y = n - 1) as ->.
      { unfold Len in Hend. rewrite (keysAre_maxKey _ n) in Hend by (done || lia). lia. }
      eexists _, (n - 1). split; [done|]. simpl.
      split_and!; [by apply keysAre_delete_last|lia|lia].
    + eexists _, n. split; [done|]. simpl.
      rewrite delete_id by (by apply (keysAre_absent _ n)).
      split_and!; [done|lia|lia].
  - (* a line before the last one *)
    assert (2 ≤ n) as Hn.
    { destruct (decide (n = 0)) as [Hn0|Hn0].
      - assert (lines e = ∅) as Hemp by (apply map_size_empty_inv; lia).
        unfold Len in Hmid. rewrite Hemp, maxKey_empty in Hmid. lia.
      - unfold Len in Hmid. rewrite (keysAre_maxKey _ n) in Hmid by (done || lia). lia. }
    destruct (maxIndexOf_spec (lines e)) as [Hfst Hsnd].
    rewrite (keysAre_maxKey _ n) in Hfst, Hsnd by (done || lia).
    destruct (maxIndexOf (lines e)) as [maxIndex found]. simpl in *. subst maxIndex.
    assert (found = true) as -> by (apply Hsnd; lia). simpl.
    destruct (proj2 (Hd (n - 1)) ltac:(fold n; lia)) as [l Hl]. rewrite Hl.
    unfold Len in Hmid. rewrite (keysAre_maxKey _ n) in Hmid by (done || lia).
    assert (keysAre (delete (n - 1) (shiftUp (Z.to_nat (n - 1 - y)) y (lines e))) (n - 1))
      as Hk'.
    { intros k. destruct (decide (k = n - 1)) as [->|Hne].
      - rewrite lookup_delete_eq. split; [intros [? ?]; done|lia].
      - rewrite lookup_delete_ne by done. rewrite shiftUp_lookup.
        destruct ((y <=? k) && (k <? y + Z.of_nat (Z.to_nat (n - 1 - y)))) eqn:Hc.
        + apply andb_true_iff in Hc as [H1%Z.leb_le H2%Z.ltb_lt]. split; [lia|eauto].
        + rewrite (Hd k). fold n. lia. }
    rewrite MakeConsistent_dense; simpl.
    + eexists _, (n - 1). split; [done|]. simpl. split_and!; [done|lia|lia].
    + apply (keysAre_dense _ (n - 1)); [lia|done].
    + pose proof (keysAre_size _ (n - 1) ltac:(lia) Hk'). lia.
Qed.

Lemma keysAre_nonempty (ls : Lines) (m : Z) : keysAre ls m → ls ≠ ∅ → 1 ≤ m.
Proof.
  intros Hk Hne. destruct (Z.le_gt_cases 1 m); [done|]. exfalso. apply Hne.
  apply map_empty. intros j. apply (keysAre_absent _ m); [done|lia].
Qed.

(** C1, amended: starting from a document whose line indices are exactly
    0..n-1, after [InsertLineBelowAt y], [InsertLineAbove] (with the cursor
    on row [y]) and [DeleteLine y], for [y >= 0] and a sufficient step
    budget, the line indices are again exactly 0..m-1 for the m lines
    stored.  Hence every index below [Len] has an entry whenever the
    resulting document has a line; the insertions keep a document with
    lines non-empty, and so does [DeleteLine] on two lines or more. *)
Theorem density_after_line_mutation (e : Editor) (y : Z) (fuel : nat) :
  dense (lines e) → 0 ≤ y → (size (lines e) + 1 < fuel)%nat →
  (∃ e1, InsertLineBelowAt fuel y e = Done e1 ∧ dense (lines e1)
         ∧ (lines e ≠ ∅ → lines e1 ≠ ∅) ∧ (lines e1 ≠ ∅ → denseBelowLen e1))
  ∧ (DataY e = y →
     ∃ e2, InsertLineAbove fuel e = Done e2 ∧ dense (lines e2)
           ∧ (lines e ≠ ∅ → lines e2 ≠ ∅) ∧ (lines e2 ≠ ∅ → denseBelowLen e2))
  ∧ (∃ e3, DeleteLine fuel y e = Done e3 ∧ dense (lines e3)
           ∧ ((2 ≤ size (lines e))%nat → lines e3 ≠ ∅)
           ∧ (lines e3 ≠ ∅ → denseBelowLen e3)).
Proof.
  intros Hd H0 Hf.
  assert (∀ (e' : Editor) m, keysAre (lines e') m → 0 ≤ m →
            dense (lines e') ∧ (1 ≤ m → lines e' ≠ ∅)
            ∧ (lines e' ≠ ∅ → denseBelowLen e')) as Hfin.
  { intros e' m Hk Hm. split_and!.
    - by apply (keysAre_dense _ m).
    - intros H1 Hemp. destruct (proj2 (Hk 0) ltac:(lia)) as [l Hl].
      rewrite Hemp, lookup_empty in Hl. done.
    - intros Hne. apply (keysAre_denseBelowLen _ m); [|done].
      by apply (keysAre_nonempty (lines e')). }
  split_and!.
  - destruct (InsertLineBelowAt_dense fuel y e Hd Hf H0) as (e1 & m & He1 & Hk & Hm & Hne).
    destruct (Hfin e1 m Hk Hm) as (? & ? & ?). exists e1. split_and!; auto.
  - intros Hy. rewrite <- Hy in H0.
    destruct (InsertLineAbove_dense fuel e Hd Hf H0) as (e2 & m & He2 & Hk & Hm & Hne).
    destruct (Hfin e2 m Hk Hm) as (? & ? & ?). exists e2. split_and!; auto.
  - destruct (DeleteLine_dense fuel y e Hd Hf H0) as (e3 & m & He3 & Hk & Hm & Hne).
    destruct (Hfin e3 m Hk Hm) as (? & ? & ?). exists e3. split_and!; auto.
Qed.

(** C1, as stated, fails: the document ["abc"] is dense, and [DeleteLine 0]
    leaves the map without lines, for which [Len] is 1 while index 0 has no
    entry. *)
Lemma DeleteLine_only_line_counterexample :
  denseBelowLen (editorOf abcDoc 0 0)
  ∧ ∃ e', DeleteLine 5 0 (editorOf abcDoc 0 0) = Done e'
          ∧ Len e' = 1 ∧ lines e' !! 0 = None ∧ ¬ denseBelowLen e'.
Proof.
  split.
  - intros y Hy. assert (Len (editorOf abcDoc 0 0) = 1) as HL by (vm_compute; reflexivity).
    rewrite HL in Hy. assert (y = 0) as -> by lia. vm_compute. eauto.
  - eexists. split; [vm_compute; reflexivity|].
    split; [vm_compute; reflexivity|]. split; [vm_compute; reflexivity|].
    intros Hd. destruct (Hd 0) as [l Hl].
    + split; [lia|]. vm_compute. reflexivity.
    + vm_compute in Hl. discriminate.
Qed.

Lemma abcdDoc_dense : dense abcdDoc.
Proof.
  assert (size abcdDoc = 2%nat) as Hsz by (vm_compute; reflexivity).
  unfold dense. rewrite Hsz. intros k. unfold abcdDoc.
  destruct (decide (k = 0)) as [->|H0].
  { rewrite lookup_insert_eq. split; [lia|eauto]. }
  destruct (decide (k = 1)) as [->|H1].
  { rewrite lookup_insert_ne, lookup_insert_eq by lia. split; [lia|eauto]. }
  rewrite !lookup_insert_ne, lookup_empty by done. split; [intros [? ?]; done|lia].
Qed.

Lemma density_after_line_mutation_witness :
  (∃ e1, InsertLineBelowAt 4 0 (editorOf abcdDoc 0 0) = Done e1 ∧ dense (lines e1)
         ∧ (lines (editorOf abcdDoc 0 0) ≠ ∅ → lines e1 ≠ ∅)
         ∧ (lines e1 ≠ ∅ → denseBelowLen e1))
  ∧ (DataY (editorOf abcdDoc 0 0) = 0 →
     ∃ e2, InsertLineAbove 4 (editorOf abcdDoc 0 0) = Done e2 ∧ dense (lines e2)
           ∧ (lines (editorOf abcdDoc 0 0) ≠ ∅ → lines e2 ≠ ∅)
           ∧ (lines e2 ≠ ∅ → denseBelowLen e2))
  ∧ (∃ e3, DeleteLine 4 0 (editorOf abcdDoc 0 0) = Done e3 ∧ dense (lines e3)
           ∧ ((2 ≤ size (lines (editorOf abcdDoc 0 0)))%nat → lines e3 ≠ ∅)
           ∧ (lines e3 ≠ ∅ → denseBelowLen e3)).
Proof.
  apply (density_after_line_mutation (editorOf abcdDoc 0 0) 0 4).
  - exact abcdDoc_dense.
  - lia.
  - vm_compute. lia.
Defined.

(** ** A space typed at the end of a line that is too long *)

Lemma flags_EOL e : AtOrAfterEndOfLine (set_redraw true (set_redrawCursor true (set_changed true e))) = AtOrAfterEndOfLine e.
Proof. reflexivity. Qed.

Lemma InsertRune_space_case (fuel : nat) (c : option Canvas) (r : rune) (e : Editor) :
  wordWrapAt e ≠ 0 → WithinLimit (DataY e) e = false →
  AtOrAfterEndOfLine e = true → IsSpace r = true →
  InsertRune fuel c r e
  = (e1 ← InsertLineBelowAt fuel (DataY e)
            (set_redraw true (set_redrawCursor true (set_changed true e)));
     MakeConsistent fuel (TrimRight (DataY e) e1)).
Proof.
  intros Hw Hlim Heol Hsp. unfold InsertRune.
  destruct (Z.eqb_spec (wordWrapAt e) 0) as [|_]; [done|]. rewrite Hlim.
  cbv beta iota delta [orb].
  rewrite flags_EOL.
  rewrite Heol, Hsp.
  destruct (DataX (set_redraw true (set_redrawCursor true (set_changed true e)))) as [x err].
  reflexivity.
Qed.

Lemma WithinLimit_false_present (y : Z) (e : Editor) :
  0 < wordWrapAt e → WithinLimit y e = false →
  ∃ l, lines e !! y = Some l ∧ l ≠ [].
Proof.
  unfold WithinLimit, lineAt. intros Hw Hl%Z.ltb_ge.
  destruct (lines e !! y) as [l|]; simpl in *.
  - exists l. split; [done|]. intros ->. unfold len in Hl. simpl in Hl. lia.
  - unfold len in Hl. simpl in Hl. lia.
Qed.

(** The case of a document without gaps. *)
Lemma InsertRune_space_dense
    (fuel : nat) (c : option Canvas) (r : rune) (e : Editor) :
  dense (lines e) →
  0 < wordWrapAt e → WithinLimit (DataY e) e = false →
  AtOrAfterEndOfLine e = true → IsSpace r = true →
  (DataY e = Z.of_nat (size (lines e)) - 1
   ∨ ∃ j, DataY e < j ∧ lineAt (lines e) j ≠ []) →
  (size (lines e) + 2 < fuel)%nat →
  ∃ e', InsertRune fuel c r e = Done e'
        ∧ lines e' !! DataY e = Some (trimRightLine (lineAt (lines e) (DataY e)))
        ∧ lines e' !! (DataY e + 1) = Some []
        ∧ (∀ j, j < DataY e → lines e' !! j = lines e !! j)
        ∧ (∀ j, DataY e < j → lineAt (lines e') (j + 1) = lineAt (lines e) j)
        ∧ pos e' = pos e.
Proof.
  intros Hd Hw Hlim Heol Hsp Hbelow Hf.
  rewrite InsertRune_space_case by (done || lia).
  set (y := DataY e) in *. set (n := Z.of_nat (size (lines e))) in *.
  set (e0 := set_redraw true (set_redrawCursor true (set_changed true e))).
  destruct (WithinLimit_false_present y e Hw Hlim) as (l & Hl & Hlne).
  assert (0 ≤ y < n) as Hy by (apply Hd; eauto).
  assert (lineAt (lines e) y = l) as Hly by (unfold lineAt; by rewrite Hl).
  rewrite Hly.
  destruct (decide (y = n - 1)) as [Hlast|Hmid].
  - (* the current line is the last one *)
    rewrite (InsertLineBelowAt_last fuel y e0) by (done || (simpl; lia)).
    cbn [mbind Res_bind].
    set (e1 := set_changed true (set_lines (<[y + 1 := []]> (lines e0)) e0)).
    assert (lines e1 !! y = Some l) as Hl1.
    { unfold e1. simpl. rewrite lookup_insert_ne by lia. done. }
    assert (keysAre (lines (TrimRight y e1)) (n + 1)) as Hk.
    { intros k. rewrite TrimRight_keeps_entry. unfold e1. simpl.
      destruct (decide (k = y + 1)) as [->|Hne].
      - rewrite lookup_insert_eq. split; [lia|eauto].
      - rewrite lookup_insert_ne by done. rewrite (Hd k). fold n. lia. }
    rewrite MakeConsistent_dense.
    + eexists. split; [done|]. split_and!.
      * by apply TrimRight_lookup.
      * rewrite TrimRight_lookup_ne by lia. unfold e1. simpl. by rewrite lookup_insert_eq.
      * intros j Hj. rewrite TrimRight_lookup_ne by lia. unfold e1. simpl.
        by rewrite lookup_insert_ne by lia.
      * intros j Hj. unfold lineAt. rewrite TrimRight_lookup_ne by lia.
        unfold e1. simpl. rewrite lookup_insert_ne by lia.
        rewrite (keysAre_absent _ n (j + 1)) by (done || lia).
        rewrite (keysAre_absent _ n j) by (done || lia). done.
      * unfold TrimRight. rewrite Hl1. done.
    + apply (keysAre_dense _ (n + 1)); [lia|done].
    + pose proof (keysAre_size _ (n + 1) ltac:(lia) Hk). lia.
  - (* a line with contents follows *)
    destruct Hbelow as [?|(j0 & Hj0 & Hne0)]; [done|].
    destruct (InsertLineBelowAt_not_last fuel y e0 Hd ltac:(simpl; lia) ltac:(lia) Hmid)
      as (Heq & n2 & m & Hk2 & Hn2 & Hsz & Hm & Hmn & Hmin & Hlk & Hemp).
    rewrite Heq. cbn [mbind Res_bind]. clear Heq.
    change (lines e0) with (lines e) in *.
    set (ls2 := insertBlankAfter y (lines e)) in *.
    set (ls3 := skipTrailing (Z.to_nat (Z.of_nat (size ls2) - y)) y ls2) in *.
    set (e1 := set_changed true (set_lines ls3 e0)).
    assert (∀ j, y < j → ls2 !! (j + 1) = lines e !! j) as Hshift.
    { intros j Hj. unfold ls2. rewrite insertBlankAfter_lookup. unfold blankAfterSpec.
      destruct (Z.ltb_spec (j + 1) y); [lia|].
      destruct (Z.eqb_spec (j + 1) y); [lia|].
      destruct (Z.eqb_spec (j + 1) (y + 1)); [lia|].
      by replace (j + 1 - 1) with j by lia. }
    assert (j0 + 1 < m) as Hm0.
    { destruct (Z.lt_ge_cases (j0 + 1) m); [done|]. exfalso. apply Hne0.
      rewrite <- (Hemp (j0 + 1)) by lia. unfold lineAt. by rewrite Hshift. }
    assert (ls3 !! y = Some l) as Hl3.
    { rewrite Hlk by lia. unfold ls2. rewrite insertBlankAfter_lookup. unfold blankAfterSpec.
      destruct (Z.ltb_spec y y); [lia|]. by rewrite Z.eqb_refl. }
    assert (keysAre (lines (TrimRight y e1)) m) as Hk.
    { intros k. rewrite TrimRight_keeps_entry. unfold e1. simpl. apply Hm. }
    rewrite MakeConsistent_dense.
    + eexists. split; [done|]. split_and!.
      * by apply TrimRight_lookup.
      * rewrite TrimRight_lookup_ne by lia. unfold e1. simpl. rewrite Hlk by lia.
        unfold ls2. rewrite insertBlankAfter_lookup. unfold blankAfterSpec.
        destruct (Z.ltb_spec (y + 1) y); [lia|].
        destruct (Z.eqb_spec (y + 1) y); [lia|].
        rewrite Z.eqb_refl. by rewrite Hl.
      * intros j Hj. rewrite TrimRight_lookup_ne by lia. unfold e1. simpl.
        rewrite Hlk by lia. unfold ls2. rewrite insertBlankAfter_lookup.
        unfold blankAfterSpec. destruct (Z.ltb_spec j y); [done|lia].
      * intros j Hj. unfold lineAt at 1. rewrite TrimRight_lookup_ne by lia.
        unfold e1. simpl. destruct (Z.lt_ge_cases (j + 1) m).
        -- rewrite Hlk by done. by rewrite Hshift.
        -- rewrite (keysAre_absent _ m (j + 1)) by (done || lia). simpl.
           rewrite <- (Hemp (j + 1)) by lia. unfold lineAt. by rewrite Hshift.
      * unfold TrimRight. change (lines e1) with ls3. rewrite Hl3. done.
    + apply (keysAre_dense _ m); [lia|done].
    + pose proof (keysAre_size _ m ltac:(lia) Hk). simpl in Hn2. lia.
Qed.

Lemma makeConsistentLoop_fields (fuel : nat) (i : Z) (e e' : Editor) :
  makeConsistentLoop fuel i e = Done e' →
  pos e' = pos e ∧ drawMode e' = drawMode e ∧ wordWrapAt e' = wordWrapAt e
  ∧ mode e' = mode e ∧ redraw e' = redraw e ∧ redrawCursor e' = redrawCursor e
  ∧ (changed e = true → changed e' = true).
Proof.
  revert i e. induction fuel as [|fuel IH]; intros i e He; [done|].
  simpl in He. destruct (i <? Z.of_nat (size (lines e))).
  - destruct (lines e !! i).
    + by apply IH in He.
    + apply IH in He. simpl in He. destruct He as (? & ? & ? & ? & ? & ? & Hc).
      split_and!; try done. intros _. by apply Hc.
  - injection He as <-. split_and!; done.
Qed.

Lemma MakeConsistent_fills (fuel : nat) (e : Editor) :
  (∀ k, is_Some (lines e !! k) → 0 ≤ k) → lines e ≠ ∅ →
  (Z.to_nat (Len e) < fuel)%nat →
  ∃ e', MakeConsistent fuel e = Done e'
        ∧ keysAre (lines e') (Len e)
        ∧ (∀ k, lineAt (lines e') k = lineAt (lines e) k).
Proof.
  intros Hnn Hne Hf.
  pose proof (maxKey_present _ Hne Hnn) as HM.
  destruct (maxKey_spec (lines e)) as (H0 & Hmax & _).
  apply (makeConsistentLoop_fills fuel 0 (maxKey (lines e)) e); try done.
  - intros k Hs. split; [by apply Hnn|by apply Hmax].
  - intros k Hk. lia.
  - lia.
  - unfold Len in Hf. lia.
Qed.

Lemma AtOrAfterEndOfLine_ext (e0 e : Editor) :
  drawMode e0 = drawMode e → pos e0 = pos e →
  (∀ k, lineAt (lines e0) k = lineAt (lines e) k) →
  AtOrAfterEndOfLine e0 = AtOrAfterEndOfLine e.
Proof.
  intros Hd Hp Hl. unfold AtOrAfterEndOfLine, DataX, LastDataPosition, DataY.
  rewrite !Line_lineAt, Hd, Hp. by rewrite !Hl.
Qed.

Lemma InsertLineBelowAt_consistent (fuel : nat) (y : Z) (e e0 : Editor) :
  MakeConsistent fuel e = Done e0 → dense (lines e0) → (size (lines e0) < fuel)%nat →
  InsertLineBelowAt fuel y e = InsertLineBelowAt fuel y e0.
Proof.
  intros He Hd Hf. unfold InsertLineBelowAt. rewrite He.
  rewrite (MakeConsistent_dense fuel e0) by done. done.
Qed.

Lemma flags_fixed (e : Editor) :
  changed e = true → redraw e = true → redrawCursor e = true →
  set_redraw true (set_redrawCursor true (set_changed true e)) = e.
Proof. destruct e. simpl. by intros -> -> ->. Qed.

(** C4, amended: when word wrap is active, the current line is at or over
    the wrap threshold, the cursor is at or after the end of the line, the
    rune is a space, and the current line is the last line of the document
    or some later line is not empty, [InsertRune] opens a blank line below
    the current line and moves no text of the current line.  The document
    may have gaps but no negative line index.  The lines above keep their
    text (a missing one is stored as an empty line), the current line is
    only trimmed, line [y + 1] is empty, the later lines read one index
    further down, and the cursor stays. *)
Theorem InsertRune_space_at_end_of_long_line
    (fuel : nat) (c : option Canvas) (r : rune) (e : Editor) :
  (∀ k, is_Some (lines e !! k) → 0 ≤ k) →
  0 < wordWrapAt e → WithinLimit (DataY e) e = false →
  AtOrAfterEndOfLine e = true → IsSpace r = true →
  (DataY e = Len e - 1 ∨ ∃ j, DataY e < j ∧ lineAt (lines e) j ≠ []) →
  (Z.to_nat (Len e) + 2 < fuel)%nat →
  ∃ e', InsertRune fuel c r e = Done e'
        ∧ lines e' !! DataY e = Some (trimRightLine (lineAt (lines e) (DataY e)))
        ∧ lines e' !! (DataY e + 1) = Some []
        ∧ (∀ j, 0 ≤ j < DataY e → lines e' !! j = Some (lineAt (lines e) j))
        ∧ (∀ j, j < 0 → lines e' !! j = None)
        ∧ (∀ j, DataY e < j → lineAt (lines e') (j + 1) = lineAt (lines e) j)
        ∧ pos e' = pos e.
Proof.
  intros Hnn Hw Hlim Heol Hsp Hbelow Hf.
  destruct (WithinLimit_false_present _ e Hw Hlim) as (l & Hl & Hlne).
  assert (lines e ≠ ∅) as Hne by (intros Hem; by rewrite Hem, lookup_empty in Hl).
  set (ef := set_redraw true (set_redrawCursor true (set_changed true e))).
  destruct (MakeConsistent_fills fuel ef) as (e0 & He0 & Hk0 & Hl0); [done|done|simpl; unfold Len in *; simpl; lia|].
  change (Len ef) with (Len e) in Hk0. change (lines ef) with (lines e) in Hl0.
  destruct (makeConsistentLoop_fields _ _ _ _ He0) as (Hp & Hdm & Hww & _ & Hrd & Hrc & Hch).
  change (pos ef) with (pos e) in Hp. change (drawMode ef) with (drawMode e) in Hdm.
  change (wordWrapAt ef) with (wordWrapAt e) in Hww.
  assert (1 ≤ Len e) as HLen by (unfold Len; pose proof (maxKey_spec (lines e)); lia).
  pose proof (keysAre_size _ (Len e) ltac:(lia) Hk0) as Hsz.
  assert (dense (lines e0)) as Hd0 by (apply (keysAre_dense _ (Len e)); [lia|done]).
  assert (DataY e0 = DataY e) as Hy by (unfold DataY; by rewrite Hdm, Hp).
  assert (InsertRune fuel c r e = InsertRune fuel c r e0) as ->.
  { rewrite (InsertRune_space_case fuel c r e) by (done || lia).
    rewrite (InsertRune_space_case fuel c r e0).
    - rewrite Hy. fold ef.
      rewrite (InsertLineBelowAt_consistent fuel (DataY e) ef e0) by (done || lia).
      rewrite flags_fixed; [done|by apply Hch|by rewrite Hrd|by rewrite Hrc].
    - lia.
    - unfold WithinLimit. rewrite Hy, Hl0, Hww. exact Hlim.
    - rewrite (AtOrAfterEndOfLine_ext e0 e); done.
    - done. }
  destruct (InsertRune_space_dense fuel c r e0) as (e' & He' & H1 & H2 & H3 & H4 & H5).
  - done.
  - lia.
  - unfold WithinLimit. rewrite Hy, Hl0, Hww. exact Hlim.
  - rewrite (AtOrAfterEndOfLine_ext e0 e); done.
  - done.
  - rewrite Hy, Hsz. destruct Hbelow as [?|(j & Hj & Hjne)]; [by left|right].
    exists j. split; [done|]. by rewrite Hl0.
  - lia.
  - assert (0 ≤ DataY e < Len e) as Hyr.
    { split; [apply Hnn; eauto|]. unfold Len.
      destruct (maxKey_spec (lines e)) as (_ & Hmax & _).
      assert (DataY e ≤ maxKey (lines e)) by (apply Hmax; eauto). lia. }
    rewrite Hy in *. exists e'. split; [done|]. split_and!.
    + by rewrite H1, Hl0.
    + done.
    + intros j Hj. rewrite H3 by lia.
      assert (is_Some (lines e0 !! j)) as [lj Hlj] by (apply Hk0; lia).
      rewrite Hlj. f_equal. rewrite <- Hl0. unfold lineAt. by rewrite Hlj.
    + intros j Hj. rewrite H3 by lia. apply (keysAre_absent _ _ _ Hk0). lia.
    + intros j Hj. rewrite H4 by done. apply Hl0.
    + by rewrite H5.
Qed.

(** C4, as stated, fails when every line after the current one is empty:
    in the document ["abcdef"; ""] with the limit 5 and the cursor after
    "abcdef", the skip of trailing empty lines removes the new line together
    with the old empty line, and no line is left below. *)
Lemma InsertRune_space_counterexample :
  let e := editorWith longWordDoc 5 6 0 in
  dense (lines e) ∧ 0 < wordWrapAt e ∧ WithinLimit (DataY e) e = false
  ∧ AtOrAfterEndOfLine e = true ∧ IsSpace 32 = true
  ∧ ∃ e', InsertRune 10 None 32 e = Done e'
          ∧ lines e' !! (DataY e + 1) = None ∧ Len e = 2 ∧ Len e' = 1.
Proof.
  cbv zeta. split_and!; try (vm_compute; reflexivity).
  - assert (size longWordDoc = 2%nat) as Hsz by (vm_compute; reflexivity).
    unfold dense. simpl. rewrite Hsz. intros k. unfold longWordDoc.
    destruct (decide (k = 0)) as [->|H0].
    { rewrite lookup_insert_eq. split; [lia|eauto]. }
    destruct (decide (k = 1)) as [->|H1].
    { rewrite lookup_insert_ne, lookup_insert_eq by lia. split; [lia|eauto]. }
    rewrite !lookup_insert_ne, lookup_empty by done. split; [intros [? ?]; done|lia].
  - eexists. split; [vm_compute; reflexivity|].
    split_and!; vm_compute; reflexivity.
Qed.

Lemma gapDoc_keys (k : Z) : is_Some (gapDoc !! k) → 0 ≤ k.
Proof.
  unfold gapDoc. intros Hs.
  destruct (decide (k = 0)) as [->|H0]; [lia|].
  destruct (decide (k = 2)) as [->|H2]; [lia|].
  rewrite !lookup_insert_ne, lookup_empty in Hs by done. by destruct Hs.
Qed.

Lemma InsertRune_space_at_end_of_long_line_witness :
  ∃ e', InsertRune 8 None 32 (editorWith gapDoc 5 7 2) = Done e'
        ∧ lines e' !! 2 = Some [97; 98; 99; 100; 101; 102]
        ∧ lines e' !! 3 = Some []
        ∧ lines e' !! 1 = Some [].
Proof.
  destruct (InsertRune_space_at_end_of_long_line 8 None 32 (editorWith gapDoc 5 7 2))
    as (e' & He' & Hy & Hy1 & Habove & _).
  - exact gapDoc_keys.
  - reflexivity.
  - vm_compute. reflexivity.
  - vm_compute. reflexivity.
  - vm_compute. reflexivity.
  - left. vm_compute. reflexivity.
  - vm_compute. lia.
  - exists e'. split; [exact He'|]. split; [exact Hy|]. split; [exact Hy1|].
    apply (Habove 1). change (0 ≤ 1 < 2). lia.
Defined.

(** ** Bulk re-wrap *)

(** C5 at its failing input: with the limit 4 the first call splits the
    line "ab c de" at the space at column 4 into "ab c" and "de".  The first
    part is the one [SplitOvershoot] gives; it is 4 runes long, which is not
    longer than the limit, yet [WithinLimit] compares strictly and does not
    accept it, so the second call wraps again and splits "ab c" into "ab"
    and "c": the second pass changes the document. *)
Theorem WrapAllLinesAt_twice_splits_again :
  ∃ e1 e2, WrapAllLinesAt 20 4 2 (editorWith spacedDoc 4 0 0) = Done (true, e1)
           ∧ SplitOvershoot 0 false (editorWith spacedDoc 4 0 0)
             = Done ([97; 98; 32; 99], [100; 101])
           ∧ lines e1 = <[0 := [97; 98; 32; 99]]> (<[1 := [100; 101]]> ∅)
           ∧ len (lineAt (lines e1) 0) = wordWrapAt e1
           ∧ WithinLimit 0 e1 = false
           ∧ WrapAllLinesAt 20 4 2 e1 = Done (true, e2)
           ∧ lines e2 = <[0 := [97; 98]]> (<[1 := [99]]> (<[2 := [100; 101]]> ∅))
           ∧ lines e2 ≠ lines e1.
Proof.
  eexists _, _. split; [vm_compute; reflexivity|]. split; [vm_compute; reflexivity|].
  split; [vm_compute; reflexivity|]. split; [vm_compute; reflexivity|].
  split; [vm_compute; reflexivity|]. split; [vm_compute; reflexivity|].
  split; [vm_compute; reflexivity|].
  intros Heq. apply (f_equal (fun m : Lines => m !! 2)) in Heq.
  vm_compute in Heq. discriminate.
Qed.

(** ** Saving and loading: UTF-8 *)

























Lemma len_nonneg {A} (l : list A) : 0 ≤ len l.
Proof. unfold len. lia. Qed.









(** [Split] at a byte that does not occur, and at its first occurrence *)
Lemma Split_none (s : list byte) (sep : byte) : sep ∉ s → GoLib.Split s sep = [s].
Proof.
  induction s as [|b t IH]; intros Hn; [done|]. simpl.
  destruct (Z.eqb_spec b sep) as [->|Hne].
  - exfalso. apply Hn. apply elem_of_cons. by left.
  - rewrite IH; [done|]. intros Hin. apply Hn. apply elem_of_cons. by right.
Qed.



(** ** Decoding from the end *)












(** ** Replacing the non-breaking space *)


Lemma HasPrefix_nil (s : list byte) : GoLib.HasPrefix s [] = true.
Proof. by destruct s. Qed.




(** ** The text of a document, as runes *)


Lemma hasContent_false (l : list rune) :
  hasContent l = false ↔ Forall (fun r => IsSpace r = true) l.
Proof.
  unfold hasContent. induction l as [|r l IH]; simpl.
  - split; [constructor|done].
  - rewrite orb_false_iff, IH, negb_false_iff. split.
    + intros [? ?]. by constructor.
    + intros [? ?]%Forall_cons. done.
Qed.

(** The last rune that is not white space splits a line with contents. *)
Lemma last_content_split (l : list rune) :
  hasContent l = true →
  ∃ p c ws, l = p ++ c :: ws ∧ IsSpace c = false ∧ Forall (fun r => IsSpace r = true) ws.
Proof.
  induction l as [|r l IH]; [done|]. intros Hc.
  destruct (hasContent l) eqn:Hl.
  - destruct (IH eq_refl) as (p & c & ws & -> & ? & ?). by exists (r :: p), c, ws.
  - apply hasContent_false in Hl. unfold hasContent in Hc. simpl in Hc.
    apply orb_true_iff in Hc as [Hr|Hc].
    + exists [], r, l. split_and!; [done| |done]. by apply negb_true_iff.
    + apply existsb_exists in Hc as (x & Hin & Hx). apply list_elem_of_In in Hin.
      rewrite Forall_forall in Hl. rewrite (Hl x Hin) in Hx. done.
Qed.

Lemma trimRightLine_no_content (l : list rune) :
  hasContent l = false → trimRightLine l = l.
Proof. intros H%hasContent_false. by apply trimRightLine_white_line. Qed.







Lemma trimRightLine_idem (l : list rune) :
  trimRightLine (trimRightLine l) = trimRightLine l.
Proof.
  destruct (hasContent l) eqn:Hl.
  - destruct (last_content_split l Hl) as (p & c & ws & -> & Hc & Hws).
    rewrite trimRightLine_trims by done.
    rewrite (trimRightLine_trims p [] c); [done|done|constructor].
  - rewrite (trimRightLine_no_content l Hl). by apply trimRightLine_no_content.
Qed.







(** ** Saving and loading *)

Lemma maxKey_same_keys (ls1 ls2 : Lines) :
  (∀ k, is_Some (ls1 !! k) ↔ is_Some (ls2 !! k)) → maxKey ls1 = maxKey ls2.
Proof.
  intros Hk. destruct (maxKey_spec ls2) as (H0 & Hub & Hin).
  apply maxKey_unique; [done| |].
  - intros k Hs. apply Hub, Hk, Hs.
  - destruct Hin as [?|Hin]; [by left|right]. by apply Hk.
Qed.

Lemma Len_TrimRight (n : Z) (e : Editor) : Len (TrimRight n e) = Len e.
Proof.
  unfold Len. f_equal. apply maxKey_same_keys. intros k. apply TrimRight_keeps_entry.
Qed.

Lemma foldl_TrimRight_lookup (idx : list Z) (e : Editor) (k : Z) :
  NoDup idx →
  lines (foldl (fun e i => TrimRight i e) e idx) !! k
  = if decide (k ∈ idx) then trimRightLine <$> lines e !! k else lines e !! k.
Proof.
  intros Hnd. revert e. induction Hnd as [|i idx Hni Hnd IH]; intros e.
  - cbn [foldl]. case_decide as Hin; [|done]. by apply not_elem_of_nil in Hin.
  - cbn [foldl]. rewrite IH. destruct (decide (k = i)) as [->|Hne].
    + case_decide; [done|]. case_decide as Hin; [|exfalso; apply Hin, elem_of_cons; by left].
      unfold TrimRight. destruct (lines e !! i) as [l|] eqn:Hl; simpl.
      * by rewrite lookup_insert_eq.
      * by rewrite Hl.
    + rewrite TrimRight_lookup_ne by done.
      repeat case_decide; try done.
      * exfalso. apply H0, elem_of_cons. by right.
      * apply elem_of_cons in H0 as [?|?]; done.
Qed.

Lemma foldl_TrimRight_Len (idx : list Z) (e : Editor) :
  Len (foldl (fun e i => TrimRight i e) e idx) = Len e.
Proof.
  revert e. induction idx as [|i idx IH]; intros e; [done|].
  simpl. by rewrite IH, Len_TrimRight.
Qed.

Lemma trimRightLine_nil : trimRightLine [] = [].
Proof. reflexivity. Qed.

Lemma trimAll_lineAt (e : Editor) (i : Z) :
  0 ≤ i < Len e → lineAt (lines (trimAll e)) i = trimRightLine (lineAt (lines e) i).
Proof.
  intros Hi. unfold trimAll, lineAt. rewrite foldl_TrimRight_lookup by apply NoDup_seqZ.
  case_decide as Hin; [|exfalso; apply Hin, elem_of_seqZ; lia].
  destruct (lines e !! i); [done|]. simpl. by rewrite trimRightLine_nil.
Qed.

Lemma Len_trimAll (e : Editor) : Len (trimAll e) = Len e.
Proof. apply foldl_TrimRight_Len. Qed.
















Section RoundTrip.
Context `{ImageCodec}.




End RoundTrip.


(** The documents the amended statement leaves out: a line of white space
    only before the last line with contents is written as it is, because
    [TrimRight] does not strip such a line (C9). *)
Lemma Save_Load_white_line_kept :
  ∃ e1 w1 e2,
    @Save nullCodec "notes.txt" false (editorOf whiteLineDoc 0 0) (mkWorld ∅ ∅ [])
    = (None, e1, w1)
    ∧ @Load nullCodec "notes.txt" e1 w1 = Done (EmptyString, None, e2)
    ∧ files w1 !! "notes.txt"%string = Some [97; 10; 32; 32; 10; 98; 10]
    ∧ lineAt (lines e2) 1 = [32; 32].
Proof.
  eexists _, _, _. split; [vm_compute; reflexivity|].
  split; [vm_compute; reflexivity|]. split; vm_compute; reflexivity.
Qed.



(** * Further properties of the code

    Properties of the functions beyond the claims above.  The line
    operations are described through [lineAt], the way [Line] and [Get]
    read a document: a missing line reads as the empty line. *)

(** ** Cells: [Set] and [Get] *)

Lemma index_Done {A} (l : list A) (x : Z) (a : A) :
  0 ≤ x → l !! Z.to_nat x = Some a → index l x = Done a.
Proof.
  intros Hx Hl. unfold index. destruct (Z.ltb_spec x 0); [lia|]. by rewrite Hl.
Qed.

Lemma Get_lineAt (x y : Z) (e : Editor) :
  0 ≤ x →
  Get x y e = Done (default 0x20 (lineAt (lines e) y !! Z.to_nat x)).
Proof.
  intros Hx. unfold Get, lineAt. destruct (lines e !! y) as [l|]; simpl; [|done].
  unfold rune in *.
  destruct (Z.leb_spec (len l) x) as [Hle|Hlt].
  - rewrite lookup_ge_None_2; [done|]. unfold len, rune in *. lia.
  - assert (is_Some (l !! Z.to_nat x)) as [a Ha] by (apply lookup_lt_is_Some_2; unfold len, rune in *; lia).
    rewrite Ha. simpl. by apply index_Done.
Qed.

Lemma padTo_lookup (x : Z) (l : list rune) (i : nat) :
  default 0x20 (padTo x l !! i) = default 0x20 (l !! i).
Proof.
  unfold padTo, rune in *. destruct (decide (i < length l)%nat) as [Hi|Hi].
  - by rewrite lookup_app_l.
  - rewrite lookup_app_r by lia. rewrite (lookup_ge_None_2 l) by lia. simpl.
    destruct (replicate _ _ !! _) eqn:E; [|done].
    apply lookup_replicate in E as [-> _]. done.
Qed.

Lemma Set_result (x y : Z) (r : rune) (e : Editor) :
  0 ≤ x →
  ∃ l', Set_ x y r e
        = Done (set_changed true (set_lines (<[y := <[Z.to_nat x := r]> l']> (lines e)) e))
        ∧ (Z.to_nat x < length l')%nat
        ∧ ∀ i, default 0x20 (l' !! i) = default 0x20 (lineAt (lines e) y !! i).
Proof.
  intros Hx. unfold Set_. destruct (Z.ltb_spec x 0) as [|_]; [lia|].
  destruct (Z.ltb_spec x (len (lineAt (lines e) y))) as [Hlt|Hge].
  - eexists. split; [reflexivity|]. split; [unfold len in Hlt; lia|done].
  - eexists. split; [reflexivity|]. split; [|apply padTo_lookup].
    unfold padTo. rewrite length_app, length_replicate. unfold len in *. lia.
Qed.

(** X1: [Set] at a non-negative column stores the rune, marks the document
    as changed, and changes nothing else that [Get] can read: [Get] at the
    same cell returns the rune, and at every other cell what it returned
    before (the spaces that pad a short line read as the spaces [Get]
    returns beyond the end of a line). *)
Theorem Set_then_Get (x y : Z) (r : rune) (e : Editor) :
  0 ≤ x →
  ∃ e', Set_ x y r e = Done e'
        ∧ changed e' = true
        ∧ Get x y e' = Done r
        ∧ (∀ x' y', 0 ≤ x' → (x', y') ≠ (x, y) → Get x' y' e' = Get x' y' e).
Proof.
  intros Hx. destruct (Set_result x y r e Hx) as (l' & -> & Hlen & Hl').
  eexists. split; [reflexivity|]. split; [done|]. split.
  - rewrite Get_lineAt by done. simpl. unfold lineAt. rewrite lookup_insert_eq. simpl.
    by rewrite list_lookup_insert_eq.
  - intros x' y' Hx' Hne. rewrite !Get_lineAt by done. f_equal. simpl.
    unfold lineAt at 1. destruct (decide (y' = y)) as [->|Hy].
    + rewrite lookup_insert_eq. simpl.
      rewrite list_lookup_insert_ne; [apply Hl'|]. intros Heq. apply Hne. f_equal. lia.
    + rewrite lookup_insert_ne by done. done.
Qed.

Lemma Set_then_Get_witness :
  ∃ e', Set_ 5 1 120 (editorOf abcdDoc 0 0) = Done e'
        ∧ changed e' = true
        ∧ Get 5 1 e' = Done 120
        ∧ (∀ x' y', 0 ≤ x' → (x', y') ≠ (5, 1) →
                    Get x' y' e' = Get x' y' (editorOf abcdDoc 0 0)).
Proof. apply (Set_then_Get 5 1 120 (editorOf abcdDoc 0 0)). lia. Defined.

(** ** [MakeConsistent] and the line operations on documents with gaps *)

Lemma makeConsistentLoop_lineAt (fuel : nat) (i : Z) (e e' : Editor) :
  makeConsistentLoop fuel i e = Done e' →
  ∀ k, lineAt (lines e') k = lineAt (lines e) k.
Proof.
  revert i e. induction fuel as [|fuel IH]; intros i e He k; [done|].
  simpl in He. destruct (i <? Z.of_nat (size (lines e))).
  - destruct (lines e !! i) eqn:Hi.
    + by apply (IH _ _ He).
    + rewrite (IH _ _ He). simpl. unfold lineAt.
      destruct (decide (k = i)) as [->|Hne].
      * by rewrite lookup_insert_eq, Hi.
      * by rewrite lookup_insert_ne.
  - by injection He as <-.
Qed.

Lemma makeConsistentLoop_Done_dense (fuel : nat) (i : Z) (e e' : Editor) :
  0 ≤ i → (∀ k, 0 ≤ k < i → is_Some (lines e !! k)) →
  makeConsistentLoop fuel i e = Done e' → dense (lines e').
Proof.
  revert i e. induction fuel as [|fuel IH]; intros i e Hi Hlow He; [done|].
  simpl in He. destruct (Z.ltb_spec i (Z.of_nat (size (lines e)))) as [Hlt|Hge].
  - destruct (lines e !! i) eqn:Hl.
    + apply (IH (i + 1) e); [lia| |done].
      intros k Hk. destruct (decide (k = i)) as [->|]; [by rewrite Hl|apply Hlow; lia].
    + apply (IH (i + 1) _ ltac:(lia)) in He; [done|]. simpl.
      intros k Hk. destruct (decide (k = i)) as [->|Hne]; [by rewrite lookup_insert_eq|].
      rewrite lookup_insert_ne by done. apply Hlow. lia.
  - injection He as <-.
    pose proof (size_lower_bound (lines e) i Hi Hlow) as Hsz.
    assert (i = Z.of_nat (size (lines e))) as Heq by lia.
    intros k. split; [|intros Hk; apply Hlow; lia].
    intros Hs. destruct (decide (0 ≤ k < i)) as [|Hout]; [lia|].
    pose proof (size_lower_bound_extra (lines e) i k Hi Hlow Hs Hout). lia.
Qed.

Lemma MakeConsistent_Done_dense (fuel : nat) (e e' : Editor) :
  MakeConsistent fuel e = Done e' → dense (lines e').
Proof. apply makeConsistentLoop_Done_dense; [lia|]. intros k Hk. lia. Qed.

Lemma dense_nonNegative (ls : Lines) : dense ls → nonNegative ls.
Proof. intros Hd k Hs. apply Hd in Hs. lia. Qed.

Lemma dense_Len (e : Editor) : dense (lines e) → lines e ≠ ∅ → Len e = Z.of_nat (size (lines e)).
Proof.
  intros Hd Hne. pose proof (keysAre_nonempty _ _ Hd Hne).
  unfold Len. rewrite (keysAre_maxKey _ (Z.of_nat (size (lines e)))); [lia|lia|done].
Qed.

Lemma Len_pos (e : Editor) : 1 ≤ Len e.
Proof. unfold Len. pose proof (maxKey_spec (lines e)). lia. Qed.

Lemma size_le_Len (e : Editor) : dense (lines e) → Z.of_nat (size (lines e)) ≤ Len e.
Proof.
  intros Hd. destruct (decide (lines e = ∅)) as [Hem|Hne].
  - rewrite Hem, map_size_empty. pose proof (Len_pos e). lia.
  - rewrite dense_Len by done. lia.
Qed.

Lemma MakeConsistent_total (fuel : nat) (e : Editor) :
  nonNegative (lines e) → (Z.to_nat (Len e) < fuel)%nat →
  ∃ e', MakeConsistent fuel e = Done e'
        ∧ dense (lines e')
        ∧ (∀ k, lineAt (lines e') k = lineAt (lines e) k)
        ∧ Len e' = Len e
        ∧ (lines e = ∅ → e' = e)
        ∧ (lines e ≠ ∅ → keysAre (lines e') (Len e)).
Proof.
  intros Hnn Hf. destruct (decide (lines e = ∅)) as [Hem|Hne].
  - exists e. split_and!; try done.
    + unfold MakeConsistent. destruct fuel; [lia|]. simpl. by rewrite Hem, map_size_empty.
    + rewrite Hem. intros k. rewrite lookup_empty, map_size_empty. split; [by intros [? ?]|lia].
  - destruct (MakeConsistent_fills fuel e Hnn Hne Hf) as (e' & He' & Hk & Hl).
    pose proof (Len_pos e).
    exists e'. split_and!; try done.
    + apply (keysAre_dense _ (Len e)); [lia|done].
    + unfold Len at 1. rewrite (keysAre_maxKey _ (Len e)); [lia|lia|done].
Qed.

(** A document given by its insertions has no negative index when the
    check, which can be computed, says so. *)
Lemma nonNegative_check (ls : Lines) :
  bool_decide (map_Forall (fun k (_ : list rune) => 0 ≤ k) ls) = true → nonNegative ls.
Proof.
  intros Hc%bool_decide_eq_true_1 k [l Hl]. by apply (Hc k l).
Qed.

(** X2: on a document without a negative index, [MakeConsistent]
    terminates within [Len] + 1 turns of its loop and stores an empty line
    under every missing index below the highest one: the indices are then
    exactly 0..[Len]-1, every line reads as before, and [Len] is unchanged.
    An empty document stays empty (its [Len] is 1, yet line 0 is not
    created). *)
Theorem MakeConsistent_fills_gaps (fuel : nat) (e : Editor) :
  nonNegative (lines e) → (Z.to_nat (Len e) < fuel)%nat →
  ∃ e', MakeConsistent fuel e = Done e'
        ∧ dense (lines e')
        ∧ (∀ k, lineAt (lines e') k = lineAt (lines e) k)
        ∧ Len e' = Len e
        ∧ (lines e = ∅ → e' = e)
        ∧ (lines e ≠ ∅ → keysAre (lines e') (Len e)).
Proof. apply MakeConsistent_total. Qed.

Lemma MakeConsistent_fills_gaps_witness :
  ∃ e', MakeConsistent 4 (editorOf gapDoc 0 0) = Done e'
        ∧ dense (lines e')
        ∧ (∀ k, lineAt (lines e') k = lineAt gapDoc k)
        ∧ Len e' = 3.
Proof.
  destruct (MakeConsistent_fills_gaps 4 (editorOf gapDoc 0 0))
    as (e' & He' & Hd & Hl & HL & _).
  - exact gapDoc_keys.
  - vm_compute. lia.
  - exists e'. split; [exact He'|]. split; [exact Hd|]. split; [exact Hl|].
    rewrite HL. vm_compute. reflexivity.
Defined.

Lemma makeConsistentLoop_negative (fuel : nat) (i m : Z) (e : Editor) :
  m < 0 → is_Some (lines e !! m) → 0 ≤ i →
  (∀ k, 0 ≤ k < i → is_Some (lines e !! k)) →
  makeConsistentLoop fuel i e = OutOfFuel.
Proof.
  intros Hm. revert i e. induction fuel as [|fuel IH]; intros i e Hs Hi Hlow; [done|].
  simpl.
  pose proof (size_lower_bound_extra (lines e) i m Hi Hlow Hs ltac:(lia)).
  destruct (Z.ltb_spec i (Z.of_nat (size (lines e)))) as [Hlt|Hge]; [|lia].
  destruct (lines e !! i) eqn:Hl.
  - apply IH; [done|lia|].
    intros k Hk. destruct (decide (k = i)) as [->|]; [by rewrite Hl|apply Hlow; lia].
  - apply IH; simpl; [|lia|].
    + rewrite lookup_insert_ne by lia. done.
    + intros k Hk. destruct (decide (k = i)) as [->|Hne]; [by rewrite lookup_insert_eq|].
      rewrite lookup_insert_ne by done. apply Hlow. lia.
Qed.

(** X3: when a line is stored under a negative index, the loop of
    [MakeConsistent] never ends: the number of lines it compares its
    counter with stays ahead of the counter, so every turn adds a line or
    moves on, whatever the number of turns allowed. *)
Theorem MakeConsistent_negative_index (fuel : nat) (m : Z) (e : Editor) :
  m < 0 → is_Some (lines e !! m) → MakeConsistent fuel e = OutOfFuel.
Proof.
  intros Hm Hs. apply (makeConsistentLoop_negative fuel 0 m); [done|done|lia|]. intros k Hk. lia.
Qed.

Lemma MakeConsistent_negative_index_witness :
  MakeConsistent 1000 (editorOf negDoc 0 0) = OutOfFuel.
Proof.
  apply (MakeConsistent_negative_index 1000 (-1) (editorOf negDoc 0 0)).
  - lia.
  - simpl. unfold negDoc. rewrite lookup_insert_eq. eauto.
Defined.

Lemma skipTrailing_lineAt (k : nat) (y : Z) (ls : Lines) (j : Z) :
  lineAt (skipTrailing k y ls) j = lineAt ls j.
Proof.
  revert ls. induction k as [|k IH]; intros ls; [done|].
  cbn [skipTrailing]. destruct (len (lineAt ls (y + Z.of_nat (S k))) =? 0) eqn:Hz; [|done].
  rewrite IH. apply len_zero_nil in Hz. unfold lineAt in *.
  destruct (decide (j = y + Z.of_nat (S k))) as [->|Hne].
  - by rewrite lookup_delete_eq, Hz.
  - by rewrite lookup_delete_ne.
Qed.

Lemma skipTrailing_subset (k : nat) (y : Z) (ls : Lines) (j : Z) :
  is_Some (skipTrailing k y ls !! j) → is_Some (ls !! j).
Proof.
  revert ls. induction k as [|k IH]; intros ls; [done|].
  cbn [skipTrailing]. destruct (len (lineAt ls (y + Z.of_nat (S k))) =? 0); [|done].
  intros Hs%IH. destruct (decide (j = y + Z.of_nat (S k))) as [->|Hne].
  - rewrite lookup_delete_eq in Hs. by destruct Hs.
  - by rewrite lookup_delete_ne in Hs.
Qed.

Lemma insertBlankAfter_lineAt (y : Z) (ls : Lines) (j : Z) :
  lineAt (insertBlankAfter y ls) j
  = if j <=? y then lineAt ls j else if j =? y + 1 then [] else lineAt ls (j - 1).
Proof.
  unfold lineAt. rewrite insertBlankAfter_lookup. unfold blankAfterSpec.
  destruct (Z.ltb_spec j y), (Z.leb_spec j y); try lia; try done.
  - destruct (Z.eqb_spec j y) as [->|]; [done|lia].
  - destruct (Z.eqb_spec j y); [lia|].
    destruct (Z.eqb_spec j (y + 1)); [|done]. by destruct (ls !! y).
Qed.

Lemma insertBlankAfter_keys (y : Z) (ls : Lines) (j : Z) :
  is_Some (insertBlankAfter y ls !! j) → is_Some (ls !! j) ∨ is_Some (ls !! (j - 1)).
Proof.
  rewrite insertBlankAfter_lookup. unfold blankAfterSpec.
  destruct (Z.ltb_spec j y); [by left|].
  destruct (Z.eqb_spec j y) as [->|]; [by left|].
  destruct (Z.eqb_spec j (y + 1)) as [->|]; [|by right].
  replace (y + 1 - 1) with y by lia. destruct (ls !! y); [by right|]. by intros [? ?].
Qed.

Lemma insertBlankAfter_nonNegative (y : Z) (ls : Lines) :
  nonNegative ls → nonNegative (insertBlankAfter y ls).
Proof.
  intros Hnn j [Hs|Hs]%insertBlankAfter_keys; apply Hnn in Hs; lia.
Qed.

Lemma maxKey_le (ls : Lines) (m : Z) :
  0 ≤ m → (∀ k, is_Some (ls !! k) → k ≤ m) → maxKey ls ≤ m.
Proof.
  intros Hm Hk. destruct (maxKey_spec ls) as (_ & _ & [->|Hs]); [done|]. by apply Hk.
Qed.

Lemma insertBlankAfter_maxKey (y : Z) (ls : Lines) :
  maxKey (insertBlankAfter y ls) ≤ maxKey ls + 1.
Proof.
  destruct (maxKey_spec ls) as (H0 & Hmax & _).
  apply maxKey_le; [lia|]. intros k [Hs|Hs]%insertBlankAfter_keys; apply Hmax in Hs; lia.
Qed.

Lemma skipTrailing_maxKey (k : nat) (y : Z) (ls : Lines) :
  maxKey (skipTrailing k y ls) ≤ maxKey ls.
Proof.
  destruct (maxKey_spec ls) as (H0 & Hmax & _).
  apply maxKey_le; [lia|]. intros j Hs%skipTrailing_subset. by apply Hmax.
Qed.

Lemma MakeConsistent_changed (fuel : nat) (e e' : Editor) :
  MakeConsistent fuel e = Done e' → changed e = true → changed e' = true.
Proof. intros He. by apply (makeConsistentLoop_fields _ _ _ _ He). Qed.

Lemma MakeConsistent_pos (fuel : nat) (e e' : Editor) :
  MakeConsistent fuel e = Done e' →
  pos e' = pos e ∧ drawMode e' = drawMode e ∧ wordWrapAt e' = wordWrapAt e.
Proof. intros He. destruct (makeConsistentLoop_fields _ _ _ _ He) as (? & ? & ? & _). done. Qed.

Lemma InsertLineBelowAt_lines (fuel : nat) (y : Z) (e : Editor) :
  nonNegative (lines e) → (Z.to_nat (Len e) + 1 < fuel)%nat →
  ∃ e', InsertLineBelowAt fuel y e = Done e'
        ∧ dense (lines e')
        ∧ changed e' = true
        ∧ pos e' = pos e
        ∧ (∀ j, lineAt (lines e') j
                = if j <=? y then lineAt (lines e) j
                  else if j =? y + 1 then [] else lineAt (lines e) (j - 1)).
Proof.
  intros Hnn Hf. unfold InsertLineBelowAt.
  destruct (MakeConsistent_total fuel e Hnn ltac:(lia)) as (e0 & He0 & Hd0 & Hl0 & HL0 & _).
  destruct (MakeConsistent_pos _ _ _ He0) as (Hp0 & _).
  rewrite He0. cbn [mbind Res_bind].
  set (n := Z.of_nat (size (lines e0))) in *.
  destruct (Z.eqb_spec y (n - 1)) as [Hy|Hy].
  - eexists. split; [done|]. simpl. split_and!; [|done|done|].
    + apply (keysAre_dense _ (n + 1)); [lia|]. intros k.
      destruct (decide (k = y + 1)) as [->|Hk].
      * rewrite lookup_insert_eq. split; [lia|eauto].
      * rewrite lookup_insert_ne by done. rewrite (Hd0 k). fold n. lia.
    + intros j. unfold lineAt at 1. destruct (Z.leb_spec j y).
      * rewrite lookup_insert_ne by lia. apply Hl0.
      * destruct (Z.eqb_spec j (y + 1)) as [->|Hne]; [by rewrite lookup_insert_eq|].
        rewrite lookup_insert_ne by done.
        rewrite (keysAre_absent _ n j Hd0) by lia. simpl.
        rewrite <- Hl0. symmetry. apply lineAt_absent.
        apply (keysAre_absent _ n); [done|lia].
  - set (e1 := set_lines (insertBlankAfter y (lines e0)) e0).
    assert (nonNegative (lines e1)) as Hnn1
        by (apply insertBlankAfter_nonNegative, dense_nonNegative, Hd0).
    assert (Len e1 ≤ Len e + 1) as HL1.
    { rewrite <- HL0. unfold Len, e1. simpl. pose proof (insertBlankAfter_maxKey y (lines e0)). lia. }
    destruct (MakeConsistent_total fuel e1 Hnn1 ltac:(lia)) as (e2 & He2 & Hd2 & Hl2 & HL2 & _).
    destruct (MakeConsistent_pos _ _ _ He2) as (Hp2 & _).
    rewrite He2. cbn [mbind Res_bind].
    set (e3 := set_changed true
                 (set_lines (skipTrailing (Z.to_nat (Z.of_nat (size (lines e2)) - y)) y
                               (lines e2)) e2)).
    assert (nonNegative (lines e3)) as Hnn3.
    { intros k Hs%skipTrailing_subset. by apply (dense_nonNegative _ Hd2). }
    assert (Len e3 ≤ Len e2) as HL3.
    { unfold Len, e3. simpl. pose proof (skipTrailing_maxKey
        (Z.to_nat (Z.of_nat (size (lines e2)) - y)) y (lines e2)). lia. }
    destruct (MakeConsistent_total fuel e3 Hnn3 ltac:(lia)) as (e4 & He4 & Hd4 & Hl4 & _).
    destruct (MakeConsistent_pos _ _ _ He4) as (Hp4 & _).
    exists e4. split; [exact He4|]. split_and!; [done| | |].
    + by apply (MakeConsistent_changed _ _ _ He4).
    + rewrite Hp4. simpl. rewrite Hp2. simpl. done.
    + intros j. rewrite Hl4. simpl. rewrite skipTrailing_lineAt, Hl2. simpl.
      rewrite insertBlankAfter_lineAt, !Hl0. done.
Qed.

(** X4: on a document without a negative index, [InsertLineBelowAt y]
    terminates and, read line by line, inserts one empty line after line
    [y]: the lines up to [y] read as before, line [y + 1] reads empty and
    every later line reads as the line one index before it did.  The
    result has no gaps, is marked as changed, and the cursor is where it
    was.  (Empty lines at the end of the document may be dropped: they
    read as empty either way.) *)
Theorem InsertLineBelowAt_blank_line_below (fuel : nat) (y : Z) (e : Editor) :
  nonNegative (lines e) → (Z.to_nat (Len e) + 1 < fuel)%nat →
  ∃ e', InsertLineBelowAt fuel y e = Done e'
        ∧ dense (lines e')
        ∧ changed e' = true
        ∧ pos e' = pos e
        ∧ (∀ j, lineAt (lines e') j
                = if j <=? y then lineAt (lines e) j
                  else if j =? y + 1 then [] else lineAt (lines e) (j - 1)).
Proof. apply InsertLineBelowAt_lines. Qed.

Lemma InsertLineBelowAt_blank_line_below_witness :
  ∃ e', InsertLineBelowAt 5 0 (editorOf gapDoc 0 0) = Done e'
        ∧ dense (lines e')
        ∧ lineAt (lines e') 0 = [97]
        ∧ lineAt (lines e') 1 = []
        ∧ lineAt (lines e') 3 = [97; 98; 99; 100; 101; 102; 32].
Proof.
  destruct (InsertLineBelowAt_blank_line_below 5 0 (editorOf gapDoc 0 0))
    as (e' & He' & Hd & _ & _ & Hl).
  - exact gapDoc_keys.
  - vm_compute. lia.
  - exists e'. split; [exact He'|]. split; [exact Hd|].
    rewrite !Hl. repeat split; vm_compute; reflexivity.
Defined.

Lemma InsertLineAbove_lines (fuel : nat) (e : Editor) :
  nonNegative (lines e) → (Z.to_nat (Len e) + 1 < fuel)%nat →
  ∃ e', InsertLineAbove fuel e = Done e'
        ∧ dense (lines e')
        ∧ changed e' = true
        ∧ pos e' = pos e
        ∧ (∀ j, lineAt (lines e') j
                = if j <? DataY e then lineAt (lines e) j
                  else if j =? DataY e then [] else lineAt (lines e) (j - 1)).
Proof.
  intros Hnn Hf. unfold InsertLineAbove. set (y := DataY e).
  set (e1 := set_lines (insertBlankAfter (y - 1) (lines e)) e).
  assert (nonNegative (lines e1)) as Hnn1 by (by apply insertBlankAfter_nonNegative).
  assert (Len e1 ≤ Len e + 1) as HL1.
  { unfold Len, e1. simpl. pose proof (insertBlankAfter_maxKey (y - 1) (lines e)). lia. }
  destruct (MakeConsistent_total fuel e1 Hnn1 ltac:(lia)) as (e2 & He2 & Hd2 & Hl2 & HL2 & _).
  destruct (MakeConsistent_pos _ _ _ He2) as (Hp2 & _).
  rewrite He2. cbn [mbind Res_bind].
  set (e3 := set_changed true
               (set_lines (skipTrailing (Z.to_nat (Z.of_nat (size (lines e2)) - y)) y
                             (lines e2)) e2)).
  assert (nonNegative (lines e3)) as Hnn3.
  { intros k Hs%skipTrailing_subset. by apply (dense_nonNegative _ Hd2). }
  assert (Len e3 ≤ Len e2) as HL3.
  { unfold Len, e3. simpl. pose proof (skipTrailing_maxKey
      (Z.to_nat (Z.of_nat (size (lines e2)) - y)) y (lines e2)). lia. }
  destruct (MakeConsistent_total fuel e3 Hnn3 ltac:(lia)) as (e4 & He4 & Hd4 & Hl4 & _).
  destruct (MakeConsistent_pos _ _ _ He4) as (Hp4 & _).
  exists e4. split; [exact He4|]. split_and!; [done| | |].
  - by apply (MakeConsistent_changed _ _ _ He4).
  - rewrite Hp4. simpl. rewrite Hp2. done.
  - intros j. rewrite Hl4. simpl. rewrite skipTrailing_lineAt, Hl2. simpl.
    rewrite insertBlankAfter_lineAt.
    destruct (Z.leb_spec j (y - 1)), (Z.ltb_spec j y); try lia; [done|].
    by replace (y - 1 + 1) with y by lia.
Qed.

(** X5: on a document without a negative index, [InsertLineAbove]
    terminates and, read line by line, inserts one empty line at the row of
    the cursor: the lines above read as before, the line at the cursor
    reads empty and every later line reads as the line one index before it
    did.  The cursor is not moved, so it is on the new line. *)
Theorem InsertLineAbove_blank_line_at_cursor (fuel : nat) (e : Editor) :
  nonNegative (lines e) → (Z.to_nat (Len e) + 1 < fuel)%nat →
  ∃ e', InsertLineAbove fuel e = Done e'
        ∧ dense (lines e')
        ∧ changed e' = true
        ∧ pos e' = pos e
        ∧ (∀ j, lineAt (lines e') j
                = if j <? DataY e then lineAt (lines e) j
                  else if j =? DataY e then [] else lineAt (lines e) (j - 1)).
Proof. apply InsertLineAbove_lines. Qed.

Lemma InsertLineAbove_blank_line_at_cursor_witness :
  ∃ e', InsertLineAbove 5 (editorOf abcdDoc 0 1) = Done e'
        ∧ lineAt (lines e') 0 = [97; 98]
        ∧ lineAt (lines e') 1 = []
        ∧ lineAt (lines e') 2 = [99; 100].
Proof.
  destruct (InsertLineAbove_blank_line_at_cursor 5 (editorOf abcdDoc 0 1))
    as (e' & He' & _ & _ & _ & Hl).
  - apply dense_nonNegative, abcdDoc_dense.
  - vm_compute. lia.
  - exists e'. split; [exact He'|].
    rewrite !Hl. repeat split; vm_compute; reflexivity.
Defined.

Lemma lineAt_above_max (ls : Lines) (j : Z) : maxKey ls < j → lineAt ls j = [].
Proof.
  intros Hj. apply lineAt_absent, eq_None_not_Some. intros Hs.
  destruct (maxKey_spec ls) as (_ & Hmax & _). apply Hmax in Hs. lia.
Qed.

Lemma DeleteLine_lines (fuel : nat) (n : Z) (e : Editor) :
  nonNegative (lines e) → 0 ≤ n < Len e - 1 → (Z.to_nat (Len e) < fuel)%nat →
  ∃ e', DeleteLine fuel n e = Done e'
        ∧ dense (lines e')
        ∧ changed e' = true
        ∧ pos e' = pos e
        ∧ Len e' = Len e - 1
        ∧ (∀ j, lineAt (lines e') j
                = if j <? n then lineAt (lines e) j else lineAt (lines e) (j + 1)).
Proof.
  intros Hnn Hn Hf. unfold DeleteLine.
  destruct (Z.leb_spec (Len e - 1) n) as [|_]; [lia|].
  destruct (maxIndexOf_spec (lines e)) as [Hfst Hsnd].
  destruct (maxIndexOf (lines e)) as [M found]. simpl in Hfst, Hsnd. subst M.
  set (M := maxKey (lines e)) in *. unfold Len in Hn, Hf. fold M in Hn, Hf.
  assert (found = true) as -> by (apply Hsnd; lia). simpl.
  destruct (maxKey_spec (lines e)) as (_ & Hmax & [HM0|[lM HlM]]); [fold M in HM0; lia|].
  fold M in HlM. rewrite HlM.
  set (ls' := delete M (shiftUp (Z.to_nat (M - n)) n (lines e))).
  set (e1 := set_changed true (set_lines ls' e)).
  assert (∀ k, ls' !! k = if k =? M then None
                          else if (n <=? k) && (k <? M) then Some (lineAt (lines e) (k + 1))
                               else lines e !! k) as Hlk.
  { intros k. unfold ls'. destruct (Z.eqb_spec k M) as [->|Hne].
    - by rewrite lookup_delete_eq.
    - rewrite lookup_delete_ne by done. rewrite shiftUp_lookup.
      by replace (n + Z.of_nat (Z.to_nat (M - n))) with M by lia. }
  assert (nonNegative (lines e1)) as Hnn1.
  { intros k. simpl. rewrite Hlk. destruct (Z.eqb_spec k M); [by intros [? ?]|].
    destruct ((n <=? k) && (k <? M)) eqn:Hc.
    - apply andb_true_iff in Hc as [H1%Z.leb_le _]. lia.
    - apply Hnn. }
  assert (maxKey ls' = M - 1) as HM'.
  { apply maxKey_highest; [lia| |].
    - rewrite Hlk. destruct (Z.eqb_spec (M - 1) M); [lia|].
      destruct (Z.leb_spec n (M - 1)); [|lia]. destruct (Z.ltb_spec (M - 1) M); [|lia].
      simpl. eauto.
    - intros k. rewrite Hlk. destruct (Z.eqb_spec k M); [by intros [? ?]|].
      destruct ((n <=? k) && (k <? M)) eqn:Hc.
      + apply andb_true_iff in Hc as [_ H2%Z.ltb_lt]. lia.
      + intros Hs%Hmax. fold M in Hs. lia. }
  assert (Len e1 = M) as HL1 by (unfold Len, e1; simpl; lia).
  destruct (MakeConsistent_total fuel e1 Hnn1 ltac:(lia)) as (e2 & He2 & Hd2 & Hl2 & HL2 & _).
  exists e2. split; [exact He2|]. split_and!; [done| | | |].
  - by apply (MakeConsistent_changed _ _ _ He2).
  - by destruct (MakeConsistent_pos _ _ _ He2) as (-> & _).
  - rewrite HL2, HL1. unfold Len. fold M. lia.
  - intros j. rewrite Hl2. simpl. unfold lineAt at 1. rewrite Hlk.
    destruct (Z.eqb_spec j M) as [->|Hne].
    + destruct (Z.ltb_spec M n); [lia|]. simpl. symmetry. apply lineAt_above_max. fold M. lia.
    + destruct (Z.leb_spec n j), (Z.ltb_spec j M), (Z.ltb_spec j n); simpl; try lia; try done.
      fold (lineAt (lines e) j). rewrite !lineAt_above_max by (fold M; lia). done.
Qed.

(** X6: on a document without a negative index, [DeleteLine n] for a line
    before the last one terminates and moves every later line up by one:
    the lines before [n] read as before, every line from [n] on reads as
    the line after it did, [Len] drops by one, and the document is marked
    as changed.  For the last line or an index beyond it, the entry is
    removed and nothing else happens: no line moves and the document is not
    marked as changed. *)
Theorem DeleteLine_moves_lines_up (fuel : nat) (n : Z) (e : Editor) :
  nonNegative (lines e) → 0 ≤ n → (Z.to_nat (Len e) < fuel)%nat →
  (n < Len e - 1 →
   ∃ e', DeleteLine fuel n e = Done e'
         ∧ dense (lines e')
         ∧ changed e' = true
         ∧ pos e' = pos e
         ∧ Len e' = Len e - 1
         ∧ (∀ j, lineAt (lines e') j
                 = if j <? n then lineAt (lines e) j else lineAt (lines e) (j + 1)))
  ∧ (Len e - 1 ≤ n → DeleteLine fuel n e = Done (set_lines (delete n (lines e)) e)).
Proof.
  intros Hnn Hn Hf. split.
  - intros Hlt. apply DeleteLine_lines; [done|lia|done].
  - intros Hge. unfold DeleteLine. by destruct (Z.leb_spec (Len e - 1) n); [|lia].
Qed.

Lemma DeleteLine_moves_lines_up_witness :
  ∃ e', DeleteLine 4 0 (editorOf gapDoc 0 0) = Done e'
        ∧ Len e' = 2
        ∧ lineAt (lines e') 0 = []
        ∧ lineAt (lines e') 1 = [97; 98; 99; 100; 101; 102; 32].
Proof.
  destruct (DeleteLine_moves_lines_up 4 0 (editorOf gapDoc 0 0)) as [Hmid _].
  - exact gapDoc_keys.
  - lia.
  - vm_compute. lia.
  - destruct Hmid as (e' & He' & _ & _ & _ & HL & Hl); [vm_compute; reflexivity|].
    exists e'. split; [exact He'|]. split; [rewrite HL; vm_compute; reflexivity|].
    rewrite !Hl. split; vm_compute; reflexivity.
Defined.

(** ** Typing and deleting at the cursor *)

Lemma DataX_text (e : Editor) :
  drawMode e = false → 0 ≤ sx (pos e) →
  DataX e = if sx (pos e) <? len (lineAt (lines e) (DataY e))
            then (sx (pos e), None)
            else (len (lineAt (lines e) (DataY e)), Some errAfterData).
Proof.
  intros Hd Hx. unfold DataX, DataY. rewrite Hd.
  set (l := lineAt (lines e) (offset (pos e) + sy (pos e))).
  destruct (Z.ltb_spec (sx (pos e)) (len l)).
  - rewrite dataXLoop_found by lia. f_equal. lia.
  - rewrite dataXLoop_past by lia. done.
Qed.

Lemma lineAt_insert (ls : Lines) (y j : Z) (l : list rune) :
  lineAt (<[y := l]> ls) j = if j =? y then l else lineAt ls j.
Proof.
  unfold lineAt. destruct (Z.eqb_spec j y) as [->|Hne].
  - by rewrite lookup_insert_eq.
  - by rewrite lookup_insert_ne.
Qed.

Lemma insert_nonNegative (ls : Lines) (y : Z) (l : list rune) :
  nonNegative ls → 0 ≤ y → nonNegative (<[y := l]> ls).
Proof.
  intros Hnn Hy k. destruct (decide (k = y)) as [->|Hne]; [done|].
  rewrite lookup_insert_ne by done. apply Hnn.
Qed.

Lemma insert_present_maxKey (ls : Lines) (y : Z) (l : list rune) :
  is_Some (ls !! y) → maxKey (<[y := l]> ls) = maxKey ls.
Proof.
  intros Hs. apply maxKey_same_keys. intros k.
  destruct (decide (k = y)) as [->|Hne].
  - rewrite lookup_insert_eq. split; eauto.
  - by rewrite lookup_insert_ne.
Qed.

(** X7: in text mode, on a document without a negative index, [Insert]
    on an existing line puts the rune at the cursor column, or at the end
    of the line when the cursor is beyond it: the runes before the column
    stay, the rune follows, then the rest of the line.  No other line
    changes, the gaps of the document are filled, and the document is
    marked as changed; the cursor is not moved. *)
Theorem Insert_at_cursor (fuel : nat) (r : rune) (e : Editor) (l : list rune) :
  drawMode e = false → nonNegative (lines e) →
  lines e !! DataY e = Some l → 0 ≤ sx (pos e) →
  (Z.to_nat (Len e) < fuel)%nat →
  ∃ e', Insert fuel r e = Done e'
        ∧ lineAt (lines e') (DataY e)
          = take (Z.to_nat (Z.min (sx (pos e)) (len l))) l
            ++ r :: drop (Z.to_nat (Z.min (sx (pos e)) (len l))) l
        ∧ (∀ j, j ≠ DataY e → lineAt (lines e') j = lineAt (lines e) j)
        ∧ dense (lines e') ∧ changed e' = true ∧ pos e' = pos e.
Proof.
  intros Hdm Hnn Hl Hx Hf. unfold Insert.
  assert (lineAt (lines e) (DataY e) = l) as Hly by (unfold lineAt; by rewrite Hl).
  rewrite DataX_text, Hly by done. rewrite Hl.
  set (p := Z.min (sx (pos e)) (len l)).
  assert (fst (if sx (pos e) <? len l then (sx (pos e), None)
               else (len l, Some errAfterData)) = p) as ->.
  { unfold p. destruct (Z.ltb_spec (sx (pos e)) (len l)); simpl; lia. }
  assert (0 ≤ p ≤ len l) as Hp by (unfold p; pose proof (len_nonneg l); lia).
  destruct (Z.ltb_spec (len l) p); [lia|]. destruct (Z.ltb_spec p 0); [lia|].
  set (e1 := set_changed true (set_lines (<[DataY e := _]> (lines e)) e)).
  assert (0 ≤ DataY e) as Hy by (apply Hnn; eauto).
  assert (nonNegative (lines e1)) as Hnn1 by (by apply insert_nonNegative).
  assert (Len e1 = Len e) as HL1.
  { unfold Len, e1. simpl. rewrite insert_present_maxKey; [done|eauto]. }
  destruct (MakeConsistent_total fuel e1 Hnn1 ltac:(lia)) as (e2 & He2 & Hd2 & Hl2 & _).
  destruct (MakeConsistent_pos _ _ _ He2) as (Hp2 & _).
  exists e2. split; [exact He2|]. split_and!; [| |done| |done].
  - rewrite Hl2. simpl. rewrite lineAt_insert. by rewrite Z.eqb_refl.
  - intros j Hj. rewrite Hl2. simpl. rewrite lineAt_insert.
    by destruct (Z.eqb_spec j (DataY e)).
  - by apply (MakeConsistent_changed _ _ _ He2).
Qed.

Lemma Insert_at_cursor_witness :
  ∃ e', Insert 4 120 (editorOf abcdDoc 1 0) = Done e'
        ∧ lineAt (lines e') 0 = [97; 120; 98]
        ∧ lineAt (lines e') 1 = [99; 100].
Proof.
  destruct (Insert_at_cursor 4 120 (editorOf abcdDoc 1 0) [97; 98])
    as (e' & He' & Hy & Hother & _).
  - reflexivity.
  - apply dense_nonNegative, abcdDoc_dense.
  - vm_compute. reflexivity.
  - vm_compute. discriminate.
  - vm_compute. lia.
  - exists e'. split; [exact He'|]. split; [exact Hy|].
    rewrite (Hother 1); [vm_compute; reflexivity|]. vm_compute. discriminate.
Defined.

(** X8: in text mode, [Delete] with the cursor on a rune that is not the
    last one of its line removes that rune and nothing else: the line is
    the runes before the cursor followed by the runes after it, every
    other line reads as before, and the cursor is not moved. *)
Theorem Delete_inside_line (fuel : nat) (e : Editor) (l : list rune) :
  drawMode e = false → nonNegative (lines e) →
  lines e !! DataY e = Some l → 0 ≤ sx (pos e) < len l - 1 →
  (Z.to_nat (Len e) < fuel)%nat →
  ∃ e', Delete fuel e = Done e'
        ∧ lineAt (lines e') (DataY e)
          = take (Z.to_nat (sx (pos e))) l ++ drop (Z.to_nat (sx (pos e) + 1)) l
        ∧ (∀ j, j ≠ DataY e → lineAt (lines e') j = lineAt (lines e) j)
        ∧ dense (lines e') ∧ changed e' = true ∧ pos e' = pos e.
Proof.
  intros Hdm Hnn Hl Hx Hf. unfold Delete.
  assert (lineAt (lines e) (DataY e) = l) as Hly by (unfold lineAt; by rewrite Hl).
  rewrite Hly. rewrite bool_decide_eq_false_2 by (by rewrite Hl).
  destruct (Z.eqb_spec (len l) 0); [lia|]. destruct (Z.eqb_spec (len l) 1); [lia|].
  cbn [orb andb].
  rewrite DataX_text, Hly by (done || lia).
  destruct (Z.ltb_spec (sx (pos e)) (len l)); [|lia].
  rewrite bool_decide_eq_false_2 by (intros Hne; by apply Hne).
  destruct (Z.leb_spec (len l - 1) (sx (pos e))); [lia|]. cbn [orb].
  unfold sliceTo, sliceFrom.
  destruct (Z.ltb_spec (sx (pos e)) 0); [lia|].
  destruct (Z.ltb_spec (len l) (sx (pos e))); [lia|].
  destruct (Z.ltb_spec (sx (pos e) + 1) 0); [lia|].
  destruct (Z.ltb_spec (len l) (sx (pos e) + 1)); [lia|].
  cbn [orb mbind Res_bind].
  set (e1 := set_changed true (set_lines (<[DataY e := _]> (lines e)) e)).
  assert (0 ≤ DataY e) as Hy by (apply Hnn; eauto).
  assert (nonNegative (lines e1)) as Hnn1 by (by apply insert_nonNegative).
  assert (Len e1 = Len e) as HL1.
  { unfold Len, e1. simpl. rewrite insert_present_maxKey; [done|eauto]. }
  destruct (MakeConsistent_total fuel e1 Hnn1 ltac:(lia)) as (e2 & He2 & Hd2 & Hl2 & _).
  destruct (MakeConsistent_pos _ _ _ He2) as (Hp2 & _).
  exists e2. split; [exact He2|]. split_and!; [| |done| |done].
  - rewrite Hl2. simpl. rewrite lineAt_insert. by rewrite Z.eqb_refl.
  - intros j Hj. rewrite Hl2. simpl. rewrite lineAt_insert.
    by destruct (Z.eqb_spec j (DataY e)).
  - by apply (MakeConsistent_changed _ _ _ He2).
Qed.

Lemma Delete_inside_line_witness :
  ∃ e', Delete 4 (editorOf abcDoc 1 0) = Done e'
        ∧ lineAt (lines e') 0 = [97; 99].
Proof.
  destruct (Delete_inside_line 4 (editorOf abcDoc 1 0) [97; 98; 99])
    as (e' & He' & Hy & _).
  - reflexivity.
  - apply nonNegative_check. vm_compute. reflexivity.
  - vm_compute. reflexivity.
  - vm_compute. split; [discriminate|reflexivity].
  - vm_compute. lia.
  - exists e'. split; [exact He'|exact Hy].
Defined.



(** ** Trimming and wrapping *)

(** X10: on a line that holds a rune other than white space, [TrimRight]
    removes exactly the white space after the last such rune; it keeps the
    entry, leaves every other line alone, marks the document as changed,
    and a second [TrimRight] changes nothing more. *)
Theorem TrimRight_strips_content_line (n : Z) (e : Editor) (l : list rune) :
  lines e !! n = Some l → hasContent l = true →
  ∃ p c ws, l = p ++ c :: ws ∧ IsSpace c = false
            ∧ Forall (fun r => IsSpace r = true) ws
            ∧ lines (TrimRight n e) !! n = Some (p ++ [c])
            ∧ (∀ k, k ≠ n → lines (TrimRight n e) !! k = lines e !! k)
            ∧ changed (TrimRight n e) = true
            ∧ TrimRight n (TrimRight n e) = TrimRight n e.
Proof.
  intros Hl Hc. destruct (last_content_split l Hc) as (p & c & ws & -> & Hcs & Hws).
  exists p, c, ws. split_and!; try done.
  - rewrite (TrimRight_lookup n e _ Hl). by rewrite trimRightLine_trims.
  - intros k Hk. by apply TrimRight_lookup_ne.
  - unfold TrimRight. by rewrite Hl.
  - unfold TrimRight at 1. rewrite (TrimRight_lookup n e _ Hl).
    unfold TrimRight. rewrite Hl. unfold set_changed, set_lines. simpl.
    rewrite insert_insert_eq. by rewrite trimRightLine_idem.
Qed.

Lemma TrimRight_strips_content_line_witness :
  ∃ p c ws, [97; 32; 32] = p ++ c :: ws ∧ IsSpace c = false
            ∧ lines (TrimRight 0 (editorOf aSpacesDoc 0 0)) !! 0 = Some (p ++ [c]).
Proof.
  destruct (TrimRight_strips_content_line 0 (editorOf aSpacesDoc 0 0) [97; 32; 32])
    as (p & c & ws & Hl & Hc & _ & Hr & _).
  - vm_compute. reflexivity.
  - vm_compute. reflexivity.
  - exists p, c, ws. split; [exact Hl|]. split; [exact Hc|exact Hr].
Defined.

Lemma findSpaceLeft_spec (l : list rune) (k : nat) :
  findSpaceLeft l k = -1
  ∨ (0 ≤ findSpaceLeft l k < Z.of_nat k ∧ findSpaceLeft l k < len l
     ∧ IsSpace (nth (Z.to_nat (findSpaceLeft l k)) l 0) = true).
Proof.
  induction k as [|k IH]; [by left|]. cbn [findSpaceLeft].
  destruct ((Z.of_nat k <? len l) && IsSpace (nth k l 0)) eqn:Hc.
  - right. apply andb_true_iff in Hc as [H1%Z.ltb_lt H2].
    rewrite Nat2Z.id. split_and!; try lia. done.
  - destruct IH as [->|(H1 & H2 & H3)]; [by left|right]. split_and!; try lia. done.
Qed.

(** X11: for a line at or over the limit (and a limit that is not
    negative), [SplitOvershoot] without the space flag returns two parts
    that lose no text: the line is the first part followed by the second,
    with at most one white space rune dropped between them.  The first part
    is at most [wordWrapAt] runes long and at least [wordWrapAt] minus
    half of it: a space further to the left is not used for the split. *)
Theorem SplitOvershoot_parts (y : Z) (e : Editor) :
  0 ≤ wordWrapAt e → WithinLimit y e = false →
  ∃ first second,
    SplitOvershoot y false e = Done (first, second)
    ∧ wordWrapAt e - Z.quot (wordWrapAt e) 2 ≤ len first ≤ wordWrapAt e
    ∧ (lineAt (lines e) y = first ++ second
       ∨ ∃ s, IsSpace s = true ∧ lineAt (lines e) y = first ++ s :: second).
Proof.
  intros Hw Hlim. unfold SplitOvershoot. rewrite Hlim.
  set (l := lineAt (lines e) y). set (w := wordWrapAt e) in *.
  assert (w ≤ len l) as Hlen by (unfold WithinLimit in Hlim; apply Z.ltb_ge in Hlim; done).
  set (n := if negb (findSpaceLeft l (Z.to_nat (w + 1)) =? -1)
            then if Z.quot w 2 <? w - findSpaceLeft l (Z.to_nat (w + 1))
                 then w else findSpaceLeft l (Z.to_nat (w + 1))
            else w).
  assert (w - Z.quot w 2 ≤ n ≤ w ∧ 0 ≤ n ≤ len l) as (Hn & Hn').
  { assert (0 ≤ Z.quot w 2 ≤ w) by (split; [apply Z.quot_pos; lia|apply Z.quot_le_upper_bound; lia]).
    unfold n. destruct (findSpaceLeft_spec l (Z.to_nat (w + 1))) as [->|(H1 & H2 & H3)]; simpl; [lia|].
    destruct (Z.eqb_spec (findSpaceLeft l (Z.to_nat (w + 1))) (-1)); simpl; [lia|].
    destruct (Z.ltb_spec (Z.quot w 2) (w - findSpaceLeft l (Z.to_nat (w + 1)))); lia. }
  unfold sliceTo, sliceFrom.
  destruct (Z.ltb_spec n 0); [lia|]. destruct (Z.ltb_spec (len l) n); [lia|].
  cbn [orb mbind Res_bind].
  eexists _, _. split; [reflexivity|]. split.
  - unfold len in *. rewrite length_take. lia.
  - destruct (drop (Z.to_nat n) l) as [|s rest] eqn:Hdrop.
    + left. simpl. rewrite <- Hdrop. by rewrite take_drop.
    + destruct (IsSpace s) eqn:Hs.
      * right. exists s. split; [done|].
        unfold len. cbn [length nth]. rewrite Hs. simpl.
        rewrite drop_0. rewrite <- Hdrop. by rewrite take_drop.
      * left. unfold len. cbn [length nth]. rewrite Hs, andb_false_r.
        rewrite <- Hdrop. by rewrite take_drop.
Qed.

Lemma SplitOvershoot_parts_witness :
  ∃ first second,
    SplitOvershoot 0 false (editorWith spacedDoc 4 0 0) = Done (first, second)
    ∧ 2 ≤ len first ≤ 4
    ∧ (lineAt spacedDoc 0 = first ++ second
       ∨ ∃ s, IsSpace s = true ∧ lineAt spacedDoc 0 = first ++ s :: second).
Proof.
  apply (SplitOvershoot_parts 0 (editorWith spacedDoc 4 0 0)).
  - vm_compute. discriminate.
  - vm_compute. reflexivity.
Defined.

Lemma wrapLoop_within (fuel0 fuel : nat) (i : Z) (wrapped : bool) (e : Editor) :
  (∀ j, i ≤ j < Len e → WithinLimit j e = true) →
  (Z.to_nat (Len e - i) < fuel)%nat →
  wrapLoop fuel0 fuel i wrapped e = Done (wrapped, e).
Proof.
  revert i. induction fuel as [|fuel IH]; intros i Hw Hf; [lia|].
  cbn [wrapLoop]. destruct (Z.ltb_spec i (Len e)) as [Hlt|Hge]; [|done].
  rewrite (Hw i) by lia. apply IH; [|lia]. intros j Hj. apply Hw. lia.
Qed.

Lemma wrapLoop_true (fuel0 fuel : nat) (i : Z) (e e' : Editor) (b : bool) :
  wrapLoop fuel0 fuel i true e = Done (b, e') → b = true.
Proof.
  revert i e. induction fuel as [|fuel IH]; intros i e He; [done|].
  cbn [wrapLoop] in He. destruct (i <? Len e); [|by injection He as <- _].
  destruct (WithinLimit i e); [by apply IH in He|].
  destruct (SplitOvershoot i false e) as [[first second]| |]; try done.
  cbn [mbind Res_bind] in He.
  destruct ((0 <? len first) && (0 <? len second)); [|by apply IH in He].
  destruct (InsertLineBelowAt fuel0 i e); try done.
  cbn [mbind Res_bind] in He. by apply IH in He.
Qed.

Lemma wrapLoop_flag (fuel0 fuel : nat) (i : Z) (e e' : Editor) (b : bool) :
  wrapLoop fuel0 fuel i false e = Done (b, e') →
  (∃ j, i ≤ j < Len e ∧ WithinLimit j e = false) → b = true.
Proof.
  revert i. induction fuel as [|fuel IH]; intros i He (j & Hj & Hw); [done|].
  cbn [wrapLoop] in He. destruct (Z.ltb_spec i (Len e)); [|lia].
  destruct (WithinLimit i e) eqn:Hi.
  - apply (IH (i + 1) He). exists j. split; [|done].
    destruct (decide (j = i)) as [->|]; [congruence|lia].
  - destruct (SplitOvershoot i false e) as [[first second]| |]; try done.
    cbn [mbind Res_bind] in He.
    destruct ((0 <? len first) && (0 <? len second)); [|by apply wrapLoop_true in He].
    destruct (InsertLineBelowAt fuel0 i e); try done.
    cbn [mbind Res_bind] in He. by apply wrapLoop_true in He.
Qed.

(** X12: [WrapAllLinesAt] reports whether a line was at or over the
    limit.  When every line below [Len] is shorter than [wordWrapAt], it
    returns false and leaves the editor exactly as it was; and whenever it
    returns while some line below [Len] is at or over the limit, it
    returns true, also when no line could be split. *)
Theorem WrapAllLinesAt_reports_long_lines (fuel : nat) (n maxOvershoot : Z) (e : Editor) :
  (Z.to_nat (Len e) < fuel)%nat →
  ((∀ i, 0 ≤ i < Len e → WithinLimit i e = true) →
   WrapAllLinesAt fuel n maxOvershoot e = Done (false, e))
  ∧ (∀ b e', WrapAllLinesAt fuel n maxOvershoot e = Done (b, e') →
             (∃ i, 0 ≤ i < Len e ∧ WithinLimit i e = false) → b = true).
Proof.
  intros Hf. split.
  - intros Hw. apply wrapLoop_within; [done|]. by rewrite Z.sub_0_r.
  - intros b e'. apply wrapLoop_flag.
Qed.

Lemma WrapAllLinesAt_reports_long_lines_witness :
  WrapAllLinesAt 5 99 0 (editorOf abcdDoc 0 0) = Done (false, editorOf abcdDoc 0 0).
Proof.
  destruct (WrapAllLinesAt_reports_long_lines 5 99 0 (editorOf abcdDoc 0 0)) as [Hnone _].
  - vm_compute. lia.
  - apply Hnone. intros i Hi.
    replace (Len (editorOf abcdDoc 0 0)) with 2 in Hi by (vm_compute; reflexivity).
    assert (i = 0 ∨ i = 1) as [-> | ->] by lia; vm_compute; reflexivity.
Defined.

(** ** The icon codec *)

Lemma lookupRunes_range (r : rune) : 0 ≤ lookupRunes r ≤ 15.
Proof.
  unfold lookupRunes.
  repeat match goal with |- context [?a =? ?b] => destruct (a =? b) end; lia.
Qed.

Lemma drawPixel_lookup (runes : list rune) (y x : Z) (m : Image) (p : Z * Z) :
  0 ≤ x →
  drawPixel runes y x m !! p = if decide (p = (x, y)) then Some (pixelOf runes x) else m !! p.
Proof.
  intros Hx. unfold drawPixel, pixelOf, rune, byte in *. replace (x * 2) with (2 * x) by lia.
  assert (∀ c, <[(x, y) := c]> m !! p = if decide (p = (x, y)) then Some c else m !! p) as Hins.
  { intros c. destruct (decide (p = (x, y))) as [->|Hne].
    - by rewrite lookup_insert_eq.
    - by rewrite lookup_insert_ne. }
  destruct (Z.ltb_spec (2 * x) (len runes)) as [Hlt|Hge].
  - assert (is_Some (runes !! Z.to_nat (2 * x))) as [r Hr]
        by (apply lookup_lt_is_Some_2; unfold len in *; lia).
    rewrite Hr. rewrite (nth_lookup_Some _ _ _ _ Hr).
    destruct (r =? 84); [apply Hins|].
    pose proof (lookupRunes_range r).
    replace ((lookupRunes r * 16 + 15) mod 256) with (16 * lookupRunes r + 15)
      by (rewrite Z.mod_small; lia).
    apply Hins.
  - rewrite lookup_ge_None_2 by (unfold len in *; lia). apply Hins.
Qed.

Lemma drawRow_lookup (runes : list rune) (y : Z) (m : Image) (n : nat) (p : Z * Z) :
  foldl (fun m x => drawPixel runes y x m) m (seqZ 0 (Z.of_nat n)) !! p
  = if decide (snd p = y ∧ 0 ≤ fst p < Z.of_nat n) then Some (pixelOf runes (fst p))
    else m !! p.
Proof.
  induction n as [|n IH].
  - cbn [seqZ foldl]. case_decide; [lia|done].
  - replace (Z.of_nat (S n)) with (Z.of_nat n + 1) by lia.
    rewrite seqZ_app by lia. rewrite foldl_app. cbn [seqZ foldl].
    change (seqZ (0 + Z.of_nat n) 1) with [0 + Z.of_nat n]. cbn [foldl].
    rewrite drawPixel_lookup by lia. rewrite IH. destruct p as [px py]. cbn [fst snd].
    repeat case_decide; simplify_eq; try done. all: try (exfalso; lia).
    exfalso. destruct H2 as [-> ?]. assert (px ≠ 0 + Z.of_nat n) by congruence. lia.
Qed.

Lemma drawRows_lookup (ls : list (list byte)) (y0 : Z) (m : Image) (p : Z * Z) :
  0 ≤ y0 →
  drawRows ls y0 m !! p
  = if decide (y0 ≤ snd p < 16 ∧ 0 ≤ fst p < 16)
    then match ls !! Z.to_nat (snd p - y0) with
         | Some line => Some (pixelOf (DecodeRunes line) (fst p))
         | None => m !! p
         end
    else m !! p.
Proof.
  revert y0 m. induction ls as [|line rest IH]; intros y0 m Hy0.
  - cbn [drawRows]. rewrite lookup_nil. by destruct (decide _).
  - cbn [drawRows]. destruct (Z.leb_spec 16 y0) as [Hge|Hlt].
    + destruct (decide (y0 ≤ p.2 < 16 ∧ 0 ≤ p.1 < 16)); [exfalso; lia|done].
    + rewrite IH by lia. change (seqZ 0 16) with (seqZ 0 (Z.of_nat 16)).
      rewrite drawRow_lookup. destruct p as [px py]. cbn [fst snd].
      destruct (decide (py = y0)) as [->|Hne].
      * replace (Z.to_nat (y0 - y0)) with 0%nat by lia. cbn [lookup list_lookup].
        repeat case_decide; try done; exfalso; lia.
      * destruct (Z.lt_ge_cases py y0) as [Hlt'|Hge'].
        -- repeat case_decide; try done; exfalso; lia.
        -- replace (Z.to_nat (py - y0)) with (S (Z.to_nat (py - (y0 + 1)))) by lia.
           cbn [lookup list_lookup].
           repeat case_decide; try done; try (exfalso; lia).
           all: destruct (rest !! _); done.
Qed.

Lemma fromLE_le32 (v : Z) : 0 ≤ v < 2 ^ 32 → fromLE (le32 v) = v.
Proof.
  intros Hv. unfold fromLE, le32. simpl.
  assert (v / 16777216 < 256) by (apply Z.div_lt_upper_bound; lia).
  rewrite (Z.mod_small (v / 16777216)) by (split; [apply Z.div_pos; lia|lia]).
  pose proof (Z.div_mod v 256 ltac:(lia)).
  pose proof (Z.div_mod (v / 256) 256 ltac:(lia)).
  pose proof (Z.div_mod (v / 65536) 256 ltac:(lia)).
  replace (v / 65536) with (v / 256 / 256) in * by (rewrite Z.div_div by lia; done).
  replace (v / 16777216) with (v / 256 / 256 / 256) by (rewrite !Z.div_div by lia; done).
  lia.
Qed.

Lemma drawRows_drawn (text : list byte) : drawn text (drawRows (GoLib.Split text 10) 0 ∅).
Proof.
  intros x y. rewrite drawRows_lookup by lia. cbn [fst snd]. rewrite Z.sub_0_r.
  rewrite lookup_empty. destruct (decide _); [|done]. by destruct (_ !! _).
Qed.

Section CodecProperties.
Context `{ImageCodec}.


(** X14: for a 4-bit gray text and a writable file name that does not end
    in .png, [WriteFavicon] writes an .ico file whose 22 bytes of header
    and directory entry describe the PNG data that follows them: one image
    of 16 by 16 pixels and 4 bits, the size field is the length of the PNG
    data, and the offset field is the length of the header, where the data
    starts. *)
Theorem WriteFavicon_ico_layout (text : list byte) (filename : string) (w : World)
    (m : Image) (png : list byte) :
  GoLib.HasSuffixS filename ".png" = false → filename ∉ readonly w →
  drawn text m → pngEncode (toGray m) = Some png → len png < 2 ^ 32 →
  ∃ w' header,
    WriteFavicon modeGray4 text filename false w = (None, w')
    ∧ files w' !! filename = Some (header ++ png)
    ∧ len header = 22
    ∧ take 6 header = [0; 0; 1; 0; 1; 0]
    ∧ take 4 (drop 6 header) = [16; 16; 0; 0]
    ∧ fromLE (take 2 (drop 12 header)) = 4
    ∧ fromLE (take 4 (drop 14 header)) = len png
    ∧ fromLE (take 4 (drop 18 header)) = len header.
Proof.
  intros Hpng Hro Hm Henc Hlen.
  assert (drawRows (GoLib.Split text 10) 0 ∅ = m) as Hdraw.
  { apply map_eq. intros [x y]. by rewrite Hm, (drawRows_drawn text x y). }
  unfold WriteFavicon. rewrite bool_decide_eq_false_2 by (intros Hne; by apply Hne).
  cbn [andb negb]. rewrite Hpng. cbn [andb].
  unfold osCreate. rewrite bool_decide_eq_false_2 by done.
  unfold EncodeGrayscale4bit. rewrite Hdraw, Henc.
  eexists _, ((le16 0 ++ le16 1 ++ le16 1)
                ++ [16; 16; 0; 0] ++ le16 1 ++ le16 4 ++ le32 (len png) ++ le32 22).
  split; [reflexivity|]. split.
  - unfold fileWrite. cbn [files]. rewrite lookup_insert_eq. cbn [files default].
    rewrite lookup_insert_eq. cbn [default]. rewrite lookup_insert_eq. reflexivity.
  - pose proof (len_nonneg png).
    split; [reflexivity|]. split; [reflexivity|]. split; [reflexivity|].
    split; [reflexivity|]. split; [|reflexivity].
    change (take 4 (drop 14 _)) with (le32 (len png)). apply fromLE_le32. lia.
Qed.

End CodecProperties.


Lemma WriteFavicon_ico_layout_witness :
  ∃ w' header,
    @WriteFavicon stubCodec modeGray4 [64; 32; 84] "icon.ico" false (mkWorld ∅ ∅ [])
    = (None, w')
    ∧ files w' !! "icon.ico"%string = Some (header ++ [137; 80; 78; 71])
    ∧ len header = 22
    ∧ fromLE (take 4 (drop 14 header)) = 4
    ∧ fromLE (take 4 (drop 18 header)) = 22.
Proof.
  destruct (@WriteFavicon_ico_layout stubCodec [64; 32; 84] "icon.ico" (mkWorld ∅ ∅ [])
              (drawRows (GoLib.Split [64; 32; 84] 10) 0 ∅) [137; 80; 78; 71])
    as (w' & header & Hw & Hf & Hlen & _ & _ & _ & Hsize & Hoff).
  - reflexivity.
  - simpl. apply not_elem_of_empty.
  - apply drawRows_drawn.
  - reflexivity.
  - vm_compute. reflexivity.
  - exists w', header. split; [exact Hw|]. split; [exact Hf|]. split; [exact Hlen|].
    split; [exact Hsize|]. exact (eq_trans Hoff Hlen).
Defined.

(** ** Saving and loading *)

Lemma trimAll_lines_idem (e : Editor) (b : bool) :
  lines (trimAll (set_changed b (trimAll e))) = lines (trimAll e).
Proof.
  assert (Len (set_changed b (trimAll e)) = Len e) as HL.
  { change (Len (set_changed b (trimAll e))) with (Len (trimAll e)). apply Len_trimAll. }
  apply map_eq. intros k. unfold trimAll at 1. rewrite HL.
  rewrite foldl_TrimRight_lookup by apply NoDup_seqZ.
  cbn [lines set_changed]. unfold trimAll.
  rewrite foldl_TrimRight_lookup by apply NoDup_seqZ.
  destruct (decide (k ∈ seqZ 0 (Len e))); [|done].
  destruct (lines e !! k); [|done]. simpl. by rewrite trimRightLine_idem.
Qed.

Lemma foldl_TrimRight_fields (idx : list Z) (e : Editor) :
  let e' := foldl (fun e i => TrimRight i e) e idx in
  drawMode e' = drawMode e ∧ pos e' = pos e ∧ redraw e' = redraw e
  ∧ redrawCursor e' = redrawCursor e ∧ wordWrapAt e' = wordWrapAt e ∧ mode e' = mode e.
Proof.
  revert e. induction idx as [|i idx IH]; intros e; [done|].
  cbn [foldl]. destruct (IH (TrimRight i e)) as (-> & -> & -> & -> & -> & ->).
  unfold TrimRight. by destruct (lines e !! i).
Qed.

Lemma Editor_eq (a b : Editor) :
  lines a = lines b → changed a = changed b → drawMode a = drawMode b → pos a = pos b →
  redraw a = redraw b → redrawCursor a = redrawCursor b → wordWrapAt a = wordWrapAt b →
  mode a = mode b → a = b.
Proof. destruct a, b. simpl. by intros -> -> -> -> -> -> -> ->. Qed.

Lemma saved_again (e : Editor) :
  set_changed false (trimAll (set_changed false (trimAll e))) = set_changed false (trimAll e).
Proof.
  pose proof (foldl_TrimRight_fields (seqZ 0 (Len (set_changed false (trimAll e))))
                (set_changed false (trimAll e))) as Hf.
  cbv zeta in Hf. fold (trimAll (set_changed false (trimAll e))) in Hf.
  destruct Hf as (H1 & H2 & H3 & H4 & H5 & H6).
  apply Editor_eq; cbn [lines changed drawMode pos redraw redrawCursor wordWrapAt mode
                        set_changed]; try done.
  apply trimAll_lines_idem.
Qed.

Lemma crlfToLf_cons2 (b b2 : byte) (t2 : list byte) :
  crlfToLf (b :: b2 :: t2)
  = if (b =? 13) && (b2 =? 10) then 10 :: crlfToLf t2 else b :: crlfToLf (b2 :: t2).
Proof. reflexivity. Qed.

Lemma unixEndings_cons2 (b b2 : byte) (t2 : list byte) :
  unixEndings (b :: b2 :: t2)
  = if b =? 13 then (if b2 =? 10 then 10 :: unixEndings t2 else 10 :: unixEndings (b2 :: t2))
    else b :: unixEndings (b2 :: t2).
Proof. reflexivity. Qed.

Lemma replaceLoop_crlf (fuel : nat) (s : list byte) :
  (length s ≤ fuel)%nat → GoLib.replaceLoop fuel s [13; 10] [10] = crlfToLf s.
Proof.
  revert s. induction fuel as [|fuel IH]; intros s Hf.
  - destruct s; [done|simpl in Hf; lia].
  - destruct s as [|b [|b2 t2]]; [done| |].
    + cbn [GoLib.replaceLoop GoLib.HasPrefix crlfToLf]. rewrite andb_false_r.
      by destruct fuel.
    + rewrite crlfToLf_cons2. cbn [GoLib.replaceLoop GoLib.HasPrefix length drop].
      rewrite HasPrefix_nil, andb_true_r. destruct ((b =? 13) && (b2 =? 10)).
      * cbn [app]. f_equal. apply IH. simpl in Hf. lia.
      * f_equal. apply IH. simpl in *. lia.
Qed.

Lemma replaceLoop_cr (fuel : nat) (s : list byte) :
  (length s ≤ fuel)%nat → GoLib.replaceLoop fuel s [13] [10] = map crToLf s.
Proof.
  revert s. induction fuel as [|fuel IH]; intros s Hf.
  - destruct s; [done|simpl in Hf; lia].
  - destruct s as [|b t]; [done|].
    cbn [GoLib.replaceLoop GoLib.HasPrefix length drop map].
    rewrite HasPrefix_nil, andb_true_r. unfold crToLf at 1. destruct (b =? 13).
    + cbn [app]. f_equal. apply IH. simpl in Hf. lia.
    + f_equal. apply IH. simpl in Hf. lia.
Qed.

Lemma crlfToLf_unix (s : list byte) : map crToLf (crlfToLf s) = unixEndings s.
Proof.
  assert (∀ n s, (length s ≤ n)%nat → map crToLf (crlfToLf s) = unixEndings s) as Hn.
  { clear s. induction n as [|n IH]; intros s Hs.
    - destruct s; [done|simpl in Hs; lia].
    - destruct s as [|b [|b2 t2]]; [done| |].
      + simpl. unfold crToLf. by destruct (b =? 13).
      + rewrite crlfToLf_cons2, unixEndings_cons2. destruct (Z.eqb_spec b 13) as [->|Hb].
        * cbn [andb]. destruct (b2 =? 10).
          -- cbn [map]. f_equal. apply IH. simpl in Hs. lia.
          -- cbn [map]. f_equal. apply IH. simpl in *. lia.
        * cbn [andb map]. unfold crToLf at 1. destruct (Z.eqb_spec b 13); [done|].
          f_equal. apply IH. simpl in *. lia. }
  by apply (Hn (length s)).
Qed.

Lemma Replace_line_endings (s : list byte) :
  GoLib.Replace (GoLib.Replace s [13; 10] [10]) [13] [10] = unixEndings s.
Proof.
  unfold GoLib.Replace. rewrite (replaceLoop_crlf (length s) s) by done.
  rewrite replaceLoop_cr by done. apply crlfToLf_unix.
Qed.

Lemma unixEndings_no_cr (s : list byte) : GoLib.Contains s 13 = false → unixEndings s = s.
Proof.
  unfold GoLib.Contains. induction s as [|b t IH]; [done|].
  cbn [existsb unixEndings]. intros [Hb Ht]%orb_false_iff.
  rewrite Z.eqb_sym, Hb. f_equal. by apply IH.
Qed.

Lemma unixEndings_Contains (s : list byte) : GoLib.Contains (unixEndings s) 13 = false.
Proof.
  unfold GoLib.Contains.
  assert (∀ n s, (length s ≤ n)%nat → existsb (Z.eqb 13) (unixEndings s) = false) as Hn.
  { clear s. induction n as [|n IH]; intros s Hs.
    - destruct s; [done|simpl in Hs; lia].
    - destruct s as [|b [|b2 t2]]; [done| |].
      + cbn [unixEndings]. destruct (Z.eqb_spec b 13) as [->|Hb]; [done|].
        cbn [existsb]. destruct (Z.eqb_spec 13 b); [lia|done].
      + rewrite unixEndings_cons2. destruct (Z.eqb_spec b 13) as [->|Hb].
        * destruct (b2 =? 10).
          -- cbn [existsb]. rewrite IH; [done|simpl in *; lia].
          -- cbn [existsb]. rewrite IH; [done|simpl in *; lia].
        * cbn [existsb]. rewrite IH by (simpl in *; lia).
          destruct (Z.eqb_spec 13 b); [lia|done]. }
  by apply (Hn (length s)).
Qed.

Section SaveLoadProperties.
Context `{ImageCodec}.

Lemma Save_text_world (filename : string) (asOther : bool) (e : Editor) (w : World) :
  GoLib.HasSuffixS filename ".ico" = false →
  GoLib.HasSuffixS filename ".png" = false →
  filename ∉ readonly w →
  ∃ w1, Save filename asOther e w = (None, set_changed false (trimAll e), w1)
        ∧ files w1 = <[filename := saveData (trimAll e)]> (files w)
        ∧ readonly w1 = readonly w.
Proof.
  intros Hico Hpng Hro. unfold Save. rewrite Hico, Hpng. cbn [orb].
  unfold WriteFile, osCreate. rewrite bool_decide_eq_false_2 by done.
  eexists. split; [reflexivity|]. unfold fileWrite. cbn [files readonly]. split; [|done].
  rewrite lookup_insert_eq. cbn [default app]. by rewrite insert_insert_eq.
Qed.

(** X15: saving a text file twice in a row is the same as saving it once:
    the second [Save] returns the editor the first one returned, unchanged,
    and leaves the contents of every file as the first one left them. *)
Theorem Save_twice (filename : string) (asOther : bool) (e : Editor) (w : World) :
  GoLib.HasSuffixS filename ".ico" = false →
  GoLib.HasSuffixS filename ".png" = false →
  filename ∉ readonly w →
  ∃ e1 w1 w2,
    Save filename asOther e w = (None, e1, w1)
    ∧ Save filename asOther e1 w1 = (None, e1, w2)
    ∧ files w2 = files w1
    ∧ changed e1 = false.
Proof.
  intros Hico Hpng Hro.
  destruct (Save_text_world filename asOther e w Hico Hpng Hro) as (w1 & Hsave & Hf1 & Hr1).
  destruct (Save_text_world filename asOther (set_changed false (trimAll e)) w1 Hico Hpng)
    as (w2 & Hsave2 & Hf2 & Hr2); [by rewrite Hr1|].
  rewrite saved_again in Hsave2.
  exists (set_changed false (trimAll e)), w1, w2. split_and!; try done.
  rewrite Hf2, Hf1, insert_insert_eq. f_equal.
  change (saveData (trimAll (set_changed false (trimAll e))))
    with (saveData (set_changed false (trimAll (set_changed false (trimAll e))))).
  by rewrite saved_again.
Qed.

(** X16: when the text file cannot be opened for writing, [Save] returns
    the error and writes nothing, but the editor is not as before: every
    line below [Len] has been trimmed by [TrimRight], and the document is
    marked as not changed although nothing was saved. *)
Theorem Save_write_error (filename : string) (asOther : bool) (e : Editor) (w : World) :
  GoLib.HasSuffixS filename ".ico" = false →
  GoLib.HasSuffixS filename ".png" = false →
  filename ∈ readonly w →
  ∃ e1, Save filename asOther e w = (Some (ErrOpen filename), e1, w)
        ∧ changed e1 = false
        ∧ (∀ i, 0 ≤ i < Len e → lineAt (lines e1) i = trimRightLine (lineAt (lines e) i)).
Proof.
  intros Hico Hpng Hro. unfold Save. rewrite Hico, Hpng. cbn [orb].
  unfold WriteFile, osCreate. rewrite bool_decide_eq_true_2 by done.
  eexists. split; [reflexivity|]. split; [done|].
  intros i Hi. cbn [lines set_changed]. by apply trimAll_lineAt.
Qed.

(** X17: [Load] of a text file reads "\r\n" and a lone "\r" as "\n": the
    lines stored are those of the data with its line endings converted,
    and loading the file gives the same result as loading a file that
    holds the converted data. *)
Theorem Load_line_endings (filename : string) (e : Editor) (w w' : World)
    (data : list byte) :
  GoLib.HasSuffixS filename ".ico" = false →
  GoLib.HasSuffixS filename ".png" = false →
  files w !! filename = Some data →
  files w' !! filename = Some (unixEndings data) →
  Load filename e w
  = (e2 ← loadLines (GoLib.Split (unixEndings data) 10) 0 (Clear e);
     Done (EmptyString, None, set_changed false e2))
  ∧ Load filename e w = Load filename e w'.
Proof.
  intros Hico Hpng Hw Hw'.
  assert (∀ w0 d, files w0 !! filename = Some d →
            Load filename e w0
            = (e2 ← loadLines (GoLib.Split (unixEndings d) 10) 0 (Clear e);
               Done (EmptyString, None, set_changed false e2))) as Hload.
  { intros w0 d Hd. unfold Load. rewrite Hico, Hpng. unfold ReadFile. rewrite Hd.
    destruct (GoLib.Contains d 13) eqn:Hc.
    - by rewrite Replace_line_endings.
    - by rewrite unixEndings_no_cr. }
  split; [by apply Hload|].
  rewrite (Hload w data Hw), (Hload w' _ Hw').
  by rewrite (unixEndings_no_cr (unixEndings data)) by apply unixEndings_Contains.
Qed.

End SaveLoadProperties.

Lemma Save_twice_witness :
  ∃ e1 w1 w2,
    @Save nullCodec "notes.txt" false (editorOf nbspDoc 0 0) (mkWorld ∅ ∅ []) = (None, e1, w1)
    ∧ @Save nullCodec "notes.txt" false e1 w1 = (None, e1, w2)
    ∧ files w2 = files w1
    ∧ changed e1 = false.
Proof.
  apply (@Save_twice nullCodec "notes.txt" false (editorOf nbspDoc 0 0) (mkWorld ∅ ∅ [])).
  - reflexivity.
  - reflexivity.
  - simpl. apply not_elem_of_empty.
Defined.

Lemma Save_write_error_witness :
  ∃ e1, @Save nullCodec "notes.txt" false (editorOf nbspDoc 0 0)
              (mkWorld ∅ {["notes.txt"%string]} [])
        = (Some (ErrOpen "notes.txt"), e1, mkWorld ∅ {["notes.txt"%string]} [])
        ∧ changed e1 = false
        ∧ lineAt (lines e1) 0 = [97; 160; 98].
Proof.
  destruct (@Save_write_error nullCodec "notes.txt" false (editorOf nbspDoc 0 0)
              (mkWorld ∅ {["notes.txt"%string]} [])) as (e1 & He1 & Hc & Hl).
  - reflexivity.
  - reflexivity.
  - simpl. by apply elem_of_singleton.
  - exists e1. split; [exact He1|]. split; [exact Hc|].
    rewrite (Hl 0); [vm_compute; reflexivity|]. vm_compute. split; [discriminate|reflexivity].
Defined.

Lemma Load_line_endings_witness :
  @Load nullCodec "notes.txt" (editorOf ∅ 0 0)
        (mkWorld (<["notes.txt"%string := [97; 13; 10; 98; 13; 99]]> ∅) ∅ [])
  = @Load nullCodec "notes.txt" (editorOf ∅ 0 0)
          (mkWorld (<["notes.txt"%string := [97; 10; 98; 10; 99]]> ∅) ∅ []).
Proof.
  destruct (@Load_line_endings nullCodec "notes.txt" (editorOf ∅ 0 0)
              (mkWorld (<["notes.txt"%string := [97; 13; 10; 98; 13; 99]]> ∅) ∅ [])
              (mkWorld (<["notes.txt"%string := [97; 10; 98; 10; 99]]> ∅) ∅ [])
              [97; 13; 10; 98; 13; 99]) as [_ Hsame].
  - reflexivity.
  - reflexivity.
  - apply lookup_insert_eq.
  - apply lookup_insert_eq.
  - exact Hsame.
Defined.
